(** * VeriCite-Academic: the citation verification pipeline

    A shallow embedding of the three copies of [parseAndVerifyCitations]
    that the repository carries ([api/verify.ts] with its HTTP handler,
    [src/services/geminiService.ts] with the skeptic review pass, and the
    older service kept in [unnamed/part_001]), of the types of
    [src/types.ts] and of the JavaScript built-ins they call.

    Strings are sequences of code units; the model keeps the code units
    below 256, one [ascii] each.  The generative service, the Crossref
    registry and [Math.random] are collaborators outside the program: they
    are state transformers over an abstract world, so that two calls with
    the same argument may answer differently. *)

From Stdlib Require Import String Ascii List Bool Arith NArith QArith Lia Sorted.
From Stdlib Require Import ZArith DecimalString.
Import ListNotations.

Set Implicit Arguments.

Local Close Scope Q_scope.
Local Open Scope nat_scope.
Local Open Scope string_scope.
Local Open Scope list_scope.

(* ================================================================== *)
(** * JavaScript built-ins used by the pipeline *)
(* ================================================================== *)

Module JS.

(** [ToBoolean] on a value that is [undefined] or a string. *)
Definition truthy (v : option string) : bool :=
  match v with
  | None => false
  | Some s => negb (String.eqb s "")
  end.

(** [a || b] on values that are [undefined] or strings. *)
Definition or_else (a b : option string) : option string :=
  if truthy a then a else b.

(** [a ?? b]. *)
Definition coalesce {A : Type} (a b : option A) : option A :=
  match a with
  | Some _ => a
  | None => b
  end.

(** A value interpolated in a template literal. *)
Definition show (v : option string) : string :=
  match v with
  | Some s => s
  | None => "undefined"
  end.

Definition code (c : ascii) : N := N_of_ascii c.

Definition between (lo hi : N) (c : ascii) : bool :=
  (lo <=? code c)%N && (code c <=? hi)%N.

(** [String.prototype.toLowerCase], on code units below 256. *)
Definition lower_char (c : ascii) : ascii :=
  if between 65 90 c
     || (between 192 222 c && negb (code c =? 215)%N)
  then ascii_of_N (code c + 32)
  else c.

Fixpoint toLowerCase (s : string) : string :=
  match s with
  | EmptyString => EmptyString
  | String c s' => String (lower_char c) (toLowerCase s')
  end.

(** [hay.includes(needle)]. *)
Fixpoint includes (hay needle : string) : bool :=
  prefix needle hay
  || match hay with
     | EmptyString => false
     | String _ hay' => includes hay' needle
     end.

(** [s.slice(n)] for [n >= 0]. *)
Fixpoint slice (n : nat) (s : string) : string :=
  match n, s with
  | O, _ => s
  | S n', String _ s' => slice n' s'
  | S _, EmptyString => EmptyString
  end.

(** [s.substr(start, len)]. *)
Definition substr (start len : nat) (s : string) : string :=
  substring 0 len (slice start s).

(** [\d] and [[0-9]]. *)
Definition is_digit (c : ascii) : bool := between 48 57 c.

(** The word characters of [\b]: [A-Za-z0-9_]. *)
Definition is_word (c : ascii) : bool :=
  between 97 122 c || between 65 90 c || is_digit c || (code c =? 95)%N.

(** [\s] on code units below 256: TAB, LF, VT, FF, CR, SP, NBSP. *)
Definition is_space (c : ascii) : bool :=
  between 9 13 c || (code c =? 32)%N || (code c =? 160)%N.

(** [\S]. *)
Definition is_nonspace (c : ascii) : bool := negb (is_space c).

Definition is_char (a : ascii) (c : ascii) : bool := Ascii.eqb a c.

Fixpoint one_of (l : list ascii) (c : ascii) : bool :=
  match l with
  | [] => false
  | a :: l' => Ascii.eqb a c || one_of l' c
  end.

End JS.

(* ================================================================== *)
(** * Regular expressions: the backtracking matcher of [RegExp.prototype.exec] *)
(* ================================================================== *)

Module RegExp.

(** The pattern constructs the two DOI patterns are written with.  All
    quantifiers are greedy.  The [i] flag of both patterns is inert: no
    pattern character is a letter, and no code unit canonicalizes to a
    digit or a punctuation mark other than itself. *)
Inductive regex : Type :=
| Empty
| Class (f : ascii -> bool)
| Seq (a b : regex)
| Repeat (min : nat) (max : option nat) (a : regex)
| NotAhead (a : regex)
| WordBoundary.

(** A position in the input: the code unit before it, if any, and the
    input that remains. *)
Definition pos : Type := (option ascii * list ascii)%type.

Definition remaining (x : pos) : nat := length (snd x).

Definition word_before (x : pos) : bool :=
  match fst x with
  | Some c => JS.is_word c
  | None => false
  end.

Definition word_after (x : pos) : bool :=
  match snd x with
  | c :: _ => JS.is_word c
  | [] => false
  end.

(** [\b] holds where exactly one side is a word character. *)
Definition at_boundary (x : pos) : bool := xorb (word_before x) (word_after x).

Definition pred_max (max : option nat) : option nat :=
  match max with
  | Some k => Some (pred k)
  | None => None
  end.

Definition max_is_zero (max : option nat) : bool :=
  match max with
  | Some 0 => true
  | _ => false
  end.

(** [RepeatMatcher] of the language specification, greedy case, with the
    end positions listed in the order the backtracking tries them.
    An iteration that consumed nothing is dropped once [min] is spent.
    Every call lowers [min + remaining x], which bounds the fuel. *)
Fixpoint repeat_ends (step : pos -> list pos) (fuel min : nat)
         (max : option nat) (x : pos) : list pos :=
  match fuel with
  | O => []
  | S fuel' =>
      if max_is_zero max then [x]
      else
        let again :=
          flat_map
            (fun y =>
               if Nat.eqb min 0 && Nat.eqb (remaining y) (remaining x) then []
               else repeat_ends step fuel' (pred min) (pred_max max) y)
            (step x) in
        if Nat.eqb min 0 then again ++ [x] else again
  end.

(** The end positions of the matches of [r] that start at [x], first
    choice first. *)
Fixpoint ends (r : regex) (x : pos) : list pos :=
  match r with
  | Empty => [x]
  | Class f =>
      match snd x with
      | c :: rest => if f c then [(Some c, rest)] else []
      | [] => []
      end
  | Seq a b => flat_map (ends b) (ends a x)
  | Repeat min max a =>
      repeat_ends (ends a) (S (min + remaining x)) min max x
  | NotAhead a =>
      match ends a x with
      | [] => [x]
      | _ :: _ => []
      end
  | WordBoundary => if at_boundary x then [x] else []
  end.

(** The substring between a start position and an end position. *)
Definition consumed (x y : pos) : list ascii :=
  firstn (remaining x - remaining y) (snd x).

(** The scan of [RegExpBuiltinExec] without the [g] flag: the first
    start index, from 0 to the length of the input, at which the pattern
    matches; the result is [match[0]]. *)
Fixpoint search (r : regex) (prev : option ascii) (rest : list ascii)
  : option (list ascii) :=
  match ends r (prev, rest) with
  | y :: _ => Some (consumed (prev, rest) y)
  | [] =>
      match rest with
      | [] => None
      | c :: rest' => search r (Some c) rest'
      end
  end.

(** [text.match(r)] followed by [match[0]]; [None] is [null]. *)
Definition match0 (r : regex) (text : string) : option string :=
  option_map string_of_list_ascii
             (search r None (list_ascii_of_string text)).

Definition Plus (a : regex) : regex := Repeat 1 None a.
Definition Star (a : regex) : regex := Repeat 0 None a.
Definition Chr (c : ascii) : regex := Class (JS.is_char c).

(** ** The matches of a pattern as a relation between positions *)

(** The code unit before the position reached by reading [l]. *)
Definition prev_after (prev : option ascii) (l : list ascii) : option ascii :=
  fold_left (fun _ c => Some c) l prev.

(** [y] is the position reached from [x] by reading [l]. *)
Definition advance (x : pos) (l : list ascii) (y : pos) : Prop :=
  snd x = l ++ snd y /\ fst y = prev_after (fst x) l.

(** Iterations of [R] from [min] to [max] times; once [min] is spent an
    iteration has to move. *)
Inductive repeats (R : pos -> pos -> Prop)
  : nat -> option nat -> pos -> pos -> Prop :=
| repeats_exhausted min max x :
    max_is_zero max = true -> repeats R min max x x
| repeats_stop max x :
    repeats R 0 max x x
| repeats_again min max x y z :
    max_is_zero max = false ->
    R x y ->
    (min = 0 -> remaining y <> remaining x) ->
    repeats R (pred min) (pred_max max) y z ->
    repeats R min max x z.

(** [matches r x y]: the pattern [r] matches from [x] to [y], whatever the
    order in which the backtracking finds it. *)
Fixpoint matches (r : regex) : pos -> pos -> Prop :=
  match r with
  | Empty => fun x y => y = x
  | Class f =>
      fun x y => exists c rest, snd x = c :: rest /\ f c = true
                                /\ y = (Some c, rest)
  | Seq a b => fun x z => exists y, matches a x y /\ matches b y z
  | Repeat min max a => repeats (matches a) min max
  | NotAhead a => fun x y => y = x /\ forall z, ~ matches a x z
  | WordBoundary => fun x y => y = x /\ at_boundary x = true
  end.

(** The pattern [r] reads the strings of [P] and nothing else, wherever it
    is tried. *)
Definition reads (r : regex) (P : list ascii -> Prop) : Prop :=
  forall x y, matches r x y <-> exists l, advance x l y /\ P l.

(** The end positions come longest match first. *)
Definition longest_first (l : list pos) : Prop :=
  StronglySorted (fun a b => remaining a < remaining b) l.

End RegExp.

(* ================================================================== *)
(** * [src/types.ts] *)
(* ================================================================== *)

Inductive CitationStatus : Type :=
| VERIFIED
| PARTIAL_MATCH
| UNVERIFIED
| HALLUCINATION
| PENDING.

(** The enum is a string enum: at run time a status is its string. *)
Definition status_value (s : CitationStatus) : string :=
  match s with
  | VERIFIED => "VERIFIED"
  | PARTIAL_MATCH => "PARTIAL_MATCH"
  | UNVERIFIED => "UNVERIFIED"
  | HALLUCINATION => "HALLUCINATION"
  | PENDING => "PENDING"
  end.

Coercion status_value : CitationStatus >-> string.

(** [c.status === CitationStatus.X]. *)
Definition status_is (s : string) (x : CitationStatus) : bool :=
  String.eqb s (status_value x).

Record ParsedMetadata : Type := mkMeta {
  title : option string;
  authors : option (list string);
  year : option string;
  doi : option string
}.

Record Citation : Type := mkCitation {
  id : option string;
  rawText : string;
  parsedMetadata : ParsedMetadata;
  status : string;
  confidenceScore : Q;
  verificationSource : string;
  sourceUrl : option string;
  explanation : string
}.

Record Summary : Type := mkSummary {
  total : nat;
  verified : nat;
  hallucinated : nat;
  unverified : nat
}.

(** A parsed JSON object whose properties are strings, in source order. *)
Definition Bibliography : Type := list (string * string).

Record VerificationResult : Type := mkResult {
  citations : list Citation;
  summary : Summary;
  multiStyleBib : option Bibliography
}.

(* ================================================================== *)
(** * Identifier extraction *)
(* ================================================================== *)

Module Doi.

Import RegExp.

Local Notation "a ';;' b" := (Seq a b) (at level 61, right associativity).

(** The characters the negative look-ahead of the pattern rejects: the
    double quote, the ampersand, the apostrophe and the angle brackets. *)
Definition excluded : list ascii := ["034"; "&"; "'"; "<"; ">"]%char.

(** One character of the tail: a [\S] that the look-ahead lets through. *)
Definition tail_char : regex :=
  NotAhead (Class (JS.one_of excluded)) ;; Class JS.is_nonspace.

(** The head of the group of the pattern below, up to the slash:
    [10[.][0-9]{4,}(?:[.][0-9]+)*\/]. *)
Definition doi_head : regex :=
  Chr "1" ;; Chr "0" ;; Chr "." ;;
  Repeat 4 None (Class JS.is_digit) ;;
  Star (Chr "." ;; Plus (Class JS.is_digit)) ;;
  Chr "/".

(** The group: the head and the tail [(?:(?!X)\S)+], where [X] is the
    class of the [excluded] characters. *)
Definition doi_group : regex := doi_head ;; Plus tail_char.

(** The pattern [/\b(10[.][0-9]{4,}(?:[.][0-9]+)*\/(?:(?!X)\S)+)\b/i] of
    [api/verify.ts] and [src/services/geminiService.ts]: the group between
    two word boundaries.  The code reads [match[0]], no capture. *)
Definition doiRegex : regex :=
  WordBoundary ;; doi_group ;; WordBoundary.

(** [/\b10\.\d{4,9}\/\S+\b/i] of [unnamed/part_001]. *)
Definition doiRegex_part001 : regex :=
  WordBoundary ;;
  Chr "1" ;; Chr "0" ;; Chr "." ;;
  Repeat 4 (Some 9) (Class JS.is_digit) ;;
  Chr "/" ;;
  Plus (Class JS.is_nonspace) ;;
  WordBoundary.

(** [let doi = item.doi; if (!doi) { const match = item.rawText.match(r);
    if (match) doi = match[0]; }] *)
Definition extract (r : regex) (known : option string) (rawText : string)
  : option string :=
  if JS.truthy known then known
  else
    match match0 r rawText with
    | Some m => Some m
    | None => known
    end.

Definition extractDoi : option string -> string -> option string :=
  extract doiRegex.

Definition extractDoi_part001 : option string -> string -> option string :=
  extract doiRegex_part001.

End Doi.

(* ================================================================== *)
(** * Collaborators and the monad of the pipeline *)
(* ================================================================== *)

(** What an [await] or a built-in can throw. *)
Inductive exn : Type :=
| NotInitialized   (* the explicit [throw new Error] of the service *)
| Rejected         (* a [generateContent] promise rejected *)
| SyntaxError      (* [JSON.parse] on a text that is not JSON *)
| TypeError.       (* a property read on [undefined] *)

Inductive result (A : Type) : Type :=
| Ok (a : A)
| Throw (e : exn).

Arguments Ok {A} a.
Arguments Throw {A} e.

(** A [generateContent] call whose text goes through [JSON.parse]: the call
    rejects, or its text is not JSON, or it parses to a value of the shape
    the response schema asks for. *)
Inductive reply (A : Type) : Type :=
| CallFailed
| NotJson
| Parsed (a : A).

Arguments CallFailed {A}.
Arguments NotJson {A}.
Arguments Parsed {A} a.

(** One element of the extraction array. *)
Record RawItem : Type := mkItem {
  item_id : option string;
  item_rawText : string;
  item_title : option string;
  item_authors : option (list string);
  item_year : option string;
  item_doi : option string
}.

Record Author : Type := mkAuthor {
  given : option string;
  family : option string
}.

(** The fields of a Crossref [message] the pipeline reads: [title[0]],
    [author], and the first date part of [created] and of [issued]. *)
Record CrossrefMessage : Type := mkCrossref {
  cr_title : option string;
  cr_author : option (list Author);
  cr_created : option string;
  cr_issued : option string
}.

Record GroundingChunk : Type := mkChunk {
  web_uri : option string
}.

(** The response of a verification call: its text and
    [candidates[0].groundingMetadata.groundingChunks || []]. *)
Record VerifyResponse : Type := mkVerify {
  response_text : string;
  groundingChunks : list GroundingChunk
}.

(** One element of the review array. *)
Record Review : Type := mkReview {
  review_id : string;
  newStatus : string;
  reasoning : string
}.

Section World.

Variable W : Type.

(** The collaborators.  [fetchCrossrefMetadata] is the function of that
    name as a whole: it strips the resolver prefix, queries the registry
    and answers [null] on every failure.  [mathRandom] is
    [Math.random().toString(36)]. *)
Record Services : Type := mkServices {
  extractCitations : string -> W -> reply (list RawItem) * W;
  fetchCrossrefMetadata : string -> W -> option CrossrefMessage * W;
  verifyCitation : string -> W -> option VerifyResponse * W;
  reviewCitations : list Citation -> W -> reply (list Review) * W;
  generateBibliography : list Citation -> W -> reply Bibliography * W;
  mathRandom : W -> string * W
}.

Definition M (A : Type) : Type := W -> result A * W.

Definition ret {A : Type} (a : A) : M A := fun w => (Ok a, w).

Definition throw {A : Type} (e : exn) : M A := fun w => (Throw e, w).

Definition bind {A B : Type} (m : M A) (k : A -> M B) : M B :=
  fun w =>
    match m w with
    | (Ok a, w') => k a w'
    | (Throw e, w') => (Throw e, w')
    end.

(** A call that cannot throw. *)
Definition lift {A : Type} (f : W -> A * W) : M A :=
  fun w => let (a, w') := f w in (Ok a, w').

(** [await ai.models.generateContent(...)]. *)
Definition await {A : Type} (f : W -> option A * W) : M A :=
  fun w =>
    match f w with
    | (Some a, w') => (Ok a, w')
    | (None, w') => (Throw Rejected, w')
    end.

(** [JSON.parse((await ai.models.generateContent(...)).text)]. *)
Definition await_json {A : Type} (f : W -> reply A * W) : M A :=
  fun w =>
    match f w with
    | (Parsed a, w') => (Ok a, w')
    | (NotJson, w') => (Throw SyntaxError, w')
    | (CallFailed, w') => (Throw Rejected, w')
    end.

End World.

Arguments ret {W A} a.
Arguments throw {W A} e.
Arguments bind {W A B} m k.
Arguments lift {W A} f.
Arguments await {W A} f.
Arguments await_json {W A} f.

Notation "x <- m ;; k" := (bind m (fun x => k))
  (at level 62, m at next level, right associativity).

(** [for (const item of items) { ...; acc.push(body(item)) }]: the items are
    visited in order, each result is pushed at the end, and the first
    exception leaves the loop. *)
Fixpoint for_of_push {W A B : Type} (body : A -> M W B) (items : list A)
         (acc : list B) : M W (list B) :=
  match items with
  | [] => ret acc
  | item :: rest =>
      b <- body item ;;
      for_of_push body rest (acc ++ [b])
  end.

(* ================================================================== *)
(** * What the three pipelines share *)
(* ================================================================== *)

Definition count (f : Citation -> bool) (cs : list Citation) : nat :=
  length (filter f cs).

Definition is_verified (c : Citation) : bool := status_is (status c) VERIFIED.

Definition is_hallucinated (c : Citation) : bool :=
  status_is (status c) HALLUCINATION.

Definition is_unverified_or_partial (c : Citation) : bool :=
  status_is (status c) UNVERIFIED || status_is (status c) PARTIAL_MATCH.

Definition is_unverified (c : Citation) : bool :=
  status_is (status c) UNVERIFIED.

(** [`${a.given} ${a.family}`] *)
Definition author_name (a : Author) : string :=
  (JS.show (given a) ++ " " ++ JS.show (family a))%string.

(** [crossrefData?.author?.map(...)] *)
Definition crossref_authors (cr : option CrossrefMessage)
  : option (list string) :=
  match cr with
  | Some m => option_map (map author_name) (cr_author m)
  | None => None
  end.

Definition crossref_field (f : CrossrefMessage -> option string)
           (cr : option CrossrefMessage) : option string :=
  match cr with
  | Some m => f m
  | None => None
  end.

(** [doi ? `https://doi.org/${doi}` : undefined] *)
Definition doi_url (doi : option string) : option string :=
  if JS.truthy doi then Some ("https://doi.org/" ++ JS.show doi)%string else None.

(** [groundingChunks[0]?.web?.uri] *)
Definition first_uri (chunks : list GroundingChunk) : option string :=
  match chunks with
  | c :: _ => web_uri c
  | [] => None
  end.

Definition is_some {A : Type} (o : option A) : bool :=
  match o with
  | Some _ => true
  | None => false
  end.

Definition nonempty {A : Type} (l : list A) : bool :=
  match l with
  | [] => false
  | _ :: _ => true
  end.

(** The three fabrication markers of [api/verify.ts] and
    [src/services/geminiService.ts], looked up in the lower-cased text. *)
Definition fabrication_markers (responseText : string) : bool :=
  JS.includes responseText "hallucinated"
  || JS.includes responseText "fabricated"
  || JS.includes responseText "fake".

(* ================================================================== *)
(** * [api/verify.ts] *)
(* ================================================================== *)

Module ApiVerify.

(** Lines 107-127: the status and the confidence, from whether
    [crossrefData] is set, whether [groundingChunks] is non-empty and
    whether the response text carries a fabrication marker. *)
Definition fuse (registryMatch groundingMatch fabricationSignal : bool)
  : CitationStatus * Q :=
  let s0 := (UNVERIFIED, 0.5%Q) in
  let s1 := if registryMatch || groundingMatch
            then (PARTIAL_MATCH, 0.75%Q) else s0 in
  let s2 := if registryMatch && groundingMatch
            then (VERIFIED, 0.99%Q) else s1 in
  if fabricationSignal then (HALLUCINATION, 0.95%Q) else s2.

Definition source_label (registryMatch groundingMatch : bool) : string :=
  ((if registryMatch then "Crossref " else "")
     ++ (if groundingMatch then "+ Web Search" else ""))%string.

Record Body : Type := mkBody { text : option string }.

Record Request : Type := mkRequest {
  method : string;
  body : option Body
}.

Inductive ResponseBody : Type :=
| ErrorBody (error : string)
| ResultBody (r : VerificationResult).

Record Response : Type := mkResponse {
  statusCode : nat;
  json : ResponseBody
}.

Section Run.

Variable W : Type.
Variable svc : Services W.

(** [Math.random().toString(36).slice(2)] *)
Definition random_id : M W string :=
  lift (fun w => let (s, w') := mathRandom svc w in (JS.slice 2 s, w')).

(** The body of the verification loop, lines 75-152. *)
Definition verifyItem (item : RawItem) : M W Citation :=
  let doi := Doi.extractDoi (item_doi item) (item_rawText item) in
  crossrefData <-
    (if JS.truthy doi
     then lift (fetchCrossrefMetadata svc (JS.show doi))
     else ret None) ;;
  verifyResponse <- await (verifyCitation svc (item_rawText item)) ;;
  let responseText := JS.toLowerCase (response_text verifyResponse) in
  let chunks := groundingChunks verifyResponse in
  let fused := fuse (is_some crossrefData) (nonempty chunks)
                    (fabrication_markers responseText) in
  new_id <-
    (if JS.truthy (item_id item)
     then ret (JS.show (item_id item))
     else random_id) ;;
  ret {| id := Some new_id;
         rawText := item_rawText item;
         parsedMetadata :=
           {| title := JS.or_else (crossref_field cr_title crossrefData)
                                  (item_title item);
              authors := JS.coalesce (crossref_authors crossrefData)
                                     (item_authors item);
              year := JS.or_else (crossref_field cr_created crossrefData)
                                 (item_year item);
              doi := doi |};
         status := fst fused;
         confidenceScore := snd fused;
         explanation := response_text verifyResponse;
         sourceUrl := JS.or_else (first_uri chunks) (doi_url doi);
         verificationSource :=
           source_label (is_some crossrefData) (nonempty chunks) |}.

(** [for (const item of extracted) { ...; citations.push(...) }] *)
Definition verifyLoop (extracted : list RawItem) (acc : list Citation)
  : M W (list Citation) :=
  for_of_push verifyItem extracted acc.

Definition parseAndVerifyCitations (input : string)
  : M W VerificationResult :=
  extracted <- await_json (extractCitations svc input) ;;
  cs <- verifyLoop extracted [] ;;
  let verifiedOnes := filter is_verified cs in
  bib <-
    (if Nat.ltb 0 (length verifiedOnes)
     then b <- await_json (generateBibliography svc verifiedOnes) ;;
          ret (Some b)
     else ret None) ;;
  ret {| citations := cs;
         summary :=
           {| total := length cs;
              verified := length verifiedOnes;
              hallucinated := count is_hallucinated cs;
              unverified := count is_unverified_or_partial cs |};
         multiStyleBib := bib |}.

Definition failure : Response :=
  {| statusCode := 500; json := ErrorBody "Verification failed" |}.

(** The exported handler.  Reading [text] off a missing body throws
    inside the [try]; a missing [text] is interpolated as it is. *)
Definition handler (req : Request) (w : W) : Response * W :=
  if negb (String.eqb (method req) "POST")
  then ({| statusCode := 405; json := ErrorBody "Only POST allowed" |}, w)
  else
    match body req with
    | None => (failure, w)
    | Some b =>
        match parseAndVerifyCitations (JS.show (text b)) w with
        | (Ok r, w') => ({| statusCode := 200; json := ResultBody r |}, w')
        | (Throw _, w') => (failure, w')
        end
    end.

End Run.

End ApiVerify.

(* ================================================================== *)
(** * [src/services/geminiService.ts] *)
(* ================================================================== *)

Module GeminiService.

(** Lines 102-121.  The outer test also reads whether the text says
    "verified"; the inner tests do not. *)
Definition fuse
           (registryMatch mentionsVerified groundingMatch
                          fabricationSignal : bool)
  : CitationStatus * Q :=
  let s0 := (UNVERIFIED, 0.5%Q) in
  let s1 :=
    if registryMatch || mentionsVerified || groundingMatch
    then
      let hasDoiMatch := registryMatch in
      let hasSearchMatch := groundingMatch in
      if hasDoiMatch && hasSearchMatch then (VERIFIED, 0.99%Q)
      else if hasDoiMatch || hasSearchMatch then (PARTIAL_MATCH, 0.75%Q)
           else s0
    else s0 in
  if fabricationSignal then (HALLUCINATION, 0.95%Q) else s1.

Definition source_label (registryMatch groundingMatch : bool) : string :=
  ((if registryMatch then "Crossref " else "")
     ++ (if groundingMatch then "+ Web Scholarly Index" else ""))%string.

Definition newline : string := String "010" EmptyString.

Definition skeptic_tag : string :=
  (newline ++ newline ++ "[Skeptic Review]: ")%string.

(** [r.id === c.id] *)
Definition reviews_citation (c : Citation) (r : Review) : bool :=
  match id c with
  | Some i => String.eqb (review_id r) i
  | None => false
  end.

(** The function mapped over the citations, lines 164-174. *)
Definition applyReview (reviews : list Review) (c : Citation) : Citation :=
  match find (reviews_citation c) reviews with
  | Some review =>
      if negb (String.eqb (newStatus review) (status c))
      then {| id := id c;
              rawText := rawText c;
              parsedMetadata := parsedMetadata c;
              status := newStatus review;
              confidenceScore := confidenceScore c;
              verificationSource := verificationSource c;
              sourceUrl := sourceUrl c;
              explanation :=
                (explanation c ++ skeptic_tag ++ reasoning review)%string |}
      else c
  | None => c
  end.

Section Run.

Variable W : Type.

(** [Math.random().toString(36).substr(2, 9)] *)
Definition random_id (svc : Services W) : M W string :=
  lift (fun w => let (s, w') := mathRandom svc w in (JS.substr 2 9 s, w')).

(** The body of the verification loop, lines 70-137. *)
Definition verifyItem (svc : Services W) (item : RawItem) : M W Citation :=
  let doi := Doi.extractDoi (item_doi item) (item_rawText item) in
  crossrefData <-
    (if JS.truthy doi
     then lift (fetchCrossrefMetadata svc (JS.show doi))
     else ret None) ;;
  verifyResponse <- await (verifyCitation svc (item_rawText item)) ;;
  let chunks := groundingChunks verifyResponse in
  let sourceUrl := JS.or_else (first_uri chunks) (doi_url doi) in
  let responseText := JS.toLowerCase (response_text verifyResponse) in
  let fused := fuse (is_some crossrefData)
                    (JS.includes responseText "verified")
                    (Nat.leb 1 (length chunks))
                    (fabrication_markers responseText) in
  new_id <-
    (if JS.truthy (item_id item)
     then ret (JS.show (item_id item))
     else random_id svc) ;;
  ret {| id := Some new_id;
         rawText := item_rawText item;
         parsedMetadata :=
           {| title := JS.or_else (crossref_field cr_title crossrefData)
                                  (item_title item);
              authors := JS.coalesce (crossref_authors crossrefData)
                                     (item_authors item);
              year := JS.or_else (crossref_field cr_created crossrefData)
                                 (item_year item);
              doi := doi |};
         status := fst fused;
         confidenceScore := snd fused;
         sourceUrl := sourceUrl;
         explanation := response_text verifyResponse;
         verificationSource :=
           source_label (is_some crossrefData) (Nat.ltb 0 (length chunks)) |}.

Definition verifyLoop (svc : Services W) (extracted : list RawItem)
           (acc : list Citation) : M W (list Citation) :=
  for_of_push (verifyItem svc) extracted acc.

(** [try { ... } catch (error) { console.error(...); throw error; }] *)
Definition log_and_rethrow {A : Type} (m : M W A) : M W A :=
  fun w =>
    match m w with
    | (Ok a, w') => (Ok a, w')
    | (Throw error, w') => (Throw error, w')
    end.

(** The statements of the [try] block after the fusion loop. *)
Definition reviewAndAssemble (svc : Services W) (fused : list Citation)
  : M W VerificationResult :=
  reviews <- await_json (reviewCitations svc fused) ;;
  let cs := map (applyReview reviews) fused in
  let verifiedCitations := filter is_verified cs in
  bib <-
    (if Nat.ltb 0 (length verifiedCitations)
     then b <- await_json (generateBibliography svc verifiedCitations) ;;
          ret (Some b)
     else ret None) ;;
  ret {| citations := cs;
         summary :=
           {| total := length cs;
              verified := count is_verified cs;
              hallucinated := count is_hallucinated cs;
              unverified := count is_unverified_or_partial cs |};
         multiStyleBib := bib |}.

(** [ai] is the module-level client: [None] is the [null] it keeps when
    no key is configured. *)
Definition parseAndVerifyCitations (ai : option (Services W))
           (input : string) : M W VerificationResult :=
  match ai with
  | None => throw NotInitialized
  | Some svc =>
      log_and_rethrow
        (extractedCitations <- await_json (extractCitations svc input) ;;
         fused <- verifyLoop svc extractedCitations [] ;;
         reviewAndAssemble svc fused)
  end.

End Run.

End GeminiService.

(* ================================================================== *)
(** * [unnamed/part_001]: the service without grounding and review *)
(* ================================================================== *)

Module Part001.

(** Lines 108-117, from whether [crossref] is set and whether the
    lower-cased text includes "hallucination" and "verified". *)
Definition fuse (registryMatch mentionsVerified saysHallucination : bool)
  : CitationStatus * Q :=
  if saysHallucination then (HALLUCINATION, 0.95%Q)
  else if registryMatch || mentionsVerified then (VERIFIED, 0.98%Q)
       else (UNVERIFIED, 0.5%Q).

Section Run.

Variable W : Type.
Variable svc : Services W.

(** The body of the verification loop, lines 85-138. *)
Definition verifyItem (item : RawItem) : M W Citation :=
  let doi := Doi.extractDoi_part001 (item_doi item) (item_rawText item) in
  crossref <-
    (if JS.truthy doi
     then lift (fetchCrossrefMetadata svc (JS.show doi))
     else ret None) ;;
  verify <- await (verifyCitation svc (item_rawText item)) ;;
  let r := JS.toLowerCase (response_text verify) in
  let fused := fuse (is_some crossref) (JS.includes r "verified")
                    (JS.includes r "hallucination") in
  ret {| id := item_id item;
         rawText := item_rawText item;
         parsedMetadata :=
           {| title := JS.coalesce (crossref_field cr_title crossref)
                                   (item_title item);
              authors := JS.coalesce (crossref_authors crossref)
                                     (item_authors item);
              year := JS.coalesce (crossref_field cr_issued crossref)
                                  (item_year item);
              doi := doi |};
         status := fst fused;
         confidenceScore := snd fused;
         sourceUrl := doi_url doi;
         explanation := response_text verify;
         verificationSource :=
           if is_some crossref then "Crossref" else "Gemini" |}.

Definition verifyLoop (extracted : list RawItem) (acc : list Citation)
  : M W (list Citation) :=
  for_of_push verifyItem extracted acc.

Definition parseAndVerifyCitations (input : string)
  : M W VerificationResult :=
  extracted <- await_json (extractCitations svc input) ;;
  cs <- verifyLoop extracted [] ;;
  let verifiedOnes := filter is_verified cs in
  bib <-
    (if Nat.ltb 0 (length verifiedOnes)
     then b <- await_json (generateBibliography svc verifiedOnes) ;;
          ret (Some b)
     else ret None) ;;
  ret {| citations := cs;
         summary :=
           {| total := length cs;
              verified := length verifiedOnes;
              hallucinated := count is_hallucinated cs;
              unverified := count is_unverified cs |};
         multiStyleBib := bib |}.

End Run.

End Part001.

(* ================================================================== *)
(** * The specification's side of the comparison *)
(* ================================================================== *)

Module Spec.

(** The eight-case fusion table, in the precedence order of the
    specification: the fabrication signal first, then the two matches. *)
Definition fuse (registryMatch groundingMatch fabricationSignal : bool)
  : CitationStatus * Q :=
  if fabricationSignal then (HALLUCINATION, 0.95%Q)
  else
    match registryMatch, groundingMatch with
    | true, true => (VERIFIED, 0.99%Q)
    | false, false => (UNVERIFIED, 0.5%Q)
    | _, _ => (PARTIAL_MATCH, 0.75%Q)
    end.

(** The table, case by case, as a property of a fusion function. *)
Definition follows_table (f : bool -> bool -> bool -> CitationStatus * Q)
  : Prop :=
  f false false false = (UNVERIFIED, 0.5%Q)
  /\ f true false false = (PARTIAL_MATCH, 0.75%Q)
  /\ f false true false = (PARTIAL_MATCH, 0.75%Q)
  /\ f true true false = (VERIFIED, 0.99%Q)
  /\ (forall r g, f r g true = (HALLUCINATION, 0.95%Q)).

(** The summary as the projection of the final statuses. *)
Definition summary_of (cs : list Citation) : Summary :=
  {| total := length cs;
     verified := count is_verified cs;
     hallucinated := count is_hallucinated cs;
     unverified := count is_unverified_or_partial cs |}.

(** The statuses a returned citation may carry. *)
Definition final_status (s : string) : bool :=
  status_is s VERIFIED || status_is s PARTIAL_MATCH
  || status_is s UNVERIFIED || status_is s HALLUCINATION.

Definition style_keys : list string := ["apa"; "mla"; "chicago"; "ieee"].

Definition mem (k : string) (l : list string) : bool :=
  existsb (String.eqb k) l.

(** Exactly the four keys, each with a non-empty string. *)
Definition four_styles (b : Bibliography) : bool :=
  forallb (fun k => mem k (map fst b)) style_keys
  && forallb (fun kv => mem (fst kv) style_keys
                        && negb (String.eqb (snd kv) "")) b.

(** Pairwise distinct identifiers. *)
Definition unique_ids (cs : list Citation) : Prop := NoDup (map id cs).

(** No proposal of the review output names the citation. *)
Definition unreviewed (reviews : list Review) (c : Citation) : Prop :=
  forall rv, In rv reviews -> Some (review_id rv) <> id c.

Definition untouched (c c' : Citation) : Prop :=
  status c' = status c /\ explanation c' = explanation c.

(** A proposal for the citation was applied: it differs from the status
    the citation had, and its reasoning follows the explanation the
    citation had. *)
Definition applied (reviews : list Review) (c c' : Citation) : Prop :=
  exists rv,
    In rv reviews
    /\ Some (review_id rv) = id c
    /\ newStatus rv <> status c
    /\ status c' = newStatus rv
    /\ explanation c'
       = (explanation c ++ GeminiService.skeptic_tag ++ reasoning rv)%string.

(** The review policy, for a citation [c] of the fused batch and the
    citation [c'] returned in its place. *)
Definition review_policy (reviews : list Review) (c c' : Citation) : Prop :=
  (untouched c c' \/ applied reviews c c')
  /\ (unreviewed reviews c -> untouched c c')
  /\ prefix (explanation c) (explanation c') = true.

(** The proposal of the reply that counts for the citation: the first
    that names it. *)
Definition first_proposal (reviews : list Review) (c : Citation)
           (rv : Review) : Prop :=
  exists pre post,
    reviews = pre ++ rv :: post
    /\ Some (review_id rv) = id c
    /\ unreviewed pre c.

(** The proposal was written into the citation: its status replaces the
    one the citation had, and its reasoning follows the explanation the
    citation had. *)
Definition rewritten (rv : Review) (c c' : Citation) : Prop :=
  status c' = newStatus rv
  /\ explanation c'
     = (explanation c ++ GeminiService.skeptic_tag ++ reasoning rv)%string.

(** What the review makes of a citation that a proposal names: the first
    such proposal is written into it when its status differs from the one
    the citation has, and nothing is changed when it does not differ. *)
Definition review_outcome (reviews : list Review) (c c' : Citation) : Prop :=
  forall rv,
    first_proposal reviews c rv ->
    (newStatus rv <> status c -> rewritten rv c c')
    /\ (newStatus rv = status c -> untouched c c').

(** What the review leaves alone. *)
Definition review_frame (c c' : Citation) : Prop :=
  id c' = id c
  /\ rawText c' = rawText c
  /\ parsedMetadata c' = parsedMetadata c
  /\ confidenceScore c' = confidenceScore c
  /\ sourceUrl c' = sourceUrl c
  /\ verificationSource c' = verificationSource c.

End Spec.

(** The DOI grammar as a set of strings, and what it is for a string of
    the grammar to stand in a text between two word boundaries. *)
Module DoiGrammar.

Definition all (f : ascii -> bool) (l : list ascii) : Prop :=
  forallb f l = true.

(** A dot-separated sub-segment: one digit or more. *)
Definition segment (s : list ascii) : Prop :=
  s <> [] /\ all JS.is_digit s.

Definition dotted (segs : list (list ascii)) : list ascii :=
  concat (map (cons "."%char) segs).

(** [10.], four digits or more, sub-segments, a slash, a non-empty tail
    of characters taken from [tail]. *)
Definition shape (tail : ascii -> bool) (m : list ascii) : Prop :=
  exists ds segs tl,
    m = ("1" :: "0" :: "." :: ds)%char ++ dotted segs ++ ("/"%char :: tl)
    /\ 4 <= length ds
    /\ all JS.is_digit ds
    /\ Forall segment segs
    /\ tl <> []
    /\ all tail tl.

(** The part of a string of the grammar that ends with the slash. *)
Definition head_shape (h : list ascii) : Prop :=
  exists ds segs,
    h = ("1" :: "0" :: "." :: ds)%char ++ dotted segs ++ ["/"%char]
    /\ 4 <= length ds
    /\ all JS.is_digit ds
    /\ Forall segment segs.

(** The tail characters the pattern of the code accepts. *)
Definition code_tail (c : ascii) : bool :=
  negb (JS.one_of Doi.excluded c) && JS.is_nonspace c.

(** The tail characters the specification names: neither a quote nor an
    angle bracket. *)
Definition spec_tail (c : ascii) : bool :=
  negb (JS.one_of ["034"; "'"; "<"; ">"]%char c).

(** [m] stands in [text] after [pre] and before [post], with a word
    boundary on each side. *)
Definition occurs (text pre m post : list ascii) : Prop :=
  text = pre ++ m ++ post
  /\ RegExp.at_boundary (RegExp.prev_after None pre, m ++ post) = true
  /\ RegExp.at_boundary (RegExp.prev_after None (pre ++ m), post) = true.

(** Nothing of [pre] can start or carry a match: it has no slash, and it
    is empty or ends with white space. *)
Definition clean_before (pre : list ascii) : Prop :=
  ~ In "/"%char pre
  /\ match RegExp.prev_after None pre with
     | Some c => JS.is_space c = true
     | None => True
     end.

(** [post] is empty or starts with white space. *)
Definition clean_after (post : list ascii) : Prop :=
  match post with
  | c :: _ => JS.is_space c = true
  | [] => True
  end.

End DoiGrammar.

(* ================================================================== *)
(** * Vocabulary of the statements about runs *)
(* ================================================================== *)

(** The bibliography of a result against its citations: none without a
    VERIFIED citation, else the parsed reply of the call made with the
    VERIFIED ones, which takes the world from [w] to [w']. *)
Definition bibliography_of (W : Type) (svc : Services W)
           (cs : list Citation) (w : W)
           (ob : option Bibliography) (w' : W) : Prop :=
  (length (filter is_verified cs) = 0 /\ ob = None /\ w' = w)
  \/ (0 < length (filter is_verified cs)
      /\ exists b,
          generateBibliography svc (filter is_verified cs) w = (Parsed b, w')
          /\ ob = Some b).

(** The identifier of a citation against the fragment it was built from:
    a string in any case, and the extractor's own when that is non-empty. *)
Definition identified (item : RawItem) (c : Citation) : Prop :=
  is_some (id c) = true
  /\ (JS.truthy (item_id item) = true -> id c = item_id item).

(* ================================================================== *)
(** * Sample collaborators *)
(* ================================================================== *)

(** Scripted collaborators over a world that counts the calls made. *)
Module Sample.

Definition tick {A : Type} (a : A) (w : nat) : A * nat := (a, S w).

Definition smith : RawItem :=
  {| item_id := Some "c1";
     item_rawText := "Smith (2020) found X [doi: 10.1000/xyz123]";
     item_title := Some "X";
     item_authors := Some ["Smith"];
     item_year := Some "2020";
     item_doi := None |}.

(** A fragment for which the extractor supplied no identifier. *)
Definition anonymous : RawItem :=
  {| item_id := None;
     item_rawText := "Jones, unpublished";
     item_title := None;
     item_authors := None;
     item_year := None;
     item_doi := None |}.

Definition record : CrossrefMessage :=
  {| cr_title := Some "X, revisited";
     cr_author := Some [ {| given := Some "Ann"; family := Some "Smith" |} ];
     cr_created := Some "2020";
     cr_issued := Some "2020" |}.

(** The registry knows the identifier of [smith] and no other. *)
Definition registry (d : string) : option CrossrefMessage :=
  if String.eqb d "10.1000/xyz123" then Some record else None.

Definition grounded : VerifyResponse :=
  {| response_text := "The source exists.";
     groundingChunks := [ {| web_uri := Some "https://example.org/x" |} ] |}.

Definition four : Bibliography :=
  [("apa", "Smith, A. (2020). X."); ("mla", "Smith, Ann. X. 2020.");
   ("chicago", "Smith, Ann. 2020. X."); ("ieee", "[1] A. Smith, X, 2020.")].

Definition blank : Bibliography :=
  [("apa", ""); ("mla", ""); ("chicago", ""); ("ieee", "")].

Definition services (extraction : reply (list RawItem))
           (review : reply (list Review))
           (bibliography : reply Bibliography) : Services nat :=
  {| extractCitations := fun _ => tick extraction;
     fetchCrossrefMetadata := fun d => tick (registry d);
     verifyCitation := fun _ => tick (Some grounded);
     reviewCitations := fun _ => tick review;
     generateBibliography := fun _ => tick bibliography;
     mathRandom := tick "0.4fzyo82mvyr" |}.

Definition agree : Review :=
  {| review_id := "c1"; newStatus := "VERIFIED"; reasoning := "Confirmed." |}.

(** The downgrade the review prompt asks for, in its own words. *)
Definition downgrade : Review :=
  {| review_id := "c1";
     newStatus := "UNVERIFIABLE";
     reasoning := "Confidence is not absolute." |}.

Definition plain : Services nat :=
  services (Parsed [smith]) (Parsed [agree]) (Parsed four).


Definition post : ApiVerify.Request :=
  {| ApiVerify.method := "POST";
     ApiVerify.body := Some {| ApiVerify.text := Some "Smith (2020)" |} |}.

End Sample.

(* ================================================================== *)
(** * More JavaScript built-ins *)
(* ================================================================== *)

Module JSText.

(** [String.prototype.trimStart] on the code units of a string. *)
Fixpoint trimStart (l : list ascii) : list ascii :=
  match l with
  | c :: l' => if JS.is_space c then trimStart l' else l
  | [] => []
  end.

Definition trimEnd (l : list ascii) : list ascii := rev (trimStart (rev l)).

(** [s.trim()]: the white space of [\s] is what [trim] removes. *)
Definition trim (s : string) : string :=
  string_of_list_ascii (trimEnd (trimStart (list_ascii_of_string s))).

(** The characters [encodeURIComponent] leaves alone. *)
Definition unreserved (c : ascii) : bool :=
  JS.between 97 122 c || JS.between 65 90 c || JS.is_digit c
  || JS.one_of ["-"; "_"; "."; "!"; "~"; "*"; "'"; "("; ")"]%char c.

Definition hex_digit (n : N) : ascii :=
  nth (N.to_nat n) (list_ascii_of_string "0123456789ABCDEF") "0"%char.

(** One escaped octet, [%XX]. *)
Definition percent (octet : N) : list ascii :=
  ["%"%char; hex_digit (octet / 16); hex_digit (octet mod 16)].

(** A code unit below 128 is one octet of UTF-8, one from 128 to 255 is
    two. *)
Definition encode_char (c : ascii) : list ascii :=
  if unreserved c then [c]
  else if (JS.code c <? 128)%N then percent (JS.code c)
       else percent (192 + JS.code c / 64) ++ percent (128 + JS.code c mod 64).

(** [encodeURIComponent(s)] on a string of code units below 256.  The
    built-in throws a URIError on a lone surrogate; no such string has
    one, so the encoding is total here. *)
Definition encodeURIComponent (s : string) : string :=
  string_of_list_ascii (flat_map encode_char (list_ascii_of_string s)).

(** The characters of an encoded component: those left alone, and the
    percent sign. *)
Definition url_safe (c : ascii) : bool := unreserved c || Ascii.eqb c "%".

(** The value of a hexadecimal digit. *)
Definition hex_value (c : ascii) : option N :=
  if JS.is_digit c then Some (JS.code c - 48)%N
  else if JS.between 65 70 c then Some (JS.code c - 55)%N
       else None.

(** The inverse of [encode_char], read off the front of a list: the
    decoder the injectivity of the encoding is proved with. *)
Definition decode_front (l : list ascii) : option (ascii * list ascii) :=
  match l with
  | "%"%char :: a :: b :: rest =>
      match hex_value a, hex_value b with
      | Some h, Some k =>
          let octet := (16 * h + k)%N in
          if (octet <? 128)%N then Some (ascii_of_N octet, rest)
          else
            match rest with
            | "%"%char :: a' :: b' :: rest' =>
                match hex_value a', hex_value b' with
                | Some h', Some k' =>
                    Some (ascii_of_N (64 * (octet - 192) + (16 * h' + k' - 128)),
                          rest')
                | _, _ => None
                end
            | _ => None
            end
      | _, _ => None
      end
  | c :: rest => Some (c, rest)
  | [] => None
  end.

(** [n.toString()] for a count. *)
Definition decimal (n : nat) : string := NilZero.string_of_uint (Nat.to_uint n).

(** [s.toUpperCase()] on a string of unaccented letters. *)
Definition upper_char (c : ascii) : ascii :=
  if JS.between 97 122 c then ascii_of_N (JS.code c - 32) else c.

Fixpoint toUpperCase (s : string) : string :=
  match s with
  | EmptyString => EmptyString
  | String c s' => String (upper_char c) (toUpperCase s')
  end.

End JSText.

(* ================================================================== *)
(** * The Crossref client: [fetchCrossrefMetadata] *)
(* ================================================================== *)

Module Crossref.

Import RegExp.

(** The characters of [s], one after the other. *)
Definition lit (s : string) : regex :=
  fold_right (fun c r => Seq (Chr c) r) Empty (list_ascii_of_string s).

(** [a?] *)
Definition opt (a : regex) : regex := Repeat 0 (Some 1) a.

(** [(https?:\/\/)?(dx\.)?doi\.org\/], the pattern of [api/verify.ts] and
    [src/services/geminiService.ts] after its anchor. *)
Definition resolverPrefix : regex :=
  Seq (opt (Seq (lit "http") (Seq (opt (Chr "s")) (lit "://"))))
      (Seq (opt (lit "dx.")) (lit "doi.org/")).

(** [https?:\/\/(dx\.)?doi\.org\/], the pattern of [part_001] after its
    anchor. *)
Definition resolverPrefix_part001 : regex :=
  Seq (lit "http")
      (Seq (opt (Chr "s"))
           (Seq (lit "://") (Seq (opt (lit "dx.")) (lit "doi.org/")))).

(** [s.replace(/^r/, "")]: the anchor fails at every index but 0, so the
    pattern is tried there alone, and what its first choice matched is
    dropped. *)
Definition replace_prefix (r : regex) (s : string) : string :=
  match ends r (None, list_ascii_of_string s) with
  | y :: _ => string_of_list_ascii (snd y)
  | [] => s
  end.

(** [cleanDoi] of [api/verify.ts] and [src/services/geminiService.ts]. *)
Definition cleanDoi (doi : string) : string :=
  JSText.trim (replace_prefix resolverPrefix doi).

(** [clean] of [part_001]. *)
Definition cleanDoi_part001 (doi : string) : string :=
  replace_prefix resolverPrefix_part001 doi.

Definition works_url (clean : string) : string :=
  ("https://api.crossref.org/works/" ++ JSText.encodeURIComponent clean)%string.

(** What [await response.json()] followed by [.message] gives: the body
    cannot be read as an object, or the value of its [message]. *)
Inductive Payload : Type :=
| Unreadable
| Message (m : option CrossrefMessage).

Record HttpResponse : Type := mkHttp {
  ok : bool;
  payload : Payload
}.

Section Fetch.

Variable W : Type.

(** [fetch(url)]: [None] when the promise rejects. *)
Variable fetch : string -> W -> option HttpResponse * W.

(** The body of the [try]. *)
Definition lookup (clean : string) : M W (option CrossrefMessage) :=
  response <- await (fetch (works_url clean)) ;;
  if negb (ok response) then ret None
  else
    match payload response with
    | Unreadable => throw TypeError
    | Message m => ret m
    end.

(** [try { ... } catch (e) { ...; return null; }] *)
Definition catch_null {A : Type} (m : M W (option A)) (w : W)
  : option A * W :=
  match m w with
  | (Ok a, w') => (a, w')
  | (Throw _, w') => (None, w')
  end.

Definition fetchCrossrefMetadata (doi : string) : W -> option CrossrefMessage * W :=
  catch_null (lookup (cleanDoi doi)).

End Fetch.

End Crossref.

(* ================================================================== *)
(** * The client of the verification endpoint: [unnamed/part_000] *)
(* ================================================================== *)

Module Client.

Inductive failure : Type :=
| FetchRejected                 (* the [fetch] promise rejected *)
| VerificationFailed.           (* [new Error("Verification failed")] *)

(** [res.ok] *)
Definition ok (res : ApiVerify.Response) : bool :=
  Nat.leb 200 (ApiVerify.statusCode res)
  && Nat.leb (ApiVerify.statusCode res) 299.

(** The request both versions send. *)
Definition request (input : string) : ApiVerify.Request :=
  {| ApiVerify.method := "POST";
     ApiVerify.body := Some {| ApiVerify.text := Some input |} |}.

Section Run.

Variable W : Type.

(** [fetch("/api/verify", ...)]: [None] when the promise rejects. *)
Variable send : ApiVerify.Request -> W -> option ApiVerify.Response * W.

(** The first version: [return res.json()] whatever the status. *)
Definition verifyText_unchecked (input : string) (w : W)
  : (failure + ApiVerify.ResponseBody) * W :=
  match send (request input) w with
  | (Some res, w') => (inr (ApiVerify.json res), w')
  | (None, w') => (inl FetchRejected, w')
  end.

(** The second version: [if (!res.ok) throw new Error("Verification
    failed")]. *)
Definition verifyText (input : string) (w : W)
  : (failure + ApiVerify.ResponseBody) * W :=
  match send (request input) w with
  | (Some res, w') =>
      if negb (ok res) then (inl VerificationFailed, w')
      else (inr (ApiVerify.json res), w')
  | (None, w') => (inl FetchRejected, w')
  end.

End Run.

(** The transport that hands the request to the handler of
    [api/verify.ts] and brings its response back. *)
Definition in_process (W : Type) (svc : Services W)
           (req : ApiVerify.Request) (w : W)
  : option ApiVerify.Response * W :=
  let (res, w') := ApiVerify.handler svc req w in (Some res, w').

End Client.
(* ================================================================== *)
(** * The application state: [App] of [App.tsx] *)
(* ================================================================== *)

Module App.

Inductive View : Type :=
| input
| results_view
| spec
| pricing
| auth
| payment.

Inductive UserTier : Type :=
| FREE
| PRO.

Record AppState : Type := mkState {
  view : View;
  inputText : string;
  results : option VerificationResult;
  error : option string;
  userTier : UserTier;
  analysesRemaining : Z;
  isLoggedIn : bool
}.

(** The two pieces of state the component keeps that the handlers below
    touch: [state] and [isProcessing]. *)
Record Ui : Type := mkUi {
  state : AppState;
  isProcessing : bool
}.

Definition initial : Ui :=
  {| state := {| view := input;
                 inputText := "";
                 results := None;
                 error := None;
                 userTier := FREE;
                 analysesRemaining := 10;
                 isLoggedIn := false |};
     isProcessing := false |}.

Definition is_free (t : UserTier) : bool :=
  match t with
  | FREE => true
  | PRO => false
  end.

Definition set_view (v : View) (p : AppState) : AppState :=
  {| view := v;
     inputText := inputText p;
     results := results p;
     error := error p;
     userTier := userTier p;
     analysesRemaining := analysesRemaining p;
     isLoggedIn := isLoggedIn p |}.

Definition limit_reached : string :=
  "Analysis limit reached. Upgrade to Pro for unlimited verification.".

Definition verification_failed : string :=
  "Verification failed. System load is high or academic databases are unreachable.".

(** [handleProcess] up to its [await]: the new state, and the text the
    pipeline is called with when it is called. *)
Definition handleProcess_start (u : Ui) : Ui * option string :=
  let s := state u in
  if String.eqb (JSText.trim (inputText s)) "" then (u, None)
  else if is_free (userTier s) && (analysesRemaining s <=? 0)%Z
       then ({| state := {| view := pricing;
                            inputText := inputText s;
                            results := results s;
                            error := Some limit_reached;
                            userTier := userTier s;
                            analysesRemaining := analysesRemaining s;
                            isLoggedIn := isLoggedIn s |};
                isProcessing := isProcessing u |}, None)
       else ({| state := {| view := view s;
                            inputText := inputText s;
                            results := results s;
                            error := None;
                            userTier := userTier s;
                            analysesRemaining := analysesRemaining s;
                            isLoggedIn := isLoggedIn s |};
                isProcessing := true |}, Some (inputText s)).

(** [handleProcess] from its [await] on: the update of the [try] or of the
    [catch], applied to the state of that moment, then the [finally]. *)
Definition handleProcess_settle (outcome : result VerificationResult)
           (u : Ui) : Ui :=
  let prev := state u in
  {| state :=
       match outcome with
       | Ok r =>
           {| view := results_view;
              inputText := inputText prev;
              results := Some r;
              error := error prev;
              userTier := userTier prev;
              analysesRemaining :=
                if is_free (userTier prev)
                then (analysesRemaining prev - 1)%Z
                else analysesRemaining prev;
              isLoggedIn := isLoggedIn prev |}
       | Throw _ =>
           {| view := view prev;
              inputText := inputText prev;
              results := results prev;
              error := Some verification_failed;
              userTier := userTier prev;
              analysesRemaining := analysesRemaining prev;
              isLoggedIn := isLoggedIn prev |}
       end;
     isProcessing := false |}.

Definition handleUpgradeClick (s : AppState) : AppState :=
  if negb (isLoggedIn s) then set_view auth s else set_view pricing s.

Definition handleLogin (p : AppState) : AppState :=
  {| view := pricing;
     inputText := inputText p;
     results := results p;
     error := error p;
     userTier := userTier p;
     analysesRemaining := analysesRemaining p;
     isLoggedIn := true |}.

Definition handlePaymentConfirm (p : AppState) : AppState :=
  {| view := input;
     inputText := inputText p;
     results := results p;
     error := error p;
     userTier := PRO;
     analysesRemaining := analysesRemaining p;
     isLoggedIn := isLoggedIn p |}.

(** The [onChange] of the text area. *)
Definition setInputText (t : string) (p : AppState) : AppState :=
  {| view := view p;
     inputText := t;
     results := results p;
     error := error p;
     userTier := userTier p;
     analysesRemaining := analysesRemaining p;
     isLoggedIn := isLoggedIn p |}.

(** What the user and the pipeline can do to the component. *)
Inductive Event : Type :=
| ClickRun
| RunSettled (outcome : result VerificationResult)
| ClickUpgrade
| ClickSignIn
| ClickConfirmPayment
| Navigate (v : View)
| TypeText (t : string).

Definition on_state (f : AppState -> AppState) (u : Ui) : Ui :=
  {| state := f (state u); isProcessing := isProcessing u |}.

(** One event.  The run button is disabled while a run is in progress or
    the text is blank, and a run settles only while it is in progress;
    every other handler is let fire in every view, which is more than the
    rendering allows. *)
Definition step (u : Ui) (e : Event) : option Ui :=
  match e with
  | ClickRun =>
      if isProcessing u
         || String.eqb (JSText.trim (inputText (state u))) ""
      then None
      else Some (fst (handleProcess_start u))
  | RunSettled outcome =>
      if isProcessing u then Some (handleProcess_settle outcome u) else None
  | ClickUpgrade => Some (on_state handleUpgradeClick u)
  | ClickSignIn => Some (on_state handleLogin u)
  | ClickConfirmPayment => Some (on_state handlePaymentConfirm u)
  | Navigate v => Some (on_state (set_view v) u)
  | TypeText t => Some (on_state (setInputText t) u)
  end.

Fixpoint run (u : Ui) (events : list Event) : option Ui :=
  match events with
  | [] => Some u
  | e :: rest =>
      match step u e with
      | Some u' => run u' rest
      | None => None
      end
  end.

(** Whether the event is a successful run charged to a free account. *)
Definition charged (u : Ui) (e : Event) : bool :=
  match e with
  | RunSettled (Ok _) => isProcessing u && is_free (userTier (state u))
  | _ => false
  end.

(** The number of runs charged along the events. *)
Fixpoint charges (u : Ui) (events : list Event) : nat :=
  match events with
  | [] => 0
  | e :: rest =>
      match step u e with
      | Some u' => (if charged u e then 1 else 0) + charges u' rest
      | None => 0
      end
  end.

(** [renderStatusBadge]: the label of the badge. *)
Inductive Badge : Type :=
| Confirmed
| LikelyFabricated
| Unverifiable.

Definition renderStatusBadge (c : Citation) : Badge :=
  if status_is (status c) VERIFIED then Confirmed
  else if status_is (status c) HALLUCINATION then LikelyFabricated
       else Unverifiable.

Definition badge_eqb (a b : Badge) : bool :=
  match a, b with
  | Confirmed, Confirmed => true
  | LikelyFabricated, LikelyFabricated => true
  | Unverifiable, Unverifiable => true
  | _, _ => false
  end.

(** The number of cards that carry the badge. *)
Definition badges (b : Badge) (cs : list Citation) : nat :=
  length (filter (fun c => badge_eqb (renderStatusBadge c) b) cs).

End App.

(* ================================================================== *)
(** * The PDF report: [downloadPDFReport] of [App.tsx] *)
(* ================================================================== *)

Module Report.

(** The calls made on the document, in order. *)
Inductive Command : Type :=
| SetFontSize (size : nat)
| SetTextColor (grey : nat)
| SetFont (family style : string)
| Text (s : string) (x y : nat)
| TextLines (lines : list string) (x y : nat)
| AddPage
| Save (name : string).

Definition is_add_page (c : Command) : bool :=
  match c with
  | AddPage => true
  | _ => false
  end.

(** The number of pages of a document: the first and the added ones. *)
Definition pages (doc : list Command) : nat :=
  1 + length (filter is_add_page doc).

Definition header (generated : string) (s : Summary) : list Command :=
  [ SetFontSize 22;
    Text "VeriCite Academic Verification Report" 20 20;
    SetFontSize 10;
    SetTextColor 100;
    Text ("Generated on: " ++ generated)%string 20 30;
    SetFontSize 14;
    SetTextColor 0;
    Text "Executive Summary" 20 45;
    SetFontSize 10;
    Text ("Total Citations Audited: " ++ JSText.decimal (total s))%string 25 55;
    Text ("Verified as Confirmed: " ++ JSText.decimal (verified s))%string 25 60;
    Text ("Likely Fabricated: " ++ JSText.decimal (hallucinated s))%string 25 65;
    Text ("Unverifiable/Partial: " ++ JSText.decimal (unverified s))%string 25 70;
    SetFontSize 14;
    Text "Detailed Source Audit" 20 85 ].

Definition quote : string := String "034" EmptyString.

(** The four lines of one citation, drawn from [y] down. *)
Definition entry (i : nat) (c : Citation) (y : nat) : list Command :=
  [ SetFontSize 10;
    SetFont "helvetica" "bold";
    Text (JSText.decimal (i + 1) ++ ". "
          ++ JS.show (JS.or_else (title (parsedMetadata c))
                                 (Some "Untitled Fragment")))%string 20 y;
    SetFont "helvetica" "normal";
    SetFontSize 8;
    Text ("Status: " ++ status c)%string 20 (y + 5);
    Text ("Original Content: " ++ quote ++ substring 0 100 (rawText c)
          ++ "..." ++ quote)%string 20 (y + 5 + 5);
    Text ("Analysis: " ++ substring 0 150 (explanation c) ++ "...")%string
         20 (y + 5 + 5 + 5) ].

(** The callback of [results.citations.forEach], from the citation of
    index [i] on: a page break when [y] has passed 250, the entry, and
    [y] moved 25 down. *)
Fixpoint entries (cs : list Citation) (i y : nat) : list Command * nat :=
  match cs with
  | [] => ([], y)
  | c :: rest =>
      let (break, y0) := if Nat.ltb 250 y then ([AddPage], 20) else ([], y) in
      let (more, y') := entries rest (i + 1) (y0 + 5 + 5 + 5 + 10) in
      (break ++ entry i c y0 ++ more, y')
  end.

Definition styles : list string := ["apa"; "mla"; "chicago"; "ieee"].

(** [results.multiStyleBib![style]] *)
Fixpoint lookup (style : string) (b : Bibliography) : option string :=
  match b with
  | [] => None
  | (k, v) :: rest => if String.eqb k style then Some v else lookup style rest
  end.

Section Document.

(** [doc.splitTextToSize(text, 170)] of jsPDF. *)
Variable splitTextToSize : option string -> list string.

(** The callback of the [forEach] over the four styles. *)
Fixpoint style_blocks (b : Bibliography) (ss : list string) (y : nat)
  : list Command :=
  match ss with
  | [] => []
  | style :: rest =>
      let splitText := splitTextToSize (lookup style b) in
      [ SetFontSize 12;
        SetFont "helvetica" "bold";
        Text (JSText.toUpperCase style ++ " Style")%string 20 y;
        SetFontSize 8;
        SetFont "helvetica" "normal";
        TextLines splitText 20 (y + 7) ]
        ++ style_blocks b rest (y + 7 + (length splitText * 4 + 10))
  end.

Definition bibliography (ob : option Bibliography) : list Command :=
  match ob with
  | Some b =>
      [ AddPage;
        SetFontSize 16;
        Text "Verified References - Bibliography" 20 20 ]
        ++ style_blocks b styles (20 + 15)
  | None => []
  end.

Definition disclaimer : string :=
  "VeriCite Academic may produce errors. Users are strongly advised to independently verify critical academic information.".

(** [downloadPDFReport]: nothing without results; [generated] is
    [new Date().toLocaleString()] and [now] is [Date.now()]. *)
Definition downloadPDFReport (generated now : string)
           (res : option VerificationResult) : list Command :=
  match res with
  | None => []
  | Some r =>
      header generated (summary r)
        ++ fst (entries (citations r) 0 (85 + 10))
        ++ bibliography (multiStyleBib r)
        ++ [ SetFontSize 8;
             SetTextColor 150;
             Text disclaimer 20 285;
             Save ("VeriCite_Audit_Report_" ++ now ++ ".pdf")%string ]
  end.

End Document.

End Report.

(* ================================================================== *)
(** * Vocabulary of further statements about the pipelines *)
(* ================================================================== *)

(** What a citation that is VERIFIED carries when fusion made it so: an
    identifier, a link and the confidence 0.99. *)
Definition backed (c : Citation) : Prop :=
  status c = status_value VERIFIED ->
  JS.truthy (doi (parsedMetadata c)) = true
  /\ is_some (sourceUrl c) = true
  /\ confidenceScore c = 0.99%Q.

(** The status of a citation follows from its explanation: HALLUCINATION
    exactly when the lower-cased explanation has a fabrication marker. *)
Definition marked (c : Citation) : Prop :=
  status c = status_value HALLUCINATION
  <-> fabrication_markers (JS.toLowerCase (explanation c)) = true.

(** The three counts of a summary, added up. *)
Definition buckets (s : Summary) : nat :=
  verified s + hallucinated s + unverified s.

(** More scripted collaborators. *)
Module Script.

(** A citation as fusion leaves it, with the identifier [c1]. *)
Definition fused (s : CitationStatus) : Citation :=
  {| id := Some "c1";
     rawText := "Smith (2020) found X";
     parsedMetadata := {| title := Some "X"; authors := Some ["Smith"];
                          year := Some "2020"; doi := None |};
     status := status_value s;
     confidenceScore := 0.75%Q;
     verificationSource := "+ Web Scholarly Index";
     sourceUrl := None;
     explanation := "Found on the web." |}.

(** A proposal of the review for another citation. *)
Definition elsewhere : Review :=
  {| review_id := "c2";
     newStatus := "HALLUCINATION";
     reasoning := "No such source." |}.

(** The verification call answers the one word given. *)
Definition answering (word : string) : Services nat :=
  {| extractCitations := fun _ => Sample.tick (Parsed [Sample.anonymous]);
     fetchCrossrefMetadata := fun d => Sample.tick (Sample.registry d);
     verifyCitation :=
       fun _ => Sample.tick (Some {| response_text := word;
                                     groundingChunks := [] |});
     reviewCitations := fun _ => Sample.tick (Parsed []);
     generateBibliography := fun _ => Sample.tick (Parsed Sample.four);
     mathRandom := Sample.tick "0.4fzyo82mvyr" |}.

(** The verification call is rejected for one fragment and answers for
    the others. *)
Definition failing_on (raw : string) (items : list RawItem) : Services nat :=
  {| extractCitations := fun _ => Sample.tick (Parsed items);
     fetchCrossrefMetadata := fun d => Sample.tick (Sample.registry d);
     verifyCitation :=
       fun t => Sample.tick (if String.eqb t raw then None
                             else Some Sample.grounded);
     reviewCitations := fun _ => Sample.tick (Parsed []);
     generateBibliography := fun _ => Sample.tick (Parsed Sample.four);
     mathRandom := Sample.tick "0.4fzyo82mvyr" |}.

End Script.


(** The resolver prefixes the pattern of [cleanDoi] is written for. *)
Definition resolver_prefixes : list string :=
  ["https://dx.doi.org/"; "https://doi.org/"; "http://dx.doi.org/";
   "http://doi.org/"; "dx.doi.org/"; "doi.org/"].

(** Those of [part_001]: the scheme is not optional there. *)
Definition resolver_prefixes_part001 : list string :=
  ["https://dx.doi.org/"; "https://doi.org/"; "http://dx.doi.org/";
   "http://doi.org/"].

(** No string of [ps] starts [s]. *)
Definition starts_with_none (ps : list string) (s : string) : bool :=
  forallb (fun p => negb (prefix p s)) ps.

(** What every state of the component satisfies: the counter is not
    negative, and a free run in progress has one analysis left to pay
    with. *)
Definition quota_sound (u : App.Ui) : Prop :=
  (0 <= App.analysesRemaining (App.state u))%Z
  /\ (App.isProcessing u = true -> App.userTier (App.state u) = App.FREE ->
      (1 <= App.analysesRemaining (App.state u))%Z).

(** The command draws nothing, or draws at a height from [lo] to [hi]. *)
Definition drawn_between (lo hi : nat) (c : Report.Command) : bool :=
  match c with
  | Report.Text _ _ y => Nat.leb lo y && Nat.leb y hi
  | Report.TextLines _ _ y => Nat.leb lo y && Nat.leb y hi
  | _ => true
  end.

(** The page breaks of a document. *)
Definition breaks (doc : list Report.Command) : nat :=
  length (filter Report.is_add_page doc).
(* ================================================================== *)
(** * Reasoning about the monad and the loop *)
(* ================================================================== *)

Section MonadFacts.

Variable W : Type.

Lemma bind_ok (A B : Type) (m : M W A) (k : A -> M W B) w b w' :
  bind m k w = (Ok b, w') ->
  exists a w1, m w = (Ok a, w1) /\ k a w1 = (Ok b, w').
Proof.
  unfold bind. destruct (m w) as [[a | e] w1]; intro H.
  - exists a, w1. split; [reflexivity | exact H].
  - discriminate H.
Qed.

Lemma bind_throw (A B : Type) (m : M W A) (k : A -> M W B) w e w' :
  m w = (Throw e, w') -> bind m k w = (Throw e, w').
Proof. unfold bind. intros ->. reflexivity. Qed.

Lemma bind_step (A B : Type) (m : M W A) (k : A -> M W B) w a w1 :
  m w = (Ok a, w1) -> bind m k w = k a w1.
Proof. unfold bind. intros ->. reflexivity. Qed.

Lemma ret_ok (A : Type) (a b : A) (w w' : W) :
  ret a w = (Ok b, w') -> a = b /\ w = w'.
Proof. unfold ret. intro H. inversion H. split; reflexivity. Qed.

Lemma await_json_ok (A : Type) (f : W -> reply A * W) w a w' :
  await_json f w = (Ok a, w') -> f w = (Parsed a, w').
Proof.
  unfold await_json. destruct (f w) as [[ | | a0] w1]; intro H;
    inversion H; reflexivity.
Qed.

Lemma await_json_fails (A : Type) (f : W -> reply A * W) w :
  (forall a, fst (f w) <> Parsed a) ->
  exists e, fst (await_json f w) = Throw e.
Proof.
  unfold await_json. destruct (f w) as [[ | | a0] w1]; simpl; intro H.
  - exists Rejected. reflexivity.
  - exists SyntaxError. reflexivity.
  - exfalso. apply (H a0). reflexivity.
Qed.

(** What a loop that ran to its end pushed: one result per item, in the
    order of the items, each the result of the body on its item. *)
Lemma for_of_push_ok (A B : Type) (body : A -> M W B) items :
  forall acc w bs w',
    for_of_push body items acc w = (Ok bs, w') ->
    exists pushed,
      bs = acc ++ pushed
      /\ Forall2 (fun item b => exists w1 w2, body item w1 = (Ok b, w2))
                 items pushed.
Proof.
  induction items as [ | item rest IH]; intros acc w bs w' H; simpl in H.
  - apply ret_ok in H. destruct H as [<- _].
    exists []. split; [now rewrite app_nil_r | constructor].
  - apply bind_ok in H. destruct H as (b & w1 & Hb & Hrest).
    apply IH in Hrest. destruct Hrest as (pushed & -> & Hall).
    exists (b :: pushed). split.
    + now rewrite <- app_assoc.
    + constructor; [now exists w, w1 | exact Hall].
Qed.

(** A property the body gives to each of its results holds of all that
    the loop pushed. *)
Lemma for_of_push_all (A B : Type) (body : A -> M W B) (P : B -> Prop) :
  (forall item w b w', body item w = (Ok b, w') -> P b) ->
  forall items w bs w',
    for_of_push body items [] w = (Ok bs, w') ->
    length bs = length items /\ Forall P bs.
Proof.
  intros HP items w bs w' H.
  apply for_of_push_ok in H. destruct H as (pushed & -> & Hall).
  simpl. split.
  - symmetry. eapply Forall2_length. exact Hall.
  - clear - HP Hall. induction Hall as [ | item b items bs (w1 & w2 & Hb) _ IH].
    + constructor.
    + constructor; [eapply HP; exact Hb | exact IH].
Qed.

End MonadFacts.

(** Inverts a successful run of a [bind] found in hypothesis [H]. *)
Ltac bind_inv H a w Ha :=
  apply bind_ok in H; destruct H as (a & w & Ha & H).

(* ================================================================== *)
(** * Evidence fusion *)
(* ================================================================== *)

Lemma ApiVerify_fuse_table (r g f : bool) :
  ApiVerify.fuse r g f = Spec.fuse r g f.
Proof. destruct r, g, f; reflexivity. Qed.

Lemma GeminiService_fuse_table (r v g f : bool) :
  GeminiService.fuse r v g f = Spec.fuse r g f.
Proof. destruct r, v, g, f; reflexivity. Qed.

(** The citation the loop body of [api/verify.ts] builds carries the
    fused pair of three booleans. *)
Lemma ApiVerify_item_fused (W : Type) (svc : Services W) item w c w' :
  ApiVerify.verifyItem svc item w = (Ok c, w') ->
  exists r g f,
    status c = status_value (fst (Spec.fuse r g f))
    /\ confidenceScore c = snd (Spec.fuse r g f).
Proof.
  unfold ApiVerify.verifyItem. intro H.
  bind_inv H cr w1 Hcr. bind_inv H vr w2 Hvr. bind_inv H i w3 Hi.
  apply ret_ok in H. destruct H as [<- _]. simpl.
  rewrite ApiVerify_fuse_table. eauto.
Qed.

Lemma GeminiService_item_fused (W : Type) (svc : Services W) item w c w' :
  GeminiService.verifyItem svc item w = (Ok c, w') ->
  exists r g f,
    status c = status_value (fst (Spec.fuse r g f))
    /\ confidenceScore c = snd (Spec.fuse r g f).
Proof.
  unfold GeminiService.verifyItem. intro H.
  bind_inv H cr w1 Hcr. bind_inv H vr w2 Hvr. bind_inv H i w3 Hi.
  apply ret_ok in H. destruct H as [<- _]. simpl.
  rewrite GeminiService_fuse_table. eauto.
Qed.

(** C1, as amended.  In [api/verify.ts] and in
    [src/services/geminiService.ts] the fusion step is the eight-case table
    of the three booleans: (UNVERIFIED, 0.5) without a signal, (PARTIAL_MATCH,
    0.75) with exactly one of the two matches, (VERIFIED, 0.99) with both,
    and (HALLUCINATION, 0.95) whenever the fabrication signal is set.  The
    fourth test [geminiService.ts] makes, whether the text says "verified",
    changes nothing.  Every citation either loop pushes carries such a pair.
    The older service of [part_001] reads no grounding match and decides
    from the registry match and two words of the text. *)
Theorem C1_fusion_table :
  Spec.follows_table ApiVerify.fuse
  /\ (forall v, Spec.follows_table (fun r g s => GeminiService.fuse r v g s))
  /\ (forall (W : Type) (svc : Services W) extracted w cs w',
         ApiVerify.verifyLoop svc extracted [] w = (Ok cs, w')
         \/ GeminiService.verifyLoop svc extracted [] w = (Ok cs, w') ->
         Forall (fun c => exists r g s,
                     status c = status_value (fst (Spec.fuse r g s))
                     /\ confidenceScore c = snd (Spec.fuse r g s)) cs)
  /\ (forall r v s,
         Part001.fuse r v s
         = if s then (HALLUCINATION, 0.95%Q)
           else if r || v then (VERIFIED, 0.98%Q) else (UNVERIFIED, 0.5%Q)).
Proof.
  split; [ | split; [ | split]].
  - unfold Spec.follows_table.
    repeat apply conj; intros; try destruct r; try destruct g; reflexivity.
  - intro v. unfold Spec.follows_table.
    repeat apply conj; intros; try destruct r; try destruct g; destruct v;
      reflexivity.
  - intros W svc extracted w cs w' [H | H].
    + eapply (for_of_push_all (ApiVerify.verifyItem svc)); [ | exact H].
      intros item w0 c w0'. apply ApiVerify_item_fused.
    + eapply (for_of_push_all (GeminiService.verifyItem svc)); [ | exact H].
      intros item w0 c w0'. apply GeminiService_item_fused.
  - reflexivity.
Qed.

(** C1 at a concrete input: both services over the sample collaborators
    push one citation, fused from a registry match and a grounding match. *)
Lemma C1_fusion_table_witness :
  ApiVerify.fuse true true false = (VERIFIED, 0.99%Q)
  /\ Forall (fun c => exists r g s,
                 status c = status_value (fst (Spec.fuse r g s))
                 /\ confidenceScore c = snd (Spec.fuse r g s))
            (match fst (ApiVerify.verifyLoop Sample.plain [Sample.smith] [] 1)
             with Ok cs => cs | Throw _ => [] end).
Proof.
  destruct C1_fusion_table as (Htable & _ & Hloop & _). split.
  - apply Htable.
  - apply (Hloop nat Sample.plain [Sample.smith] 1 _ 3). left. reflexivity.
Defined.

(** C1 as stated fails on the service of [part_001]: with a registry match,
    no grounding match and no fabrication marker the table asks for
    (PARTIAL_MATCH, 0.75); that service answers (VERIFIED, 0.98). *)
Lemma C1_part001_counterexample :
  Part001.fuse true false false = (VERIFIED, 0.98%Q)
  /\ Part001.fuse true false false <> Spec.fuse true false false.
Proof. split; [reflexivity | discriminate]. Qed.

(* ================================================================== *)
(** * What a run that returned went through *)
(* ================================================================== *)

Section Runs.

Variable W : Type.
Variable svc : Services W.

(** The bibliography step: skipped without a verified citation, else the
    parsed reply of the call made with the verified ones. *)
Lemma bibliography_step (l : list Citation) w ob w' :
  (if Nat.ltb 0 (length l)
   then b <- await_json (generateBibliography svc l) ;; ret (Some b)
   else ret None) w = (Ok ob, w') ->
  (length l = 0 /\ ob = None /\ w' = w)
  \/ (0 < length l
      /\ exists b, generateBibliography svc l w = (Parsed b, w')
                   /\ ob = Some b).
Proof.
  destruct (Nat.ltb 0 (length l)) eqn:E; intro H.
  - right. apply Nat.ltb_lt in E. split; [exact E | ].
    bind_inv H b w1 Hb. apply ret_ok in H. destruct H as [<- <-].
    exists b. split; [now apply await_json_ok | reflexivity].
  - left. apply Nat.ltb_ge in E. apply ret_ok in H. destruct H as [<- <-].
    repeat split; lia.
Qed.

Lemma ApiVerify_run input w r w' :
  ApiVerify.parseAndVerifyCitations svc input w = (Ok r, w') ->
  exists extracted w1 w2,
    extractCitations svc input w = (Parsed extracted, w1)
    /\ ApiVerify.verifyLoop svc extracted [] w1 = (Ok (citations r), w2)
    /\ summary r = Spec.summary_of (citations r)
    /\ bibliography_of svc (citations r) w2 (multiStyleBib r) w'.
Proof.
  unfold ApiVerify.parseAndVerifyCitations. intro H.
  bind_inv H extracted w1 Hx. bind_inv H cs w2 Hloop. bind_inv H ob w3 Hbib.
  apply ret_ok in H. destruct H as [<- <-]. simpl.
  exists extracted, w1, w2. repeat split.
  - now apply await_json_ok.
  - exact Hloop.
  - now apply bibliography_step.
Qed.

Lemma GeminiService_run input w r w' :
  GeminiService.parseAndVerifyCitations (Some svc) input w = (Ok r, w') ->
  exists extracted w1 fused w2 reviews w3,
    extractCitations svc input w = (Parsed extracted, w1)
    /\ GeminiService.verifyLoop svc extracted [] w1 = (Ok fused, w2)
    /\ reviewCitations svc fused w2 = (Parsed reviews, w3)
    /\ citations r = map (GeminiService.applyReview reviews) fused
    /\ summary r = Spec.summary_of (citations r)
    /\ bibliography_of svc (citations r) w3 (multiStyleBib r) w'.
Proof.
  unfold GeminiService.parseAndVerifyCitations, GeminiService.log_and_rethrow.
  intro H.
  match type of H with
  | (match ?m w with _ => _ end) = _ => destruct (m w) as [[r0 | e] w0] eqn:E
  end; inversion H; subst r0 w0; clear H.
  bind_inv E extracted w1 Hx. bind_inv E fused w2 Hloop.
  unfold GeminiService.reviewAndAssemble in E.
  bind_inv E reviews w3 Hrev. bind_inv E ob w4 Hbib.
  apply ret_ok in E. destruct E as [<- <-]. simpl.
  exists extracted, w1, fused, w2, reviews, w3. repeat split.
  - now apply await_json_ok.
  - exact Hloop.
  - now apply await_json_ok.
  - now apply bibliography_step.
Qed.

Lemma Part001_run input w r w' :
  Part001.parseAndVerifyCitations svc input w = (Ok r, w') ->
  exists extracted w1 w2,
    extractCitations svc input w = (Parsed extracted, w1)
    /\ Part001.verifyLoop svc extracted [] w1 = (Ok (citations r), w2)
    /\ total (summary r) = length (citations r)
    /\ verified (summary r) = count is_verified (citations r)
    /\ hallucinated (summary r) = count is_hallucinated (citations r)
    /\ unverified (summary r) = count is_unverified (citations r)
    /\ bibliography_of svc (citations r) w2 (multiStyleBib r) w'.
Proof.
  unfold Part001.parseAndVerifyCitations. intro H.
  bind_inv H extracted w1 Hx. bind_inv H cs w2 Hloop. bind_inv H ob w3 Hbib.
  apply ret_ok in H. destruct H as [<- <-]. simpl.
  exists extracted, w1, w2. repeat split.
  - now apply await_json_ok.
  - exact Hloop.
  - now apply bibliography_step.
Qed.

(** The service of [part_001] never assigns PARTIAL_MATCH. *)
Lemma Part001_item_status item w c w' :
  Part001.verifyItem svc item w = (Ok c, w') ->
  status_is (status c) PARTIAL_MATCH = false.
Proof.
  unfold Part001.verifyItem. intro H.
  bind_inv H cr w1 Hcr. bind_inv H vr w2 Hvr.
  apply ret_ok in H. destruct H as [<- _]. simpl.
  unfold Part001.fuse.
  destruct (JS.includes _ "hallucination"); [reflexivity | ].
  destruct (is_some cr || _); reflexivity.
Qed.

End Runs.

Lemma count_ext (f g : Citation -> bool) (cs : list Citation) :
  Forall (fun c => f c = g c) cs -> count f cs = count g cs.
Proof.
  unfold count. induction 1 as [ | c cs Hc _ IH]; simpl.
  - reflexivity.
  - rewrite Hc. destruct (g c); simpl; now rewrite IH.
Qed.

(* ================================================================== *)
(** * The summary *)
(* ================================================================== *)

(** C2.  In every VerificationResult that one of the three services
    returns, the summary is the projection of the final statuses of the
    citations: [total] is their number, [verified] counts VERIFIED,
    [hallucinated] counts HALLUCINATION and [unverified] counts UNVERIFIED
    or PARTIAL_MATCH.  The service of [part_001] counts UNVERIFIED alone,
    which is the same number there: it never assigns PARTIAL_MATCH. *)
Theorem C2_summary_projection (W : Type) (svc : Services W) input w r w' :
  ApiVerify.parseAndVerifyCitations svc input w = (Ok r, w')
  \/ GeminiService.parseAndVerifyCitations (Some svc) input w = (Ok r, w')
  \/ Part001.parseAndVerifyCitations svc input w = (Ok r, w') ->
  total (summary r) = length (citations r)
  /\ verified (summary r) = count is_verified (citations r)
  /\ hallucinated (summary r) = count is_hallucinated (citations r)
  /\ unverified (summary r) = count is_unverified_or_partial (citations r).
Proof.
  intros [H | [H | H]].
  - apply ApiVerify_run in H.
    destruct H as (extracted & w1 & w2 & _ & _ & -> & _).
    repeat split.
  - apply GeminiService_run in H.
    destruct H as (extracted & w1 & fused & w2 & rv & w3 & _ & _ & _ & _ & -> & _).
    repeat split.
  - apply Part001_run in H.
    destruct H as (extracted & w1 & w2 & _ & Hloop & Ht & Hv & Hh & Hu & _).
    repeat split; try assumption.
    rewrite Hu. apply count_ext.
    apply (for_of_push_all (Part001.verifyItem svc)
             (fun c => is_unverified c = is_unverified_or_partial c)) in Hloop.
    + apply Hloop.
    + intros item w0 c w0' Hc. apply Part001_item_status in Hc.
      unfold is_unverified_or_partial, is_unverified. rewrite Hc.
      now rewrite orb_false_r.
Qed.

(** C2 on the sample collaborators: one citation, verified. *)
Lemma C2_summary_projection_witness :
  exists r,
    fst (GeminiService.parseAndVerifyCitations (Some Sample.plain) "t" 0) = Ok r
    /\ total (summary r) = length (citations r)
    /\ verified (summary r) = count is_verified (citations r)
    /\ hallucinated (summary r) = count is_hallucinated (citations r)
    /\ unverified (summary r) = count is_unverified_or_partial (citations r).
Proof.
  eexists. split; [reflexivity | ].
  apply (C2_summary_projection Sample.plain "t" 0 (w' := 5)).
  right. left. reflexivity.
Defined.

(* ================================================================== *)
(** * The skeptic review *)
(* ================================================================== *)

Lemma prefix_append (s t : string) : prefix s (s ++ t)%string = true.
Proof.
  induction s as [ | a s IH]; simpl.
  - now destruct t.
  - destruct (ascii_dec a a) as [_ | n]; [exact IH | now elim n].
Qed.

Lemma prefix_refl (s : string) : prefix s s = true.
Proof.
  induction s as [ | a s IH]; simpl; [reflexivity | ].
  destruct (ascii_dec a a) as [_ | n]; [exact IH | now elim n].
Qed.

Lemma Forall2_map_same (A B : Type) (P : A -> B -> Prop) (f : A -> B) l :
  (forall a, P a (f a)) -> Forall2 P l (map f l).
Proof. intro H. induction l; simpl; constructor; auto. Qed.

Lemma reviews_citation_id (c : Citation) (rv : Review) :
  GeminiService.reviews_citation c rv = true <-> Some (review_id rv) = id c.
Proof.
  unfold GeminiService.reviews_citation. destruct (id c) as [i | ].
  - rewrite String.eqb_eq. split; [now intros -> | now intros [= ->]].
  - split; discriminate.
Qed.

(** The function mapped over the fused batch follows the review policy. *)
Lemma applyReview_policy (reviews : list Review) (c : Citation) :
  Spec.review_policy reviews c (GeminiService.applyReview reviews c).
Proof.
  unfold Spec.review_policy, GeminiService.applyReview.
  destruct (find (GeminiService.reviews_citation c) reviews) as [rv | ] eqn:F.
  - destruct (find_some _ _ F) as [Hin Hid]. apply reviews_citation_id in Hid.
    destruct (String.eqb (newStatus rv) (status c)) eqn:E; simpl.
    + split; [left; split; reflexivity | split].
      * intros _. split; reflexivity.
      * apply prefix_refl.
    + apply String.eqb_neq in E. split; [ | split].
      * right. exists rv. simpl. repeat split; assumption.
      * intro Hun. elim (Hun rv Hin Hid).
      * apply prefix_append.
  - split; [left; split; reflexivity | split].
    + intros _. split; reflexivity.
    + apply prefix_refl.
Qed.

(** [find] returns the first proposal that names the citation. *)
Lemma find_first_proposal (reviews : list Review) (c : Citation)
      (rv : Review) :
  Spec.first_proposal reviews c rv ->
  find (GeminiService.reviews_citation c) reviews = Some rv.
Proof.
  intros (pre & post & -> & Hid & Hun).
  induction pre as [ | a pre IH]; simpl.
  - apply reviews_citation_id in Hid. now rewrite Hid.
  - destruct (GeminiService.reviews_citation c a) eqn:E.
    + apply reviews_citation_id in E.
      elim (Hun a (or_introl eq_refl) E).
    + apply IH. intros rv' Hin. apply Hun. now right.
Qed.

(** The function mapped over the fused batch applies the first proposal
    that names the citation, when it differs. *)
Lemma applyReview_outcome (reviews : list Review) (c : Citation) :
  Spec.review_outcome reviews c (GeminiService.applyReview reviews c).
Proof.
  intros rv Hfirst. unfold GeminiService.applyReview.
  rewrite (find_first_proposal Hfirst). split; intro H.
  - apply String.eqb_neq in H. rewrite H. split; reflexivity.
  - apply String.eqb_eq in H. rewrite H. split; reflexivity.
Qed.

(** The function mapped over the fused batch writes two fields only. *)
Lemma applyReview_frame (reviews : list Review) (c : Citation) :
  Spec.review_frame c (GeminiService.applyReview reviews c).
Proof.
  unfold Spec.review_frame, GeminiService.applyReview.
  destruct (find _ reviews) as [rv | ]; [ | repeat split].
  destruct (negb _); repeat split.
Qed.

(** C4.  In a run of [src/services/geminiService.ts] that returned, each
    citation of the result stands for the citation of the fused batch at
    its index, reviewed against the parsed review output.  Of the
    proposals that name the citation the first is the one that counts: if
    its status differs from the one the citation had, the citation
    returned has the proposed status, and its explanation is the old one,
    the review tag and the reasoning; if it does not differ, status and
    explanation are as they were.  A citation no proposal names keeps its
    status and its explanation.  So a status is replaced only by a
    proposal that differs from it, and the old explanation is always a
    prefix of the new one. *)
Theorem C4_review_policy (W : Type) (svc : Services W) input w r w' :
  GeminiService.parseAndVerifyCitations (Some svc) input w = (Ok r, w') ->
  exists extracted w1 fused w2 reviews w3,
    extractCitations svc input w = (Parsed extracted, w1)
    /\ GeminiService.verifyLoop svc extracted [] w1 = (Ok fused, w2)
    /\ reviewCitations svc fused w2 = (Parsed reviews, w3)
    /\ Forall2 (fun c c' =>
                  Spec.review_policy reviews c c'
                  /\ Spec.review_outcome reviews c c')
               fused (citations r).
Proof.
  intro H. apply GeminiService_run in H.
  destruct H as (extracted & w1 & fused & w2 & reviews & w3
                 & Hx & Hloop & Hrev & -> & _).
  exists extracted, w1, fused, w2, reviews, w3.
  split; [exact Hx | ]. split; [exact Hloop | ]. split; [exact Hrev | ].
  apply Forall2_map_same. intro c. split.
  - apply applyReview_policy.
  - apply applyReview_outcome.
Qed.

(** C4 on a sample run: fusion makes the one citation VERIFIED, the
    review proposes UNVERIFIABLE for it, and the citation returned has
    that status and the reasoning after its explanation. *)
Lemma C4_review_policy_witness :
  exists r c',
    fst (GeminiService.parseAndVerifyCitations
           (Some (Sample.services (Parsed [Sample.smith])
                                  (Parsed [Sample.downgrade])
                                  (Parsed Sample.four))) "t" 0) = Ok r
    /\ citations r = [c']
    /\ status c' = "UNVERIFIABLE"%string
    /\ explanation c'
       = ("The source exists." ++ GeminiService.skeptic_tag
          ++ "Confidence is not absolute.")%string.
Proof.
  assert (Hrun : exists r,
             GeminiService.parseAndVerifyCitations
               (Some (Sample.services (Parsed [Sample.smith])
                                      (Parsed [Sample.downgrade])
                                      (Parsed Sample.four))) "t" 0
             = (Ok r, 4))
    by (eexists; vm_compute; reflexivity).
  destruct Hrun as [r Hrun].
  destruct (C4_review_policy _ _ _ Hrun)
    as (extracted & w1 & fused & w2 & reviews & w3 & Hx & Hloop & Hrev & H).
  vm_compute in Hx. injection Hx as <- <-.
  vm_compute in Hloop. injection Hloop as <- <-.
  vm_compute in Hrev. injection Hrev as <- <-.
  vm_compute in Hrun. injection Hrun as <-.
  cbv [citations] in H.
  inversion H as [ | c c' l l' [_ Hout] _ Ec Ec']. clear H. subst.
  destruct (Hout Sample.downgrade) as [Hdiff _].
  { exists [], []. split; [reflexivity | ]. split; [reflexivity | ].
    intros rv []. }
  eexists. eexists. split; [reflexivity | ]. split; [reflexivity | ].
  apply Hdiff. discriminate.
Defined.

(** C10.  In a run of [src/services/geminiService.ts] that returned, the
    review changed nothing but status and explanation: each citation of the
    result has the id, the raw text, the parsed metadata, the confidence
    score, the source URL and the verification source of the citation of
    the fused batch at its index.  A citation that fusion made VERIFIED
    therefore keeps the confidence 0.99 whatever the review made of it. *)
Theorem C10_review_frame (W : Type) (svc : Services W) input w r w' :
  GeminiService.parseAndVerifyCitations (Some svc) input w = (Ok r, w') ->
  exists extracted w1 fused w2,
    GeminiService.verifyLoop svc extracted [] w1 = (Ok fused, w2)
    /\ Forall2 (fun c c' =>
                  Spec.review_frame c c'
                  /\ (status c = status_value VERIFIED ->
                      confidenceScore c' = 0.99%Q))
               fused (citations r).
Proof.
  intro H. apply GeminiService_run in H.
  destruct H as (extracted & w1 & fused & w2 & reviews & w3
                 & _ & Hloop & _ & -> & _).
  exists extracted, w1, fused, w2. split; [exact Hloop | ].
  assert (Hfused : Forall (fun c => status c = status_value VERIFIED ->
                                    confidenceScore c = 0.99%Q) fused).
  { eapply (for_of_push_all (GeminiService.verifyItem svc)); [ | exact Hloop].
    intros item w0 c w0' Hc. apply GeminiService_item_fused in Hc.
    destruct Hc as (a & g & s & -> & ->).
    destruct a, g, s; simpl; intro E; try discriminate E; reflexivity. }
  clear Hloop. induction fused as [ | c fused IH]; simpl; constructor.
  - split; [apply applyReview_frame | ].
    intro E. destruct (applyReview_frame reviews c) as (_ & _ & _ & -> & _).
    inversion Hfused; auto.
  - apply IH. now inversion Hfused.
Qed.

(** C10 on a sample run: the citation downgraded from VERIFIED keeps 0.99. *)
Lemma C10_review_frame_witness :
  exists r,
    fst (GeminiService.parseAndVerifyCitations
           (Some (Sample.services (Parsed [Sample.smith])
                                  (Parsed [Sample.downgrade])
                                  (Parsed Sample.four))) "t" 0) = Ok r
    /\ map status (citations r) = ["UNVERIFIABLE"]
    /\ exists fused,
        Forall2 (fun c c' =>
                   Spec.review_frame c c'
                   /\ (status c = status_value VERIFIED ->
                       confidenceScore c' = 0.99%Q))
                fused (citations r).
Proof.
  eexists. split; [reflexivity | ]. split; [reflexivity | ].
  destruct (C10_review_frame
              (Sample.services (Parsed [Sample.smith])
                               (Parsed [Sample.downgrade])
                               (Parsed Sample.four)) "t" 0 (w' := 4)
              eq_refl)
    as (_ & _ & fused & _ & _ & H).
  exists fused. exact H.
Defined.

(* ================================================================== *)
(** * Final statuses *)
(* ================================================================== *)

(** Fusion assigns one of the four final statuses, in each service. *)
Lemma fusion_status_final (W : Type) (svc : Services W) extracted w cs w' :
  ApiVerify.verifyLoop svc extracted [] w = (Ok cs, w')
  \/ GeminiService.verifyLoop svc extracted [] w = (Ok cs, w')
  \/ Part001.verifyLoop svc extracted [] w = (Ok cs, w') ->
  Forall (fun c => Spec.final_status (status c) = true) cs.
Proof.
  intros [H | [H | H]].
  - eapply (for_of_push_all (ApiVerify.verifyItem svc)); [ | exact H].
    intros item w0 c w0' Hc. apply ApiVerify_item_fused in Hc.
    destruct Hc as (r & g & s & -> & _). now destruct r, g, s.
  - eapply (for_of_push_all (GeminiService.verifyItem svc)); [ | exact H].
    intros item w0 c w0' Hc. apply GeminiService_item_fused in Hc.
    destruct Hc as (r & g & s & -> & _). now destruct r, g, s.
  - eapply (for_of_push_all (Part001.verifyItem svc)); [ | exact H].
    intros item w0 c w0'. unfold Part001.verifyItem. intro Hc.
    bind_inv Hc cr w1 Hcr. bind_inv Hc vr w2 Hvr.
    apply ret_ok in Hc. destruct Hc as [<- _]. simpl. unfold Part001.fuse.
    destruct (JS.includes _ "hallucination"); [reflexivity | ].
    destruct (is_some cr || _); reflexivity.
Qed.

(** C3, at the input on which the code departs from it.  The extractor
    returns one fragment, registry and grounding both match, fusion makes
    it VERIFIED; the review answers with the status its prompt asks for,
    UNVERIFIABLE.  [src/services/geminiService.ts] writes that string into
    the status unchecked: the returned citation carries a status that is
    none of the four final ones, nor a member of CitationStatus at all. *)
Theorem C3_review_status_unchecked :
  exists r c,
    fst (GeminiService.parseAndVerifyCitations
           (Some (Sample.services (Parsed [Sample.smith])
                                  (Parsed [Sample.downgrade])
                                  (Parsed Sample.four))) "t" 0) = Ok r
    /\ citations r = [c]
    /\ status c = "UNVERIFIABLE"
    /\ Spec.final_status (status c) = false
    /\ (forall s : CitationStatus, status c <> status_value s).
Proof.
  eexists. eexists. split; [reflexivity | ].
  split; [reflexivity | ]. split; [reflexivity | ].
  split; [reflexivity | ]. intros []; discriminate.
Qed.

(* ================================================================== *)
(** * Failures of the review and of the bibliography *)
(* ================================================================== *)

(** C5 as stated fails: a review output that is not JSON makes the service
    throw, and no VerificationResult is returned. *)
Lemma C5_review_failure_counterexample :
  fst (GeminiService.parseAndVerifyCitations
         (Some (Sample.services (Parsed [Sample.smith]) NotJson
                                (Parsed Sample.four))) "t" 0)
  = Throw SyntaxError
  /\ fst (GeminiService.parseAndVerifyCitations
            (Some (Sample.services (Parsed [Sample.smith]) CallFailed
                                   (Parsed Sample.four))) "t" 0)
     = Throw Rejected
  /\ fst (GeminiService.parseAndVerifyCitations
            (Some (Sample.services (Parsed [Sample.smith])
                                   (Parsed [Sample.agree]) CallFailed)) "t" 0)
     = Throw Rejected.
Proof. repeat split. Qed.

(** C5, as amended.  In [src/services/geminiService.ts], once extraction
    and fusion have succeeded, a review call that rejects or whose text is
    not JSON makes the whole service throw: the [catch] logs and rethrows,
    and no VerificationResult is returned.  The same holds of the
    bibliography call, which is made when the reviewed batch has a VERIFIED
    citation. *)
Theorem C5_failures_propagate (W : Type) (svc : Services W) input w
        extracted w1 fused w2 :
  extractCitations svc input w = (Parsed extracted, w1) ->
  GeminiService.verifyLoop svc extracted [] w1 = (Ok fused, w2) ->
  ((forall reviews, fst (reviewCitations svc fused w2) <> Parsed reviews) ->
   exists e,
     fst (GeminiService.parseAndVerifyCitations (Some svc) input w) = Throw e)
  /\ (forall reviews w3,
         reviewCitations svc fused w2 = (Parsed reviews, w3) ->
         let cs := map (GeminiService.applyReview reviews) fused in
         0 < count is_verified cs ->
         (forall b,
             fst (generateBibliography svc (filter is_verified cs) w3)
             <> Parsed b) ->
         exists e,
           fst (GeminiService.parseAndVerifyCitations (Some svc) input w)
           = Throw e).
Proof.
  intros Hx Hloop.
  assert (Hrun :
            GeminiService.parseAndVerifyCitations (Some svc) input w
            = GeminiService.log_and_rethrow
                (GeminiService.reviewAndAssemble svc fused) w2).
  { unfold GeminiService.parseAndVerifyCitations, GeminiService.log_and_rethrow.
    assert (Hx' : await_json (extractCitations svc input) w
                  = (Ok extracted, w1))
      by (unfold await_json; now rewrite Hx).
    rewrite (bind_step _ _ _ Hx'). now rewrite (bind_step _ _ _ Hloop). }
  rewrite Hrun. unfold GeminiService.log_and_rethrow.
  split.
  - intro Hbad.
    destruct (await_json_fails (reviewCitations svc fused) w2 Hbad) as [e He].
    exists e. unfold GeminiService.reviewAndAssemble, bind.
    destruct (await_json (reviewCitations svc fused) w2) as [[a | e0] w0];
      simpl in He; [discriminate He | ]. simpl. now inversion He.
  - intros reviews w3 Hrev Hpos Hbad.
    set (cs := map (GeminiService.applyReview reviews) fused) in *.
    destruct (await_json_fails
                (generateBibliography svc (filter is_verified cs)) w3 Hbad)
      as [e He].
    exists e. unfold GeminiService.reviewAndAssemble.
    assert (Hrev' : await_json (reviewCitations svc fused) w2
                    = (Ok reviews, w3))
      by (unfold await_json; now rewrite Hrev).
    rewrite (bind_step _ _ _ Hrev').
    fold cs. unfold count in Hpos. apply Nat.ltb_lt in Hpos. rewrite Hpos.
    unfold bind at 1. unfold bind at 1.
    destruct (await_json (generateBibliography svc (filter is_verified cs)) w3)
      as [[a | e0] w0]; simpl in He; [discriminate He | ]. simpl.
    now inversion He.
Qed.

(** C5 on two sample runs: a review output that is not JSON, and a
    bibliography call that rejects. *)
Lemma C5_failures_propagate_witness :
  (exists e,
      fst (GeminiService.parseAndVerifyCitations
             (Some (Sample.services (Parsed [Sample.smith]) NotJson
                                    (Parsed Sample.four))) "t" 0) = Throw e)
  /\ (exists e,
         fst (GeminiService.parseAndVerifyCitations
                (Some (Sample.services (Parsed [Sample.smith])
                                       (Parsed [Sample.agree]) CallFailed))
                "t" 0) = Throw e).
Proof.
  split.
  - refine (proj1 (C5_failures_propagate
                     (Sample.services (Parsed [Sample.smith]) NotJson
                                      (Parsed Sample.four)) "t" 0
                     (extracted := [Sample.smith]) (w1 := 1)
                     (fused := _) (w2 := 3) eq_refl eq_refl) _).
    intros reviews. simpl. discriminate.
  - refine (proj2 (C5_failures_propagate
                     (Sample.services (Parsed [Sample.smith])
                                      (Parsed [Sample.agree]) CallFailed)
                     "t" 0
                     (extracted := [Sample.smith]) (w1 := 1)
                     (fused := _) (w2 := 3) eq_refl eq_refl)
                  [Sample.agree] 4 eq_refl _ _).
    + simpl. unfold count. simpl. lia.
    + intros b. simpl. discriminate.
Defined.

(* ================================================================== *)
(** * The bibliography *)
(* ================================================================== *)

Lemma bibliography_presence (W : Type) (svc : Services W) cs w ob w' :
  bibliography_of svc cs w ob w' ->
  (is_some ob = true <-> 0 < count is_verified cs)
  /\ (forall b, ob = Some b ->
                exists w1 w2,
                  generateBibliography svc (filter is_verified cs) w1
                  = (Parsed b, w2)).
Proof.
  unfold count. intros [(Hlen & -> & _) | (Hlen & b & Hb & ->)]; split.
  - rewrite Hlen. simpl. split; [discriminate | lia].
  - discriminate.
  - simpl. split; auto.
  - intros b0 [= <-]. now exists w, w'.
Qed.

(** C6, as amended.  In every VerificationResult one of the three services
    returns, [multiStyleBib] is present if and only if [summary.verified] is
    positive, and when present it is the parsed reply of the bibliography
    call made with the VERIFIED citations of the result, as it came: the
    code asks for the four keys through the response schema ([part_001]
    asks for none) and checks neither the keys nor the strings. *)
Theorem C6_bibliography_presence (W : Type) (svc : Services W) input w r w' :
  ApiVerify.parseAndVerifyCitations svc input w = (Ok r, w')
  \/ GeminiService.parseAndVerifyCitations (Some svc) input w = (Ok r, w')
  \/ Part001.parseAndVerifyCitations svc input w = (Ok r, w') ->
  (is_some (multiStyleBib r) = true <-> 0 < verified (summary r))
  /\ (forall b,
         multiStyleBib r = Some b ->
         exists w1 w2,
           generateBibliography svc (filter is_verified (citations r)) w1
           = (Parsed b, w2)).
Proof.
  intros [H | [H | H]].
  - apply ApiVerify_run in H.
    destruct H as (extracted & w1 & w2 & _ & _ & -> & Hbib).
    exact (bibliography_presence Hbib).
  - apply GeminiService_run in H.
    destruct H as (extracted & w1 & fused & w2 & rv & w3
                   & _ & _ & _ & _ & -> & Hbib).
    exact (bibliography_presence Hbib).
  - apply Part001_run in H.
    destruct H as (extracted & w1 & w2 & _ & _ & _ & -> & _ & _ & Hbib).
    exact (bibliography_presence Hbib).
Qed.

(** C6 on the sample collaborators: one verified citation, four styles. *)
Lemma C6_bibliography_presence_witness :
  exists r,
    fst (ApiVerify.parseAndVerifyCitations Sample.plain "t" 0) = Ok r
    /\ (is_some (multiStyleBib r) = true <-> 0 < verified (summary r))
    /\ (forall b,
           multiStyleBib r = Some b ->
           exists w1 w2,
             generateBibliography Sample.plain
                                  (filter is_verified (citations r)) w1
             = (Parsed b, w2)).
Proof.
  eexists. split; [reflexivity | ].
  apply (C6_bibliography_presence Sample.plain "t" 0 (w' := 4)).
  left. reflexivity.
Defined.

(** C6 as stated fails: the bibliography service answers the four keys
    with empty strings, and the result carries them as they came. *)
Lemma C6_blank_styles_counterexample :
  exists r,
    fst (ApiVerify.parseAndVerifyCitations
           (Sample.services (Parsed [Sample.smith]) (Parsed [])
                            (Parsed Sample.blank)) "t" 0) = Ok r
    /\ verified (summary r) = 1
    /\ multiStyleBib r = Some Sample.blank
    /\ Spec.four_styles Sample.blank = false.
Proof. eexists. repeat split. Qed.

(* ================================================================== *)
(** * The HTTP handler of [api/verify.ts] *)
(* ================================================================== *)




(* ================================================================== *)
(** * Identifiers *)
(* ================================================================== *)

Lemma truthy_show (v : option string) :
  JS.truthy v = true -> Some (JS.show v) = v.
Proof. destruct v; [reflexivity | discriminate]. Qed.

Lemma ApiVerify_item_id (W : Type) (svc : Services W) item w c w' :
  ApiVerify.verifyItem svc item w = (Ok c, w') -> identified item c.
Proof.
  unfold ApiVerify.verifyItem. intro H.
  bind_inv H cr w1 Hcr. bind_inv H vr w2 Hvr. bind_inv H i w3 Hi.
  apply ret_ok in H. destruct H as [<- _]. split; [reflexivity | ].
  simpl. intro T. rewrite T in Hi. apply ret_ok in Hi.
  destruct Hi as [<- _]. now apply truthy_show.
Qed.

Lemma GeminiService_item_id (W : Type) (svc : Services W) item w c w' :
  GeminiService.verifyItem svc item w = (Ok c, w') -> identified item c.
Proof.
  unfold GeminiService.verifyItem. intro H.
  bind_inv H cr w1 Hcr. bind_inv H vr w2 Hvr. bind_inv H i w3 Hi.
  apply ret_ok in H. destruct H as [<- _]. split; [reflexivity | ].
  simpl. intro T. rewrite T in Hi. apply ret_ok in Hi.
  destruct Hi as [<- _]. now apply truthy_show.
Qed.

Lemma Forall2_impl (A B : Type) (P Q : A -> B -> Prop) l l' :
  (forall a b, P a b -> Q a b) -> Forall2 P l l' -> Forall2 Q l l'.
Proof. intros H. induction 1; constructor; auto. Qed.

Lemma Forall2_map_right (A B C : Type) (P : A -> C -> Prop) (f : B -> C) l l' :
  Forall2 (fun a b => P a (f b)) l l' -> Forall2 P l (map f l').
Proof. induction 1; simpl; constructor; auto. Qed.

(** Identifiers that are all the extractor's own are the extractor's list. *)
Lemma identified_ids (extracted : list RawItem) (cs : list Citation) :
  Forall2 identified extracted cs ->
  Forall (fun item => JS.truthy (item_id item) = true) extracted ->
  map id cs = map item_id extracted.
Proof.
  induction 1 as [ | item c extracted cs [_ Hc] _ IH]; intro Hall.
  - reflexivity.
  - inversion Hall as [ | ? ? Hitem Hrest]; subst. simpl.
    now rewrite (Hc Hitem), (IH Hrest).
Qed.

(** C9, as amended.  In a run of [api/verify.ts] or of
    [src/services/geminiService.ts] that returned, every citation has an
    identifier string: the one extraction supplied when that is a
    non-empty string, and a generated one otherwise.  Nothing makes the
    identifiers distinct: when extraction supplied them all, the
    identifiers of the result are the supplied ones in order, pairwise
    distinct exactly when the supplied ones are. *)
Theorem C9_identifiers (W : Type) (svc : Services W) input w r w' :
  ApiVerify.parseAndVerifyCitations svc input w = (Ok r, w')
  \/ GeminiService.parseAndVerifyCitations (Some svc) input w = (Ok r, w') ->
  exists extracted w1,
    extractCitations svc input w = (Parsed extracted, w1)
    /\ Forall2 identified extracted (citations r)
    /\ (Forall (fun item => JS.truthy (item_id item) = true) extracted ->
        map id (citations r) = map item_id extracted
        /\ (Spec.unique_ids (citations r) <-> NoDup (map item_id extracted))).
Proof.
  intro H.
  assert (Hid : exists extracted w1,
             extractCitations svc input w = (Parsed extracted, w1)
             /\ Forall2 identified extracted (citations r)).
  { destruct H as [H | H].
    - apply ApiVerify_run in H.
      destruct H as (extracted & w1 & w2 & Hx & Hloop & _).
      exists extracted, w1. split; [exact Hx | ].
      apply for_of_push_ok in Hloop. destruct Hloop as (pushed & -> & Hall).
      simpl. eapply Forall2_impl; [ | exact Hall].
      intros item c (w3 & w4 & Hc). eapply ApiVerify_item_id. exact Hc.
    - apply GeminiService_run in H.
      destruct H as (extracted & w1 & fused & w2 & rv & w3
                     & Hx & Hloop & _ & -> & _).
      exists extracted, w1. split; [exact Hx | ].
      apply for_of_push_ok in Hloop. destruct Hloop as (pushed & -> & Hall).
      simpl. apply Forall2_map_right. eapply Forall2_impl; [ | exact Hall].
      intros item c (w4 & w5 & Hc). apply GeminiService_item_id in Hc.
      unfold identified.
      destruct (applyReview_frame rv c) as (-> & _). exact Hc. }
  destruct Hid as (extracted & w1 & Hx & Hall).
  exists extracted, w1. split; [exact Hx | ]. split; [exact Hall | ].
  intro Htruthy. unfold Spec.unique_ids.
  rewrite (identified_ids Hall Htruthy). split; [reflexivity | tauto].
Qed.

(** C9 on the sample collaborators: one fragment, its own identifier. *)
Lemma C9_identifiers_witness :
  exists r extracted w1,
    fst (ApiVerify.parseAndVerifyCitations Sample.plain "t" 0) = Ok r
    /\ extractCitations Sample.plain "t" 0 = (Parsed extracted, w1)
    /\ Forall2 identified extracted (citations r)
    /\ map id (citations r) = [Some "c1"]
    /\ Spec.unique_ids (citations r).
Proof.
  eexists.
  destruct (C9_identifiers Sample.plain "t" 0 (w' := 4)
                           (or_introl eq_refl))
    as (extracted & w1 & Hx & Hall & Hids).
  exists extracted, w1. split; [reflexivity | ]. split; [exact Hx | ].
  split; [exact Hall | ].
  inversion Hx; subst extracted w1.
  destruct Hids as (Hmap & Huniq).
  - repeat constructor.
  - split; [exact Hmap | ]. apply Huniq. simpl.
    constructor; [intros [] | constructor].
Defined.

(** C9 as stated fails: extraction names two fragments alike, and the
    result carries the one identifier twice. *)
Lemma C9_duplicate_ids_counterexample :
  exists r,
    fst (ApiVerify.parseAndVerifyCitations
           (Sample.services (Parsed [Sample.smith; Sample.smith])
                            (Parsed []) (Parsed Sample.four)) "t" 0) = Ok r
    /\ map id (citations r) = [Some "c1"; Some "c1"]
    /\ ~ Spec.unique_ids (citations r).
Proof.
  eexists. split; [reflexivity | ]. split; [reflexivity | ].
  unfold Spec.unique_ids. simpl. intro H. inversion H as [ | ? ? Hnot _].
  apply Hnot. left. reflexivity.
Qed.

(* ================================================================== *)
(** * The matcher computes the matches *)
(* ================================================================== *)

Module RegExpFacts.

Import RegExp.

Lemma prev_after_app (prev : option ascii) (l l' : list ascii) :
  prev_after prev (l ++ l') = prev_after (prev_after prev l) l'.
Proof. unfold prev_after. apply fold_left_app. Qed.

Lemma prev_after_last (prev : option ascii) (l : list ascii) (c : ascii) :
  prev_after prev (l ++ [c]) = Some c.
Proof. now rewrite prev_after_app. Qed.

Lemma advance_nil (x : pos) : advance x [] x.
Proof. split; reflexivity. Qed.

Lemma advance_app (x y z : pos) (l l' : list ascii) :
  advance x l y -> advance y l' z -> advance x (l ++ l') z.
Proof.
  intros [Hx Hy] [Hy' Hz]. split.
  - now rewrite Hx, Hy', app_assoc.
  - now rewrite Hz, Hy, prev_after_app.
Qed.

Lemma advance_remaining (x y : pos) (l : list ascii) :
  advance x l y -> remaining x = length l + remaining y.
Proof. intros [Hx _]. unfold remaining. now rewrite Hx, length_app. Qed.

(** The end position is a function of the start and of what was read. *)
Lemma advance_end (x y : pos) (l : list ascii) :
  advance x l y -> y = (prev_after (fst x) l, skipn (length l) (snd x)).
Proof.
  intros [Hx Hy]. destruct y as [p s]. simpl in *. subst p. f_equal.
  rewrite Hx. now rewrite skipn_app, skipn_all, Nat.sub_diag.
Qed.

Lemma advance_from (prev : option ascii) (l rest : list ascii) :
  advance (prev, l ++ rest) l (prev_after prev l, rest).
Proof. split; reflexivity. Qed.

Lemma advance_consumed (x y : pos) (l : list ascii) :
  advance x l y -> consumed x y = l.
Proof.
  intro H. unfold consumed. rewrite (advance_remaining H).
  destruct H as [-> _].
  replace (length l + remaining y - remaining y) with (length l + 0) by lia.
  now rewrite firstn_app_2, app_nil_r.
Qed.

(** A match reads a stretch of the input. *)
Lemma repeats_advance (R : pos -> pos -> Prop) :
  (forall x y, R x y -> exists l, advance x l y) ->
  forall min max x y, repeats R min max x y -> exists l, advance x l y.
Proof.
  intros HR min max x y H.
  induction H as [min max x _ | max x | min max x y z _ Hxy _ _ [l' IH]].
  - exists []. apply advance_nil.
  - exists []. apply advance_nil.
  - destruct (HR _ _ Hxy) as [l Hl]. exists (l ++ l').
    eapply advance_app; eassumption.
Qed.

Lemma matches_advance (r : regex) :
  forall x y, matches r x y -> exists l, advance x l y.
Proof.
  induction r as [ | f | a IHa b IHb | min max a IHa | a _ | ];
    simpl; intros x y H.
  - subst y. exists []. apply advance_nil.
  - destruct H as (c & rest & Hx & _ & ->). exists [c]. now split.
  - destruct H as (m & Ha & Hb).
    destruct (IHa _ _ Ha) as [l Hl], (IHb _ _ Hb) as [l' Hl'].
    exists (l ++ l'). eapply advance_app; eassumption.
  - eapply repeats_advance; eassumption.
  - destruct H as [-> _]. exists []. apply advance_nil.
  - destruct H as [-> _]. exists []. apply advance_nil.
Qed.

Lemma matches_remaining (r : regex) (x y : pos) :
  matches r x y -> remaining y <= remaining x.
Proof.
  intro H. destruct (matches_advance _ _ _ H) as [l Hl].
  rewrite (advance_remaining Hl). lia.
Qed.

Section RepeatEnds.

Variable step : pos -> list pos.
Variable R : pos -> pos -> Prop.
Hypothesis step_R : forall x y, In y (step x) <-> R x y.
Hypothesis R_remaining : forall x y, R x y -> remaining y <= remaining x.

Lemma repeat_ends_sound :
  forall fuel min max x z,
    In z (repeat_ends step fuel min max x) -> repeats R min max x z.
Proof.
  induction fuel as [ | fuel IH]; intros min max x z H; simpl in H.
  - destruct H.
  - destruct (max_is_zero max) eqn:Z.
    + destruct H as [<- | []]. now apply repeats_exhausted.
    + assert (Hagain :
                In z (flat_map
                        (fun y =>
                           if Nat.eqb min 0
                              && Nat.eqb (remaining y) (remaining x)
                           then []
                           else repeat_ends step fuel (pred min)
                                            (pred_max max) y)
                        (step x)) ->
                repeats R min max x z).
      { intro Hin. apply in_flat_map in Hin.
        destruct Hin as (y & Hy & Hz).
        destruct (Nat.eqb min 0 && Nat.eqb (remaining y) (remaining x))
                 eqn:E; [destruct Hz | ].
        eapply repeats_again; [exact Z | apply step_R; exact Hy | | ].
        - intros ->. simpl in E. now apply Nat.eqb_neq in E.
        - apply IH. exact Hz. }
      destruct (Nat.eqb min 0) eqn:M.
      * apply in_app_or in H. destruct H as [H | [<- | []]].
        -- now apply Hagain.
        -- apply Nat.eqb_eq in M. subst min. apply repeats_stop.
      * now apply Hagain.
Qed.

Lemma repeat_ends_complete :
  forall min max x z,
    repeats R min max x z ->
    forall fuel, min + remaining x < fuel ->
                 In z (repeat_ends step fuel min max x).
Proof.
  intros min max x z H.
  induction H as [min max x Z | max x | min max x y z Z Hxy Hmove _ IH];
    intros [ | fuel] Hfuel; try lia; simpl.
  - rewrite Z. now left.
  - destruct (max_is_zero max); [now left | ].
    apply in_or_app. right. now left.
  - rewrite Z.
    assert (Hagain :
              In z (flat_map
                      (fun y =>
                         if Nat.eqb min 0
                            && Nat.eqb (remaining y) (remaining x)
                         then []
                         else repeat_ends step fuel (pred min)
                                          (pred_max max) y)
                      (step x))).
    { apply in_flat_map. exists y. split; [now apply step_R | ].
      pose proof (R_remaining Hxy) as Hle.
      destruct min as [ | min]; simpl.
      - specialize (Hmove eq_refl).
        destruct (Nat.eqb_spec (remaining y) (remaining x)) as [E | _];
          [now elim Hmove | ].
        apply IH. simpl. lia.
      - apply IH. simpl in *. lia. }
    destruct (Nat.eqb min 0); [apply in_or_app; now left | exact Hagain].
Qed.

End RepeatEnds.

(** The matcher lists exactly the matches. *)
Theorem ends_matches (r : regex) :
  forall x y, In y (ends r x) <-> matches r x y.
Proof.
  induction r as [ | f | a IHa b IHb | min max a IHa | a IHa | ];
    intros x y; cbn [ends matches].
  - split; [now intros [<- | []] | intros ->; now left].
  - destruct (snd x) as [ | c rest] eqn:E.
    + split; [intros [] | now intros (c & rest & [=] & _)].
    + destruct (f c) eqn:F.
      * split.
        -- intros [<- | []]. now exists c, rest.
        -- intros (c' & rest' & [= <- <-] & _ & ->). now left.
      * split; [intros [] | ].
        intros (c' & rest' & [= <- <-] & F' & _). congruence.
  - rewrite in_flat_map. split.
    + intros (m & Ha & Hb). exists m. split; [now apply IHa | now apply IHb].
    + intros (m & Ha & Hb). exists m. split; [now apply IHa | now apply IHb].
  - split.
    + apply repeat_ends_sound. exact IHa.
    + intro H. eapply repeat_ends_complete; try eassumption.
      * intros x0 y0. apply matches_remaining.
      * lia.
  - destruct (ends a x) as [ | z l] eqn:E.
    + split.
      * intros [<- | []]. split; [reflexivity | ].
        intros z Hz. apply IHa in Hz. rewrite E in Hz. destruct Hz.
      * intros [-> _]. now left.
    + split; [intros [] | ].
      intros [_ Hno]. apply (Hno z). apply IHa. rewrite E. now left.
  - destruct (at_boundary x).
    + split; [now intros [<- | []] | intros [-> _]; now left].
    + split; [intros [] | intros [_ H]; discriminate H].
Qed.

End RegExpFacts.

(* ================================================================== *)
(** * The scan *)
(* ================================================================== *)

Module SearchFacts.

Import RegExp RegExpFacts.

(** A scan that found [m] found it after some [pre]: the pattern matches
    there, its first choice reads [m], and it matches at no earlier
    position. *)
Lemma search_found (r : regex) :
  forall rest prev m,
    search r prev rest = Some m ->
    exists pre post y tl,
      rest = pre ++ m ++ post
      /\ ends r (prev_after prev pre, m ++ post) = y :: tl
      /\ advance (prev_after prev pre, m ++ post) m y
      /\ (forall pre' suf,
             rest = pre' ++ suf -> length pre' < length pre ->
             ends r (prev_after prev pre', suf) = []).
Proof.
  induction rest as [ | c rest IH]; intros prev m H; simpl in H.
  - destruct (ends r (prev, [])) as [ | y tl] eqn:E; [discriminate H | ].
    injection H as <-.
    assert (Hy : matches r (prev, []) y) by (apply ends_matches; rewrite E; now left).
    destruct (matches_advance _ _ _ Hy) as [l Hl].
    rewrite (advance_consumed Hl).
    exists [], (snd y), y, tl. simpl.
    pose proof Hl as [Hx Hp]. simpl in Hx. rewrite <- Hx.
    split; [reflexivity | ]. split; [exact E | ]. split; [exact Hl | ].
    intros pre' suf _ Hlt. simpl in Hlt. lia.
  - destruct (ends r (prev, c :: rest)) as [ | y tl] eqn:E.
    + destruct (IH _ _ H) as (pre & post & y & tl & -> & Hends & Hadv & Hleft).
      exists (c :: pre), post, y, tl. simpl.
      split; [reflexivity | ]. split; [exact Hends | ]. split; [exact Hadv | ].
      intros [ | c' pre'] suf Hsplit Hlt; simpl in *.
      * subst suf. exact E.
      * injection Hsplit as <- Hsplit. apply Hleft; [exact Hsplit | lia].
    + injection H as <-.
      assert (Hy : matches r (prev, c :: rest) y)
        by (apply ends_matches; rewrite E; now left).
      destruct (matches_advance _ _ _ Hy) as [l Hl].
      rewrite (advance_consumed Hl).
      exists [], (snd y), y, tl. simpl.
      pose proof Hl as [Hx Hp]. simpl in Hx. rewrite <- Hx.
      split; [reflexivity | ]. split; [exact E | ]. split; [exact Hl | ].
      intros pre' suf _ Hlt. simpl in Hlt. lia.
Qed.

(** A scan that found nothing met no position where the pattern matches. *)
Lemma search_none (r : regex) :
  forall rest prev,
    search r prev rest = None ->
    forall pre suf, rest = pre ++ suf -> ends r (prev_after prev pre, suf) = [].
Proof.
  induction rest as [ | c rest IH]; intros prev H pre suf Hsplit; simpl in H.
  - destruct (ends r (prev, [])) as [ | y tl] eqn:E; [ | discriminate H].
    symmetry in Hsplit. apply app_eq_nil in Hsplit. destruct Hsplit as [-> ->].
    exact E.
  - destruct (ends r (prev, c :: rest)) as [ | y tl] eqn:E; [ | discriminate H].
    destruct pre as [ | c' pre]; simpl in *.
    + subst suf. exact E.
    + injection Hsplit as <- Hsplit. now apply IH.
Qed.

End SearchFacts.

(* ================================================================== *)
(** * What the patterns read *)
(* ================================================================== *)

Module ReadFacts.

Import RegExp RegExpFacts.

Lemma advance_split (x y : pos) (l1 l2 : list ascii) :
  advance x (l1 ++ l2) y ->
  advance x l1 (prev_after (fst x) l1, l2 ++ snd y)
  /\ advance (prev_after (fst x) l1, l2 ++ snd y) l2 y.
Proof.
  intros [Hx Hy]. repeat split; simpl.
  - now rewrite Hx, app_assoc.
  - now rewrite Hy, prev_after_app.
Qed.

Lemma advance_nil_eq (x y : pos) : advance x [] y -> y = x.
Proof.
  intros [Hx Hy]. destruct x, y. simpl in *. now subst.
Qed.

Lemma reads_ext (r : regex) (P Q : list ascii -> Prop) :
  (forall l, P l <-> Q l) -> reads r P -> reads r Q.
Proof.
  intros HPQ Hr x y. rewrite (Hr x y).
  split; intros (l & Hl & Hp); exists l; (split; [exact Hl | now apply HPQ]).
Qed.

Lemma reads_Class (f : ascii -> bool) :
  reads (Class f) (fun l => exists c, l = [c] /\ f c = true).
Proof.
  intros x y. simpl. split.
  - intros (c & rest & Hx & Hf & ->). exists [c]. split; [now split | now exists c].
  - intros (l & [Hx Hy] & c & -> & Hf). exists c, (snd y).
    repeat split; try assumption. destruct y. simpl in *. now subst.
Qed.

Lemma reads_Seq (a b : regex) (P Q : list ascii -> Prop) :
  reads a P -> reads b Q ->
  reads (Seq a b) (fun l => exists l1 l2, l = l1 ++ l2 /\ P l1 /\ Q l2).
Proof.
  intros Ha Hb x z. simpl. split.
  - intros (y & Hxy & Hyz).
    apply Ha in Hxy. apply Hb in Hyz.
    destruct Hxy as (l1 & H1 & P1), Hyz as (l2 & H2 & Q2).
    exists (l1 ++ l2). split; [eapply advance_app; eassumption | ].
    now exists l1, l2.
  - intros (l & Hl & l1 & l2 & -> & P1 & Q2).
    apply advance_split in Hl. destruct Hl as [H1 H2].
    eexists. split; [apply Ha | apply Hb]; eauto.
Qed.

(** A repetition without upper bound of a pattern that reads non-empty
    strings reads their concatenations. *)
Lemma reads_Repeat (a : regex) (P : list ascii -> Prop) (min : nat) :
  reads a P -> (forall l, P l -> l <> []) ->
  reads (Repeat min None a)
        (fun l => exists ls, l = concat ls /\ Forall P ls /\ min <= length ls).
Proof.
  intros Ha Hne x z. cbn [matches]. split.
  - intro H. remember None as max eqn:E.
    induction H as [min max x Z | max x
                    | min max x y z Z Hxy _ _ IH]; subst max.
    + discriminate Z.
    + exists []. split; [apply advance_nil | now exists []].
    + destruct (IH eq_refl) as (l' & Hl' & ls & -> & Hall & Hmin).
      apply Ha in Hxy. destruct Hxy as (l & Hl & Pl).
      exists (l ++ concat ls). split; [eapply advance_app; eassumption | ].
      exists (l :: ls). repeat split; [now constructor | simpl; lia].
  - intros (l & Hl & ls & -> & Hall & Hmin).
    revert x min Hl Hmin.
    induction Hall as [ | l ls Pl _ IH]; intros x min Hl Hmin; simpl in *.
    + apply advance_nil_eq in Hl. subst z.
      replace min with 0 by lia. apply repeats_stop.
    + apply advance_split in Hl. destruct Hl as [H1 H2].
      eapply repeats_again.
      * reflexivity.
      * apply Ha. exists l. split; [exact H1 | exact Pl].
      * intros _. rewrite (advance_remaining H1).
        specialize (Hne l Pl). destruct l; [now elim Hne | simpl; lia].
      * apply IH; [exact H2 | lia].
Qed.

Lemma concat_singletons (l : list ascii) : concat (map (fun c => [c]) l) = l.
Proof. induction l; simpl; congruence. Qed.

(** A repetition of a character class reads the runs of the class. *)
Lemma reads_Repeat_Class (f : ascii -> bool) (min : nat) :
  reads (Repeat min None (Class f))
        (fun l => forallb f l = true /\ min <= length l).
Proof.
  eapply reads_ext; [ | apply (reads_Repeat min (reads_Class f))].
  - intro l. split.
    + intros (ls & -> & Hall & Hmin).
      assert (H : forallb f (concat ls) = true /\ length (concat ls) = length ls).
      { clear Hmin. induction Hall as [ | l ls (c & -> & Hf) _ [IH1 IH2]].
        - now split.
        - simpl. rewrite Hf, IH1, IH2. now split. }
      destruct H as [H1 H2]. split; [exact H1 | lia].
    + intros [Hall Hmin]. exists (map (fun c => [c]) l).
      rewrite concat_singletons, length_map. repeat split; try assumption.
      clear Hmin. induction l as [ | c l IH]; simpl in *; constructor.
      * apply andb_prop in Hall. exists c. now split.
      * apply andb_prop in Hall. now apply IH.
  - intros l (c & -> & _). discriminate.
Qed.

(** Patterns that match alike repeat alike. *)
Lemma repeats_ext (R R' : pos -> pos -> Prop) :
  (forall x y, R x y <-> R' x y) ->
  forall min max x y, repeats R min max x y -> repeats R' min max x y.
Proof.
  intros HR min max x y H.
  induction H as [min max x Z | max x | min max x y z Z Hxy Hmove _ IH].
  - now apply repeats_exhausted.
  - apply repeats_stop.
  - eapply repeats_again; try eassumption. now apply HR.
Qed.

Lemma reads_Repeat_ext (a b : regex) (min : nat) (max : option nat)
      (P : list ascii -> Prop) :
  (forall x y, matches a x y <-> matches b x y) ->
  reads (Repeat min max b) P -> reads (Repeat min max a) P.
Proof.
  intros Hab Hb x y. rewrite <- (Hb x y). cbn [matches].
  split; apply repeats_ext; intros; [ | symmetry]; apply Hab.
Qed.

End ReadFacts.

(* ================================================================== *)
(** * What the DOI pattern matches *)
(* ================================================================== *)

Module DoiFacts.

Import RegExp RegExpFacts ReadFacts DoiGrammar.

Lemma reads_Chr (a : ascii) : reads (Chr a) (fun l => l = [a]).
Proof.
  eapply reads_ext; [ | apply reads_Class]. intro l. split.
  - intros (c & -> & Hc). apply Ascii.eqb_eq in Hc. now subst.
  - intros ->. exists a. split; [reflexivity | apply Ascii.eqb_refl].
Qed.

(** The look-ahead and the [\S] that follows it amount to one class. *)
Lemma matches_tail_char (x y : pos) :
  matches Doi.tail_char x y <-> matches (Class code_tail) x y.
Proof.
  unfold Doi.tail_char, code_tail. cbn [matches]. split.
  - intros (m & [-> Hno] & c & rest & Hx & Hc & ->).
    exists c, rest. repeat split; try assumption.
    rewrite Hc, andb_true_r. apply negb_true_iff.
    destruct (JS.one_of Doi.excluded c) eqn:E; [ | reflexivity].
    elim (Hno (Some c, rest)). now exists c, rest.
  - intros (c & rest & Hx & Hc & ->).
    apply andb_prop in Hc. destruct Hc as [Hex Hns].
    exists x. split.
    + split; [reflexivity | ].
      intros z (c' & rest' & Hx' & Hc' & _).
      rewrite Hx in Hx'. injection Hx' as <- <-.
      rewrite Hc' in Hex. discriminate Hex.
    + now exists c, rest.
Qed.

(** A sub-segment as the pattern reads it. *)
Lemma reads_segment :
  reads (Seq (Chr ".") (Plus (Class JS.is_digit)))
        (fun l => exists s, l = "."%char :: s /\ segment s).
Proof.
  eapply reads_ext;
    [ | apply (reads_Seq (reads_Chr ".") (reads_Repeat_Class JS.is_digit 1))].
  intro l. unfold segment, all. split.
  - intros (l1 & l2 & -> & -> & Hd & Hlen). exists l2.
    repeat split; try assumption. intros ->. simpl in Hlen. lia.
  - intros (s & -> & Hne & Hd). exists ["."%char], s.
    repeat split; try assumption. destruct s; [now elim Hne | simpl; lia].
Qed.

Lemma concat_dotted (ls : list (list ascii)) :
  Forall (fun l => exists s, l = "."%char :: s /\ segment s) ls ->
  exists segs, concat ls = dotted segs /\ Forall segment segs.
Proof.
  induction 1 as [ | l ls (s & -> & Hs) _ (segs & IH1 & IH2)].
  - now exists [].
  - exists (s :: segs). unfold dotted in *. simpl. rewrite IH1.
    split; [reflexivity | now constructor].
Qed.

Lemma dotted_concat (segs : list (list ascii)) :
  Forall segment segs ->
  Forall (fun l => exists s, l = "."%char :: s /\ segment s)
         (map (cons "."%char) segs).
Proof.
  induction 1 as [ | s segs Hs _ IH]; simpl; constructor.
  - now exists s.
  - exact IH.
Qed.

Lemma dotted_nonempty (l : list ascii) :
  (exists s, l = "."%char :: s /\ segment s) -> l <> [].
Proof. intros (s & -> & _). discriminate. Qed.

(** The head of the group reads the heads of the grammar. *)
Lemma reads_doi_head : reads Doi.doi_head head_shape.
Proof.
  unfold Doi.doi_head.
  refine (@reads_ext _ _ _ (fun l => _)
            (reads_Seq (reads_Chr "1")
               (reads_Seq (reads_Chr "0")
                  (reads_Seq (reads_Chr ".")
                     (reads_Seq (reads_Repeat_Class JS.is_digit 4)
                        (reads_Seq
                           (reads_Repeat 0 reads_segment dotted_nonempty)
                           (reads_Chr "/"))))))).
  unfold head_shape, all. split.
  - intros (l1 & r1 & -> & -> & l2 & r2 & -> & -> & l3 & r3 & -> & ->
            & ds & r4 & -> & [Hds Hlen] & l5 & r5 & -> & (ls & -> & Hls & _)
            & ->).
    destruct (concat_dotted Hls) as (segs & -> & Hsegs).
    exists ds, segs. simpl. repeat split; assumption.
  - intros (ds & segs & -> & Hlen & Hds & Hsegs).
    exists ["1"%char], ("0" :: "." :: ds ++ dotted segs ++ ["/"])%char.
    repeat split.
    exists ["0"%char], ("." :: ds ++ dotted segs ++ ["/"])%char.
    repeat split.
    exists ["."%char], (ds ++ dotted segs ++ ["/"%char]).
    repeat split.
    exists ds, (dotted segs ++ ["/"%char]). repeat split; try assumption.
    exists (dotted segs), ["/"%char]. repeat split.
    exists (map (cons "."%char) segs). repeat split.
    + now apply dotted_concat.
    + lia.
Qed.

(** The tail of the group reads the non-empty runs of tail characters. *)
Lemma reads_doi_tail :
  reads (Plus Doi.tail_char)
        (fun l => forallb code_tail l = true /\ 1 <= length l).
Proof.
  exact (@reads_Repeat_ext _ _ _ _ _ matches_tail_char
                           (reads_Repeat_Class code_tail 1)).
Qed.

Lemma shape_head_tail (m : list ascii) :
  shape code_tail m
  <-> exists h tl, m = h ++ tl /\ head_shape h
                   /\ forallb code_tail tl = true /\ 1 <= length tl.
Proof.
  unfold shape, head_shape, all. split.
  - intros (ds & segs & tl & -> & Hlen & Hds & Hsegs & Hne & Htl).
    exists (("1" :: "0" :: "." :: ds)%char ++ dotted segs ++ ["/"%char]), tl.
    repeat split.
    + simpl. now rewrite <- !app_assoc.
    + exists ds, segs. repeat split; assumption.
    + exact Htl.
    + destruct tl; [now elim Hne | simpl; lia].
  - intros (h & tl & -> & (ds & segs & -> & Hlen & Hds & Hsegs) & Htl & Hne).
    exists ds, segs, tl. repeat split; try assumption.
    + simpl. now rewrite <- !app_assoc.
    + intros ->. simpl in Hne. lia.
Qed.

(** The group of the pattern reads the strings of the grammar. *)
Lemma reads_doi_group : reads Doi.doi_group (shape code_tail).
Proof.
  unfold Doi.doi_group.
  refine (@reads_ext _ _ _ (fun l => _)
            (reads_Seq reads_doi_head reads_doi_tail)).
  symmetry. apply shape_head_tail.
Qed.

(** The matches of the pattern: a string of the grammar between two word
    boundaries. *)
Lemma matches_doiRegex (x z : pos) :
  matches Doi.doiRegex x z
  <-> at_boundary x = true
      /\ at_boundary z = true
      /\ exists m, advance x m z /\ shape code_tail m.
Proof.
  unfold Doi.doiRegex. cbn [matches]. fold (matches Doi.doi_group). split.
  - intros (x' & [-> Bx] & y & Hg & -> & Bz).
    apply reads_doi_group in Hg. auto.
  - intros (Bx & Bz & Hm). apply reads_doi_group in Hm.
    exists x. split; [now split | ]. exists z. split; [exact Hm | now split].
Qed.

End DoiFacts.

(* ================================================================== *)
(** * The first choice of the DOI pattern is the longest match *)
(* ================================================================== *)

Module GreedyFacts.

Import RegExp RegExpFacts ReadFacts DoiGrammar DoiFacts.

Lemma flat_map_nested (A B C : Type) (f : A -> list B) (g : B -> list C) l :
  flat_map g (flat_map f l) = flat_map (fun a => flat_map g (f a)) l.
Proof.
  induction l as [ | a l IH]; simpl; [reflexivity | ].
  now rewrite flat_map_app, IH.
Qed.

Lemma longest_first_snoc (l : list pos) (x : pos) :
  longest_first l ->
  Forall (fun a => remaining a < remaining x) l ->
  longest_first (l ++ [x]).
Proof.
  unfold longest_first. induction 1 as [ | a l _ IH Ha]; intro Hx; simpl.
  - repeat constructor.
  - inversion Hx as [ | ? ? Hax Hlx]; subst. constructor.
    + now apply IH.
    + apply Forall_app. split; [exact Ha | now constructor].
Qed.

Lemma longest_first_head (y0 : pos) (l : list pos) (y : pos) :
  longest_first (y0 :: l) -> In y (y0 :: l) -> remaining y0 <= remaining y.
Proof.
  intros H [<- | Hin]; [lia | ].
  apply StronglySorted_inv in H. destruct H as [_ H].
  rewrite Forall_forall in H. specialize (H y Hin). lia.
Qed.

(** Word boundaries filter the end positions and keep their order. *)
Lemma longest_first_boundary (l : list pos) :
  longest_first l -> longest_first (flat_map (ends WordBoundary) l).
Proof.
  unfold longest_first. induction 1 as [ | a l _ IH Ha]; simpl.
  - constructor.
  - destruct (at_boundary a); simpl; [ | exact IH].
    constructor; [exact IH | ].
    rewrite Forall_forall in *. intros z Hz. apply in_flat_map in Hz.
    destruct Hz as (y & Hy & Hz). apply Ha.
    simpl in Hz. destruct (at_boundary y); [ | destruct Hz].
    destruct Hz as [<- | []]. exact Hy.
Qed.

(** The end positions of a greedy run of single characters come longest
    first. *)
Lemma repeat_single_longest_first (step : pos -> list pos) :
  (forall x y, In y (step x) -> remaining x = S (remaining y)) ->
  (forall x, length (step x) <= 1) ->
  forall fuel min x,
    longest_first (repeat_ends step fuel min None x)
    /\ Forall (fun a => remaining a <= remaining x)
              (repeat_ends step fuel min None x).
Proof.
  intros Hstep Hone. induction fuel as [ | fuel IH]; intros min x; simpl.
  - split; constructor.
  - specialize (Hone x).
    destruct (step x) as [ | y [ | y' l]] eqn:E; simpl in *; try lia.
    + destruct (Nat.eqb min 0); split; repeat constructor.
    + assert (Hy : remaining x = S (remaining y))
        by (apply Hstep; rewrite E; now left).
      replace (Nat.eqb min 0 && Nat.eqb (remaining y) (remaining x))
        with false
        by (symmetry; apply andb_false_iff; right; apply Nat.eqb_neq; lia).
      rewrite app_nil_r.
      destruct (IH (pred min) y) as [Hs Hle].
      assert (Hlt : Forall (fun a => remaining a < remaining x)
                           (repeat_ends step fuel (pred min) None y)).
      { eapply Forall_impl; [ | exact Hle]. simpl. intros a Ha. lia. }
      destruct (Nat.eqb min 0).
      * split; [now apply longest_first_snoc | ].
        apply Forall_app. split.
        -- eapply Forall_impl; [ | exact Hlt]. simpl. intros a Ha. lia.
        -- repeat constructor.
      * split; [exact Hs | ].
        eapply Forall_impl; [ | exact Hlt]. simpl. intros a Ha. lia.
Qed.

Lemma tail_char_single (x : pos) :
  (forall y, In y (ends Doi.tail_char x) -> remaining x = S (remaining y))
  /\ length (ends Doi.tail_char x) <= 1.
Proof.
  unfold Doi.tail_char. destruct x as [p [ | c rest]];
    cbn [ends snd flat_map app].
  - split; [intros y [] | simpl; lia].
  - destruct (JS.one_of Doi.excluded c); cbn [ends snd flat_map app];
      [split; [intros y [] | simpl; lia] | ].
    destruct (JS.is_nonspace c); cbn [app];
      [ | split; [intros y [] | simpl; lia]].
    split; [ | simpl; lia]. intros y [<- | []]. reflexivity.
Qed.

(** From one position, the tail and the boundary after it come longest
    match first. *)
Lemma tail_longest_first (q : pos) :
  longest_first (flat_map (ends WordBoundary) (ends (Plus Doi.tail_char) q)).
Proof.
  apply longest_first_boundary. unfold Plus. cbn [ends].
  apply repeat_single_longest_first; intros x; apply tail_char_single.
Qed.

(** The slash of a head is the first slash of the input. *)
Lemma head_shape_slash (h : list ascii) :
  head_shape h -> exists u, h = u ++ ["/"%char] /\ ~ In "/"%char u.
Proof.
  intros (ds & segs & -> & _ & Hds & Hsegs).
  exists (("1" :: "0" :: "." :: ds)%char ++ dotted segs). split.
  - simpl. now rewrite <- app_assoc.
  - assert (Hdigits : forall l, all JS.is_digit l -> ~ In "/"%char l).
    { unfold all. induction l as [ | c l IH]; simpl; intros Hl Hin.
      - exact Hin.
      - apply andb_prop in Hl. destruct Hl as [Hc Hl].
        destruct Hin as [E | Hin]; [subst c; discriminate Hc | now apply IH]. }
    intro Hin. apply in_app_or in Hin. destruct Hin as [Hin | Hin].
    + simpl in Hin. destruct Hin as [E | [E | [E | Hin]]]; try discriminate E.
      now apply (Hdigits ds).
    + clear - Hsegs Hin Hdigits. unfold dotted in Hin.
      induction Hsegs as [ | s segs [_ Hs] _ IH]; simpl in Hin.
      * exact Hin.
      * destruct Hin as [E | Hin]; [discriminate E | ].
        apply in_app_or in Hin. destruct Hin as [Hin | Hin].
        -- now apply (Hdigits s).
        -- now apply IH.
Qed.

Lemma first_slash (u u' s s' : list ascii) :
  u ++ "/"%char :: s = u' ++ "/"%char :: s' ->
  ~ In "/"%char u -> ~ In "/"%char u' -> u = u'.
Proof.
  revert u'. induction u as [ | c u IH]; intros [ | c' u'] E Hu Hu';
    simpl in *.
  - reflexivity.
  - injection E as <- _. elim Hu'. now left.
  - injection E as -> _. elim Hu. now left.
  - injection E as <- E. f_equal. apply (IH u' E); tauto.
Qed.

(** The head matches up to one position at most. *)
Lemma doi_head_unique (x y y' : pos) :
  matches Doi.doi_head x y -> matches Doi.doi_head x y' -> y = y'.
Proof.
  intros H H'. apply reads_doi_head in H, H'.
  destruct H as (h & Hh & Sh), H' as (h' & Hh' & Sh').
  destruct (head_shape_slash Sh) as (u & -> & Hu).
  destruct (head_shape_slash Sh') as (u' & -> & Hu').
  assert (E : u = u').
  { destruct Hh as [Hx _], Hh' as [Hx' _]. rewrite Hx in Hx'.
    rewrite <- !app_assoc in Hx'. simpl in Hx'.
    exact (first_slash _ _ _ _ Hx' Hu Hu'). }
  subst u'. rewrite (advance_end Hh), (advance_end Hh'). reflexivity.
Qed.

(** Continuations of one position: the first choice and all choices are
    those of that position. *)
Lemma flat_map_single (F : pos -> list pos) (q : pos) (Y : list pos) :
  (forall y, In y Y -> y = q) ->
  forall z tl,
    flat_map F Y = z :: tl ->
    (exists tl', F q = z :: tl')
    /\ (forall z', In z' (flat_map F Y) -> In z' (F q)).
Proof.
  intros Hq z tl H. split.
  - induction Y as [ | y Y IH]; simpl in H; [discriminate H | ].
    rewrite (Hq y (or_introl eq_refl)) in H.
    destruct (F q) as [ | z0 tl0] eqn:E.
    + apply IH; [ | exact H]. intros y0 Hy0. apply Hq. now right.
    + simpl in H. injection H as -> _. now exists tl0.
  - intros z' Hz'. apply in_flat_map in Hz'. destruct Hz' as (y & Hy & Hz').
    now rewrite (Hq y Hy) in Hz'.
Qed.

(** The first choice of the pattern is its longest match. *)
Theorem doiRegex_longest (x z : pos) (tl : list pos) :
  ends Doi.doiRegex x = z :: tl ->
  forall z', In z' (ends Doi.doiRegex x) -> remaining z <= remaining z'.
Proof.
  unfold Doi.doiRegex, Doi.doi_group. cbn [ends].
  destruct (at_boundary x); cbn [flat_map]; [ | discriminate].
  rewrite app_nil_r, flat_map_nested. intros H z' Hz'.
  destruct (ends Doi.doi_head x) as [ | q Y] eqn:E; [discriminate H | ].
  assert (Hq : forall y, In y (q :: Y) -> y = q).
  { intros y Hy. apply (doi_head_unique (x := x)); apply ends_matches;
      rewrite E; [exact Hy | now left]. }
  destruct (@flat_map_single
              (fun a => flat_map (ends WordBoundary)
                                 (ends (Plus Doi.tail_char) a))
              q (q :: Y) Hq z tl H)
    as [[tl' Hz] Hall].
  specialize (Hall z' Hz').
  pose proof (tail_longest_first q) as Hs. rewrite Hz in Hs, Hall.
  exact (longest_first_head Hs Hall).
Qed.

End GreedyFacts.

(* ================================================================== *)
(** * The scan for a DOI: leftmost, then longest *)
(* ================================================================== *)

Module ScanFacts.

Import RegExp RegExpFacts SearchFacts ReadFacts DoiGrammar DoiFacts GreedyFacts.

Lemma app_same_length (A : Type) (a b c d : list A) :
  a ++ b = c ++ d -> length a = length c -> a = c /\ b = d.
Proof.
  revert c. induction a as [ | x a IH]; intros [ | y c] E L;
    simpl in *; try discriminate L.
  - now split.
  - injection E as -> E. injection L as L.
    destruct (IH c E L) as [-> ->]. now split.
Qed.

(** An occurrence of a string of the grammar is a match of the pattern. *)
Lemma occurs_matches (text pre m post : list ascii) :
  occurs text pre m post -> shape code_tail m ->
  matches Doi.doiRegex (prev_after None pre, m ++ post)
          (prev_after None (pre ++ m), post).
Proof.
  intros (_ & Bx & Bz) Hm. apply matches_doiRegex.
  split; [exact Bx | ]. split; [exact Bz | ].
  exists m. split; [ | exact Hm]. rewrite prev_after_app. apply advance_from.
Qed.

(** The scan returns the leftmost occurrence of a string of the grammar
    between word boundaries, and the longest one that starts there; it
    returns nothing exactly when there is no occurrence. *)
Theorem search_doi (text : list ascii) :
  match search Doi.doiRegex None text with
  | Some m =>
      exists pre post,
        occurs text pre m post
        /\ shape code_tail m
        /\ (forall pre' m' post',
               occurs text pre' m' post' -> shape code_tail m' ->
               length pre < length pre'
               \/ (length pre' = length pre /\ length m' <= length m))
  | None =>
      forall pre m post, occurs text pre m post -> ~ shape code_tail m
  end.
Proof.
  destruct (search Doi.doiRegex None text) as [m | ] eqn:S.
  - destruct (search_found _ _ _ S)
      as (pre & post & y & tl & Htext & Hends & Hadv & Hleft).
    assert (Hy : matches Doi.doiRegex (prev_after None pre, m ++ post) y)
      by (apply ends_matches; rewrite Hends; now left).
    apply matches_doiRegex in Hy. destruct Hy as (Bx & By & m0 & Hadv0 & Hm0).
    assert (E : m0 = m).
    { rewrite <- (advance_consumed Hadv0). apply advance_consumed. exact Hadv. }
    subst m0. rewrite (advance_end Hadv) in By. simpl in By.
    rewrite skipn_app, skipn_all, Nat.sub_diag in By. simpl in By.
    rewrite <- prev_after_app in By.
    exists pre, post. split; [now repeat split | ]. split; [exact Hm0 | ].
    intros pre' m' post' Hocc Hm'.
    destruct (Nat.lt_trichotomy (length pre) (length pre')) as [Lt | [Eq | Gt]].
    + now left.
    + right. split; [now symmetry | ].
      pose proof Hocc as (Htext' & _).
      rewrite Htext in Htext'.
      destruct (app_same_length _ _ _ _ Htext' Eq) as [<- Hrest].
      pose proof (occurs_matches Hocc Hm') as Hz.
      apply ends_matches in Hz. rewrite <- Hrest in Hz.
      pose proof (doiRegex_longest _ Hends _ Hz) as Hle.
      rewrite (advance_end Hadv) in Hle. unfold remaining in Hle. simpl in Hle.
      rewrite skipn_app, skipn_all, Nat.sub_diag in Hle. simpl in Hle.
      apply (f_equal (@length ascii)) in Hrest. rewrite !length_app in Hrest.
      lia.
    + exfalso. pose proof Hocc as (Htext' & _).
      pose proof (occurs_matches Hocc Hm') as Hz.
      apply ends_matches in Hz.
      rewrite (Hleft pre' (m' ++ post') Htext' Gt) in Hz. destruct Hz.
  - intros pre m post Hocc Hm.
    pose proof Hocc as (Htext & _).
    pose proof (occurs_matches Hocc Hm) as Hz. apply ends_matches in Hz.
    rewrite (search_none _ _ S pre (m ++ post) Htext) in Hz. destruct Hz.
Qed.

End ScanFacts.

(* ================================================================== *)
(** * A delimited DOI is returned as it stands *)
(* ================================================================== *)

Module DelimitedFacts.

Import RegExp RegExpFacts SearchFacts ReadFacts DoiGrammar DoiFacts
       GreedyFacts ScanFacts.

Lemma digit_nonspace (c : ascii) :
  JS.is_digit c = true -> JS.is_space c = false.
Proof.
  intro H. apply not_true_iff_false. intro S.
  unfold JS.is_digit, JS.is_space, JS.between in *.
  rewrite ?orb_true_iff, ?andb_true_iff, ?N.leb_le, ?N.eqb_eq in *. lia.
Qed.

Lemma space_not_word (c : ascii) :
  JS.is_space c = true -> JS.is_word c = false.
Proof.
  intro S. apply not_true_iff_false. intro H.
  unfold JS.is_word, JS.is_digit, JS.is_space, JS.between in *.
  rewrite ?orb_true_iff, ?andb_true_iff, ?N.leb_le, ?N.eqb_eq in *. lia.
Qed.

Lemma code_tail_nonspace (c : ascii) :
  code_tail c = true -> JS.is_space c = false.
Proof.
  unfold code_tail, JS.is_nonspace. intro H. apply andb_prop in H.
  destruct H as [_ H]. now apply negb_true_iff.
Qed.

Lemma all_nonspace (f : ascii -> bool) (l : list ascii) :
  (forall c, f c = true -> JS.is_space c = false) ->
  all f l -> Forall (fun c => JS.is_space c = false) l.
Proof.
  intros Hf. unfold all. induction l as [ | c l IH]; simpl; intro H.
  - constructor.
  - apply andb_prop in H. destruct H as [Hc Hl]. constructor; auto.
Qed.

(** A string of the grammar has a slash and no white space. *)
Lemma shape_chars (m : list ascii) :
  shape code_tail m ->
  In "/"%char m /\ Forall (fun c => JS.is_space c = false) m.
Proof.
  intros (ds & segs & tl & -> & _ & Hds & Hsegs & _ & Htl). split.
  - apply in_or_app. right. apply in_or_app. right. now left.
  - change (("1" :: "0" :: "." :: ds)%char)
      with (["1"; "0"; "."]%char ++ ds).
    rewrite <- app_assoc.
    apply Forall_app. split; [repeat constructor | ].
    apply Forall_app. split; [exact (all_nonspace digit_nonspace Hds) | ].
    apply Forall_app. split.
    + unfold dotted. induction Hsegs as [ | s segs [_ Hs] _ IH]; simpl.
      * constructor.
      * constructor; [reflexivity | ].
        apply Forall_app. split; [ | exact IH].
        exact (all_nonspace digit_nonspace Hs).
    + constructor; [reflexivity | ].
      exact (all_nonspace code_tail_nonspace Htl).
Qed.

(** Where a string that starts before the end of [pre] lies: within [pre],
    or across its last character. *)
Lemma overlap (pre0 m post0 pre rest : list ascii) :
  pre0 ++ m ++ post0 = pre ++ rest -> length pre0 < length pre ->
  (exists w, pre = pre0 ++ m ++ w)
  \/ (exists v c w, pre = pre0 ++ v ++ [c] /\ m = v ++ c :: w).
Proof.
  intros E L. apply app_eq_app in E. destruct E as (l & [[-> E] | [-> E]]).
  - rewrite length_app in L. lia.
  - assert (Hl : l <> []) by (intros ->; rewrite app_nil_r in L; lia).
    apply app_eq_app in E. destruct E as (l2 & [[-> E] | [-> E]]).
    + right. destruct (exists_last Hl) as (v & c & ->).
      exists v, c, l2. split; [reflexivity | now rewrite <- app_assoc].
    + left. now exists l2.
Qed.

(** A string of the grammar that ends with a word character, with nothing
    before it that could start or carry a match and white space or nothing
    after it, is what the scan returns. *)
Theorem search_doi_delimited (pre d d' post : list ascii) (c : ascii) :
  shape code_tail d ->
  d = d' ++ [c] -> JS.is_word c = true ->
  clean_before pre -> clean_after post ->
  search Doi.doiRegex None (pre ++ d ++ post) = Some d.
Proof.
  intros Hd Hlast Hc [Hslash Hpre] Hpost.
  assert (Hfirst : exists d0, d = "1"%char :: d0).
  { destruct Hd as (ds & segs & tl & -> & _). now eexists. }
  destruct Hfirst as [d0 Hd0].
  assert (Hocc : occurs (pre ++ d ++ post) pre d post).
  { split; [reflexivity | ]. unfold at_boundary, word_before, word_after.
    split; simpl.
    - rewrite Hd0. simpl.
      destruct (prev_after None pre) as [b | ]; [ | reflexivity].
      now rewrite (space_not_word _ Hpre).
    - rewrite Hlast, app_assoc, prev_after_last, Hc.
      destruct post as [ | b post]; [reflexivity | ].
      simpl in Hpost. now rewrite (space_not_word _ Hpost). }
  pose proof (search_doi (pre ++ d ++ post)) as H.
  destruct (search Doi.doiRegex None (pre ++ d ++ post)) as [m | ].
  2: { elim (H pre d post Hocc Hd). }
  destruct H as (pre0 & post0 & Hocc0 & Hm & Hmin).
  destruct (shape_chars Hm) as [Hm_slash Hm_chars].
  pose proof Hocc0 as (Htext & _).
  destruct (Hmin pre d post Hocc Hd) as [Lt | [Eq Le]].
  - exfalso. symmetry in Htext.
    destruct (overlap _ _ _ _ _ Htext Lt) as [(w & E) | (v & b & w & E & Em)].
    + apply Hslash. rewrite E. apply in_or_app. right.
      apply in_or_app. now left.
    + rewrite E, !app_assoc, prev_after_last in Hpre.
      rewrite Forall_forall in Hm_chars.
      rewrite (Hm_chars b) in Hpre; [discriminate Hpre | ].
      rewrite Em. apply in_or_app. right. now left.
  - destruct (app_same_length _ _ _ _ Htext Eq) as [_ Hrest].
    symmetry in Hrest. apply app_eq_app in Hrest.
    destruct Hrest as (l & [[Em E] | [Ed E]]).
    + destruct l as [ | b l]; [now rewrite Em, app_nil_r | ].
      exfalso. subst post. simpl in Hpost.
      rewrite Forall_forall in Hm_chars.
      rewrite (Hm_chars b) in Hpost; [discriminate Hpost | ].
      rewrite Em. apply in_or_app. right. now left.
    + rewrite Ed, length_app in Le.
      destruct l; [now rewrite Ed, app_nil_r | simpl in Le; lia].
Qed.

End DelimitedFacts.
(* ================================================================== *)
(** * Identifier extraction *)
(* ================================================================== *)

Lemma list_ascii_of_string_app (a b : string) :
  list_ascii_of_string (a ++ b)%string
  = list_ascii_of_string a ++ list_ascii_of_string b.
Proof. induction a as [ | c a IH]; simpl; [reflexivity | now rewrite IH]. Qed.

(** The identifier of the specification's example, as a string of the
    grammar. *)
Lemma example_shape :
  DoiGrammar.shape DoiGrammar.code_tail (list_ascii_of_string "10.1234/abcd.5").
Proof.
  exists (list_ascii_of_string "1234"), [], (list_ascii_of_string "abcd.5").
  repeat split; simpl; try lia; try constructor. discriminate.
Qed.

(** C8, as amended.  Identifier extraction is a function of the raw text
    and of the identifier the extractor supplied.  A supplied identifier
    that is a non-empty string is returned as it is.  Otherwise
    [api/verify.ts] and [src/services/geminiService.ts] return the leftmost
    substring of the text that stands between two word boundaries and
    consists of [10.], four digits or more, optional sub-segments of a dot
    and digits, a slash, and one character or more that is neither white
    space nor a double quote, an ampersand, an apostrophe or an angle
    bracket; of the substrings that start there they return the longest;
    and they leave the identifier as supplied exactly when the text has no
    such substring.  In particular [10.1234/abcd.5] is returned as it
    stands from a text where nothing before it contains a slash, and it is
    at the start or follows white space, and it is at the end or white
    space follows it.  The pattern of [part_001] returns a supplied
    identifier alike. *)
Theorem C8_identifier_extraction (known : option string) (text : string) :
  (JS.truthy known = true ->
   Doi.extractDoi known text = known
   /\ Doi.extractDoi_part001 known text = known)
  /\ (JS.truthy known = false ->
      (Doi.extractDoi known text = known
       /\ forall pre m post,
          DoiGrammar.occurs (list_ascii_of_string text) pre m post ->
          ~ DoiGrammar.shape DoiGrammar.code_tail m)
      \/ (exists pre m post,
             Doi.extractDoi known text = Some (string_of_list_ascii m)
             /\ DoiGrammar.occurs (list_ascii_of_string text) pre m post
             /\ DoiGrammar.shape DoiGrammar.code_tail m
             /\ forall pre' m' post',
                 DoiGrammar.occurs (list_ascii_of_string text) pre' m' post' ->
                 DoiGrammar.shape DoiGrammar.code_tail m' ->
                 length pre < length pre'
                 \/ (length pre' = length pre /\ length m' <= length m)))
  /\ (forall pre post : string,
         JS.truthy known = false ->
         DoiGrammar.clean_before (list_ascii_of_string pre) ->
         DoiGrammar.clean_after (list_ascii_of_string post) ->
         Doi.extractDoi known (pre ++ "10.1234/abcd.5" ++ post)
         = Some "10.1234/abcd.5").
Proof.
  unfold Doi.extractDoi, Doi.extractDoi_part001, Doi.extract, RegExp.match0.
  split; [ | split].
  - intros ->. now split.
  - intros ->.
    pose proof (ScanFacts.search_doi (list_ascii_of_string text)) as H.
    destruct (RegExp.search Doi.doiRegex None (list_ascii_of_string text))
      as [m | ]; simpl.
    + right. destruct H as (pre & post & Hocc & Hm & Hmin).
      now exists pre, m, post.
    + left. now split.
  - intros pre post -> Hpre Hpost.
    rewrite !list_ascii_of_string_app.
    rewrite (@DelimitedFacts.search_doi_delimited
               (list_ascii_of_string pre)
               (list_ascii_of_string "10.1234/abcd.5")
               (list_ascii_of_string "10.1234/abcd.")
               (list_ascii_of_string post)
               "5"%char example_shape eq_refl eq_refl Hpre Hpost).
    reflexivity.
Qed.

(** C8 on an identifier the extractor supplied and on the example of the
    specification inside a sentence. *)
Lemma C8_identifier_extraction_witness :
  Doi.extractDoi (Some "10.1000/xyz123") "no identifier here"
  = Some "10.1000/xyz123"
  /\ Doi.extractDoi None "see 10.1234/abcd.5 for the data" = Some "10.1234/abcd.5"
  /\ (exists pre m post,
         Doi.extractDoi (Some "") "doi: 10.1000/xyz123." = Some (string_of_list_ascii m)
         /\ DoiGrammar.occurs (list_ascii_of_string "doi: 10.1000/xyz123.")
                              pre m post
         /\ DoiGrammar.shape DoiGrammar.code_tail m).
Proof.
  split; [ | split].
  - apply (proj1 (C8_identifier_extraction (Some "10.1000/xyz123")
                                           "no identifier here")).
    reflexivity.
  - apply (proj2 (proj2 (C8_identifier_extraction None ""))
                 "see " " for the data" eq_refl).
    + split; [ | reflexivity]. simpl.
      intros [E | [E | [E | [E | []]]]]; discriminate E.
    + reflexivity.
  - destruct (proj1 (proj2 (C8_identifier_extraction
                              (Some "") "doi: 10.1000/xyz123.")) eq_refl)
      as [[E _] | (pre & m & post & E & Hocc & Hm & _)].
    + discriminate E.
    + exists pre, m, post. repeat split; try assumption; apply Hocc.
Defined.

(** C8 as stated fails: the text contains [10.1234/abcd.5], a string of
    the grammar the specification describes, and extraction returns
    nothing, for want of a word boundary before it; and from another text
    that contains it, extraction returns a longer string. *)
Lemma C8_embedded_counterexample :
  (exists pre post,
      list_ascii_of_string "doi10.1234/abcd.5"
      = pre ++ list_ascii_of_string "10.1234/abcd.5" ++ post)
  /\ DoiGrammar.shape DoiGrammar.spec_tail
                      (list_ascii_of_string "10.1234/abcd.5")
  /\ Doi.extractDoi None "doi10.1234/abcd.5" = None
  /\ Doi.extractDoi None "see 10.1234/abcd.5/v2" = Some "10.1234/abcd.5/v2".
Proof.
  split; [ | split; [ | split]].
  - exists (list_ascii_of_string "doi"), []. reflexivity.
  - exists (list_ascii_of_string "1234"), [], (list_ascii_of_string "abcd.5").
    repeat split; simpl; try lia; try constructor. discriminate.
  - reflexivity.
  - reflexivity.
Qed.

(** Where the two patterns and the grammar of the specification part:
    the pattern of [api/verify.ts] stops the tail at an ampersand, which
    is neither a quote nor an angle bracket; the pattern of [part_001]
    takes no sub-segment, no more than nine digits, and any tail without
    white space. *)
Lemma pattern_examples :
  Doi.extractDoi None "10.1234/ab&cd" = Some "10.1234/ab"
  /\ Doi.extractDoi None "x 10.1234.5/abcd y" = Some "10.1234.5/abcd"
  /\ Doi.extractDoi_part001 None "x 10.1234.5/abcd y" = None
  /\ Doi.extractDoi None "10.1234567890/abc" = Some "10.1234567890/abc"
  /\ Doi.extractDoi_part001 None "10.1234567890/abc" = None
  /\ Doi.extractDoi None "x 10.1234/ab<cd> y" = Some "10.1234/ab"
  /\ Doi.extractDoi_part001 None "x 10.1234/ab<cd> y" = Some "10.1234/ab<cd".
Proof. repeat split. Qed.

(* ================================================================== *)
(** * More on the pipelines: order, failure, buckets *)
(* ================================================================== *)

Module PipelineFacts.

Lemma Forall2_map_eq (A B C : Type) (f : B -> C) (g : A -> C) l l' :
  Forall2 (fun a b => f b = g a) l l' -> map f l' = map g l.
Proof. induction 1; simpl; congruence. Qed.

Section Items.

Variable W : Type.
Variable svc : Services W.

Lemma ApiVerify_item_text item w c w' :
  ApiVerify.verifyItem svc item w = (Ok c, w') ->
  rawText c = item_rawText item.
Proof.
  unfold ApiVerify.verifyItem. intro H.
  bind_inv H cr w1 Hcr. bind_inv H vr w2 Hvr. bind_inv H i w3 Hi.
  apply ret_ok in H. destruct H as [<- _]. reflexivity.
Qed.

Lemma GeminiService_item_text item w c w' :
  GeminiService.verifyItem svc item w = (Ok c, w') ->
  rawText c = item_rawText item.
Proof.
  unfold GeminiService.verifyItem. intro H.
  bind_inv H cr w1 Hcr. bind_inv H vr w2 Hvr. bind_inv H i w3 Hi.
  apply ret_ok in H. destruct H as [<- _]. reflexivity.
Qed.

Lemma Part001_item_text item w c w' :
  Part001.verifyItem svc item w = (Ok c, w') ->
  rawText c = item_rawText item.
Proof.
  unfold Part001.verifyItem. intro H.
  bind_inv H cr w1 Hcr. bind_inv H vr w2 Hvr.
  apply ret_ok in H. destruct H as [<- _]. reflexivity.
Qed.

Lemma loop_texts (body : RawItem -> M W Citation) :
  (forall item w c w', body item w = (Ok c, w') ->
                       rawText c = item_rawText item) ->
  forall extracted w cs w',
    for_of_push body extracted [] w = (Ok cs, w') ->
    map rawText cs = map item_rawText extracted.
Proof.
  intros Hbody extracted w cs w' H.
  apply for_of_push_ok in H. destruct H as (pushed & -> & Hall). simpl.
  apply Forall2_map_eq. eapply Forall2_impl; [ | exact Hall].
  intros item c (w1 & w2 & Hc). eapply Hbody. exact Hc.
Qed.

End Items.

End PipelineFacts.

(** X1.  The citations of a result are the extracted fragments, one for one and
    in the order of extraction, each with the raw text of its fragment:
    nothing is reordered, merged or dropped, in any of the three
    services. *)
Theorem result_follows_extraction (W : Type) (svc : Services W)
        input w r w' :
  ApiVerify.parseAndVerifyCitations svc input w = (Ok r, w')
  \/ GeminiService.parseAndVerifyCitations (Some svc) input w = (Ok r, w')
  \/ Part001.parseAndVerifyCitations svc input w = (Ok r, w') ->
  exists extracted w1,
    extractCitations svc input w = (Parsed extracted, w1)
    /\ map rawText (citations r) = map item_rawText extracted
    /\ total (summary r) = length extracted.
Proof.
  intro H.
  assert (Hmap : exists extracted w1,
             extractCitations svc input w = (Parsed extracted, w1)
             /\ map rawText (citations r) = map item_rawText extracted
             /\ total (summary r) = length (citations r)).
  { destruct H as [H | [H | H]].
    - apply ApiVerify_run in H.
      destruct H as (extracted & w1 & w2 & Hx & Hloop & -> & _).
      exists extracted, w1. split; [exact Hx | ]. split; [ | reflexivity].
      eapply PipelineFacts.loop_texts; [ | exact Hloop].
      intros item w0 c w0'. apply PipelineFacts.ApiVerify_item_text.
    - apply GeminiService_run in H.
      destruct H as (extracted & w1 & fused & w2 & rv & w3
                     & Hx & Hloop & _ & Hcs & -> & _).
      exists extracted, w1. split; [exact Hx | ]. split; [ | reflexivity].
      rewrite Hcs, map_map.
      rewrite <- (PipelineFacts.loop_texts
                    (GeminiService.verifyItem svc)
                    (fun item w0 c w0' =>
                       @PipelineFacts.GeminiService_item_text W svc item w0 c w0')
                    _ _ Hloop).
      apply map_ext. intro c.
      now destruct (applyReview_frame rv c) as (_ & -> & _).
    - apply Part001_run in H.
      destruct H as (extracted & w1 & w2 & Hx & Hloop & Ht & _).
      exists extracted, w1. split; [exact Hx | ]. split; [ | exact Ht].
      eapply PipelineFacts.loop_texts; [ | exact Hloop].
      intros item w0 c w0'. apply PipelineFacts.Part001_item_text. }
  destruct Hmap as (extracted & w1 & Hx & Hmap & Hsum).
  exists extracted, w1. split; [exact Hx | ]. split; [exact Hmap | ].
  rewrite Hsum. rewrite <- (length_map rawText), Hmap. apply length_map.
Qed.

Lemma result_follows_extraction_witness :
  exists r extracted w1,
    fst (Part001.parseAndVerifyCitations
           (Sample.services (Parsed [Sample.smith; Sample.anonymous])
                            (Parsed []) (Parsed Sample.four)) "t" 0) = Ok r
    /\ extractCitations
         (Sample.services (Parsed [Sample.smith; Sample.anonymous])
                          (Parsed []) (Parsed Sample.four)) "t" 0
       = (Parsed extracted, w1)
    /\ map rawText (citations r) = map item_rawText extracted
    /\ total (summary r) = length extracted.
Proof.
  eexists.
  destruct (result_follows_extraction
              (Sample.services (Parsed [Sample.smith; Sample.anonymous])
                               (Parsed []) (Parsed Sample.four))
              "t" 0 (w' := 5) (or_intror (or_intror eq_refl)))
    as (extracted & w1 & Hx & Hmap & Hlen).
  exists extracted, w1. split; [reflexivity | ]. now repeat split.
Defined.

(* ================================================================== *)
(** * What fusion puts into a citation *)
(* ================================================================== *)

Module FusionFacts.

Lemma or_else_some (a b : option string) :
  is_some b = true -> is_some (JS.or_else a b) = true.
Proof.
  unfold JS.or_else. intro H. destruct (JS.truthy a) eqn:T; [ | exact H].
  destruct a; [reflexivity | discriminate T].
Qed.

Lemma doi_url_some (d : option string) :
  JS.truthy d = true -> is_some (doi_url d) = true.
Proof. unfold doi_url. now intros ->. Qed.

Section Items.

Variable W : Type.
Variable svc : Services W.

Lemma ApiVerify_item_backed item w c w' :
  ApiVerify.verifyItem svc item w = (Ok c, w') -> backed c /\ marked c.
Proof.
  unfold ApiVerify.verifyItem, backed, marked. intro H.
  bind_inv H cr w1 Hcr. bind_inv H vr w2 Hvr. bind_inv H i w3 Hi.
  apply ret_ok in H. destruct H as [<- _]. simpl.
  destruct (JS.truthy (Doi.extractDoi (item_doi item) (item_rawText item)))
           eqn:T.
  - split.
    + intro E. split; [reflexivity | ].
      split; [apply or_else_some, doi_url_some, T | ].
      unfold ApiVerify.fuse in *.
      destruct (is_some cr), (nonempty (groundingChunks vr)),
        (fabrication_markers _); simpl in *; try discriminate E; reflexivity.
    + unfold ApiVerify.fuse.
      destruct (is_some cr), (nonempty (groundingChunks vr)),
        (fabrication_markers _); simpl; split; intro E;
        try reflexivity; discriminate E.
  - apply ret_ok in Hcr. destruct Hcr as [<- _]. simpl. split.
    + unfold ApiVerify.fuse.
      destruct (nonempty (groundingChunks vr)), (fabrication_markers _);
        simpl; intro E; discriminate E.
    + unfold ApiVerify.fuse.
      destruct (nonempty (groundingChunks vr)), (fabrication_markers _);
        simpl; split; intro E; try reflexivity; discriminate E.
Qed.

Lemma GeminiService_item_backed item w c w' :
  GeminiService.verifyItem svc item w = (Ok c, w') -> backed c /\ marked c.
Proof.
  unfold GeminiService.verifyItem, backed, marked. intro H.
  bind_inv H cr w1 Hcr. bind_inv H vr w2 Hvr. bind_inv H i w3 Hi.
  apply ret_ok in H. destruct H as [<- _].
  set (g := Nat.leb 1 (length (groundingChunks vr))). clearbody g. simpl.
  destruct (JS.truthy (Doi.extractDoi (item_doi item) (item_rawText item)))
           eqn:T.
  - split.
    + intro E. split; [reflexivity | ].
      split; [apply or_else_some, doi_url_some, T | ].
      unfold GeminiService.fuse in *.
      destruct (is_some cr), (JS.includes _ "verified"),
        g, (fabrication_markers _);
        simpl in *; try discriminate E; reflexivity.
    + unfold GeminiService.fuse.
      destruct (is_some cr), (JS.includes _ "verified"),
        g, (fabrication_markers _);
        simpl; split; intro E; try reflexivity; discriminate E.
  - apply ret_ok in Hcr. destruct Hcr as [<- _]. simpl. split.
    + unfold GeminiService.fuse.
      destruct (JS.includes _ "verified"),
        g, (fabrication_markers _);
        simpl; intro E; discriminate E.
    + unfold GeminiService.fuse.
      destruct (JS.includes _ "verified"),
        g, (fabrication_markers _);
        simpl; split; intro E; try reflexivity; discriminate E.
Qed.

End Items.

(** ** Markers are found in any letter case *)

Lemma toLowerCase_app (a b : string) :
  JS.toLowerCase (a ++ b)%string
  = (JS.toLowerCase a ++ JS.toLowerCase b)%string.
Proof. induction a as [ | c a IH]; simpl; [reflexivity | now rewrite IH]. Qed.

Lemma includes_here (hay needle : string) :
  prefix needle hay = true -> JS.includes hay needle = true.
Proof. intro H. destruct hay; simpl in *; now rewrite H. Qed.

Lemma includes_later (c : ascii) (hay needle : string) :
  JS.includes hay needle = true -> JS.includes (String c hay) needle = true.
Proof. intro H. simpl JS.includes. rewrite H. apply orb_true_r. Qed.

(** A string includes what stands in it. *)
Lemma includes_middle (pre needle post : string) :
  JS.includes (pre ++ needle ++ post)%string needle = true.
Proof.
  induction pre as [ | c pre IH]; simpl append.
  - apply includes_here. apply prefix_append.
  - now apply includes_later.
Qed.

(** A string that includes a string includes its endings. *)
Lemma prefix_includes_ending (p n hay : string) :
  prefix (p ++ n)%string hay = true -> JS.includes hay n = true.
Proof.
  revert hay. induction p as [ | c p IH]; intros hay H.
  - now apply includes_here.
  - destruct hay as [ | d hay]; [discriminate H | ].
    simpl in H. destruct (ascii_dec c d); [ | discriminate H].
    apply includes_later. now apply IH.
Qed.

Lemma includes_ending (p n hay : string) :
  JS.includes hay (p ++ n)%string = true -> JS.includes hay n = true.
Proof.
  induction hay as [ | d hay IH]; intro H.
  - simpl in H. rewrite orb_false_r in H.
    now apply (prefix_includes_ending p n "").
  - simpl in H. apply orb_true_iff in H. destruct H as [H | H].
    + now apply (prefix_includes_ending p n).
    + apply includes_later. now apply IH.
Qed.

End FusionFacts.

(** X2.  In a result of [api/verify.ts], and in the batch that
    [src/services/geminiService.ts] hands to the review, a VERIFIED
    citation always has a non-empty identifier, a source URL and the
    confidence 0.99: without an identifier the registry is not asked, and
    without the registry there is no second signal. *)
Theorem verified_is_backed (W : Type) (svc : Services W) :
  (forall input w r w',
      ApiVerify.parseAndVerifyCitations svc input w = (Ok r, w') ->
      Forall backed (citations r))
  /\ (forall extracted w fused w',
         GeminiService.verifyLoop svc extracted [] w = (Ok fused, w') ->
         Forall backed fused).
Proof.
  split.
  - intros input w r w' H. apply ApiVerify_run in H.
    destruct H as (extracted & w1 & w2 & _ & Hloop & _).
    eapply (for_of_push_all (ApiVerify.verifyItem svc)); [ | exact Hloop].
    intros item w0 c w0' Hc. eapply FusionFacts.ApiVerify_item_backed, Hc.
  - intros extracted w fused w' Hloop.
    eapply (for_of_push_all (GeminiService.verifyItem svc)); [ | exact Hloop].
    intros item w0 c w0' Hc. eapply FusionFacts.GeminiService_item_backed, Hc.
Qed.

Lemma verified_is_backed_witness :
  exists r c,
    fst (ApiVerify.parseAndVerifyCitations Sample.plain "t" 0) = Ok r
    /\ citations r = [c]
    /\ status c = status_value VERIFIED
    /\ Forall backed (citations r).
Proof.
  eexists. eexists. split; [reflexivity | ]. split; [reflexivity | ].
  split; [reflexivity | ].
  apply (proj1 (verified_is_backed Sample.plain) "t" 0 _ 4). reflexivity.
Defined.

(** X3.  In a result of [api/verify.ts], and in the batch that
    [src/services/geminiService.ts] hands to the review, a citation is
    HALLUCINATION exactly when its explanation, lower-cased, contains
    "hallucinated", "fabricated" or "fake"; and an explanation contains one
    as soon as a word stands in it that lower-cases to one, whatever the
    letter case and whatever surrounds it. *)
Theorem hallucination_iff_marker (W : Type) (svc : Services W) :
  (forall input w r w',
      ApiVerify.parseAndVerifyCitations svc input w = (Ok r, w') ->
      Forall marked (citations r))
  /\ (forall extracted w fused w',
         GeminiService.verifyLoop svc extracted [] w = (Ok fused, w') ->
         Forall marked fused)
  /\ (forall pre word post : string,
         In (JS.toLowerCase word) ["hallucinated"; "fabricated"; "fake"] ->
         fabrication_markers (JS.toLowerCase (pre ++ word ++ post)) = true).
Proof.
  split; [ | split].
  - intros input w r w' H. apply ApiVerify_run in H.
    destruct H as (extracted & w1 & w2 & _ & Hloop & _).
    eapply (for_of_push_all (ApiVerify.verifyItem svc)); [ | exact Hloop].
    intros item w0 c w0' Hc. eapply FusionFacts.ApiVerify_item_backed, Hc.
  - intros extracted w fused w' Hloop.
    eapply (for_of_push_all (GeminiService.verifyItem svc)); [ | exact Hloop].
    intros item w0 c w0' Hc. eapply FusionFacts.GeminiService_item_backed, Hc.
  - intros pre word post Hin. unfold fabrication_markers.
    rewrite !FusionFacts.toLowerCase_app.
    destruct Hin as [E | [E | [E | []]]]; rewrite <- E;
      rewrite FusionFacts.includes_middle; simpl;
      rewrite ?orb_true_r; reflexivity.
Qed.

Lemma hallucination_iff_marker_witness :
  (exists r,
      fst (ApiVerify.parseAndVerifyCitations Sample.plain "t" 0) = Ok r
      /\ Forall marked (citations r))
  /\ fabrication_markers
       (JS.toLowerCase ("This looks " ++ "FABRICATED" ++ ".")) = true.
Proof.
  destruct (hallucination_iff_marker Sample.plain) as (Hres & _ & Hword).
  split.
  - eexists. split; [reflexivity | ]. apply (Hres "t" 0 _ 4). reflexivity.
  - apply Hword. right. left. reflexivity.
Defined.

(** X4.  In the service of [part_001] the word "unverified" counts as
    "verified": a citation whose explanation, lower-cased, contains
    "unverified" and not "hallucination" is returned VERIFIED with the
    confidence 0.98, with or without a registry match. *)
Theorem part001_unverified_reads_verified (W : Type) (svc : Services W)
        input w r w' :
  Part001.parseAndVerifyCitations svc input w = (Ok r, w') ->
  Forall (fun c =>
            JS.includes (JS.toLowerCase (explanation c)) "unverified" = true ->
            JS.includes (JS.toLowerCase (explanation c)) "hallucination" = false ->
            status c = status_value VERIFIED /\ confidenceScore c = 0.98%Q)
         (citations r).
Proof.
  intro H. apply Part001_run in H.
  destruct H as (extracted & w1 & w2 & _ & Hloop & _).
  eapply (for_of_push_all (Part001.verifyItem svc)); [ | exact Hloop].
  intros item w0 c w0'. unfold Part001.verifyItem. intro Hc.
  bind_inv Hc cr w3 Hcr. bind_inv Hc vr w4 Hvr.
  apply ret_ok in Hc. destruct Hc as [<- _]. simpl. intros Hun Hno.
  apply (FusionFacts.includes_ending "un" "verified") in Hun.
  unfold Part001.fuse. rewrite Hun, Hno, orb_true_r. now split.
Qed.

Lemma part001_unverified_reads_verified_witness :
  exists r c,
    fst (Part001.parseAndVerifyCitations (Script.answering "UNVERIFIED") "t" 0)
    = Ok r
    /\ citations r = [c]
    /\ explanation c = "UNVERIFIED"
    /\ status c = status_value VERIFIED /\ confidenceScore c = 0.98%Q.
Proof.
  pose proof (part001_unverified_reads_verified
                (Script.answering "UNVERIFIED") "t" 0 (w' := 3) eq_refl) as H.
  eexists. eexists. split; [reflexivity | ]. split; [reflexivity | ].
  split; [reflexivity | ].
  cbv [citations app] in H. inversion H as [ | c cs Hc _ E].
  apply Hc; reflexivity.
Defined.

(* ================================================================== *)
(** * The buckets of the summary *)
(* ================================================================== *)

Module BucketFacts.

(** One citation falls in one bucket at most, and in one exactly when its
    status is final. *)
Lemma one_bucket (c : Citation) :
  (if is_verified c then 1 else 0)
  + (if is_hallucinated c then 1 else 0)
  + (if is_unverified_or_partial c then 1 else 0)
  = if Spec.final_status (status c) then 1 else 0.
Proof.
  unfold is_verified, is_hallucinated, is_unverified_or_partial,
    Spec.final_status, status_is.
  destruct (String.eqb_spec (status c) (status_value VERIFIED)) as [E | _];
    [rewrite E; reflexivity | ].
  destruct (String.eqb_spec (status c) (status_value HALLUCINATION)) as [E | _];
    [rewrite E; reflexivity | ].
  destruct (String.eqb (status c) (status_value UNVERIFIED)),
    (String.eqb (status c) (status_value PARTIAL_MATCH)); reflexivity.
Qed.

Lemma buckets_count (cs : list Citation) :
  count is_verified cs + count is_hallucinated cs
  + count is_unverified_or_partial cs
  = count (fun c => Spec.final_status (status c)) cs.
Proof.
  unfold count. induction cs as [ | c cs IH]; simpl; [reflexivity | ].
  pose proof (one_bucket c) as H.
  destruct (is_verified c), (is_hallucinated c),
    (is_unverified_or_partial c), (Spec.final_status (status c));
    simpl in *; try discriminate H; lia.
Qed.

Lemma count_le (f : Citation -> bool) (cs : list Citation) :
  count f cs <= length cs.
Proof. unfold count. apply filter_length_le. Qed.

Lemma count_all (f : Citation -> bool) (cs : list Citation) :
  count f cs = length cs <-> Forall (fun c => f c = true) cs.
Proof.
  unfold count. induction cs as [ | c cs IH]; simpl.
  - split; [constructor | reflexivity].
  - pose proof (filter_length_le f cs) as Hle.
    destruct (f c) eqn:F; simpl; split; intro H.
    + constructor; [exact F | apply IH; lia].
    + inversion H; subst. f_equal. now apply IH.
    + lia.
    + inversion H; subst. congruence.
Qed.

End BucketFacts.

(** X5.  The three counts of a summary never exceed the total, and they add up
    to it exactly when every citation has one of the four final statuses:
    always in [api/verify.ts] and in [part_001], and in
    [src/services/geminiService.ts] whenever the review proposed nothing
    else. *)
Theorem summary_buckets (W : Type) (svc : Services W) input w r w' :
  (ApiVerify.parseAndVerifyCitations svc input w = (Ok r, w')
   \/ Part001.parseAndVerifyCitations svc input w = (Ok r, w') ->
   buckets (summary r) = total (summary r))
  /\ (GeminiService.parseAndVerifyCitations (Some svc) input w = (Ok r, w') ->
      buckets (summary r) <= total (summary r)
      /\ (buckets (summary r) = total (summary r)
          <-> Forall (fun c => Spec.final_status (status c) = true)
                     (citations r))).
Proof.
  unfold buckets. split.
  - intros [H | H].
    + pose proof H as Hrun. apply ApiVerify_run in Hrun.
      destruct Hrun as (extracted & w1 & w2 & _ & Hloop & -> & _). simpl.
      rewrite BucketFacts.buckets_count. apply BucketFacts.count_all.
      apply (fusion_status_final svc extracted w1 (w' := w2)). now left.
    + pose proof H as Hrun. apply Part001_run in Hrun.
      destruct Hrun as (extracted & w1 & w2 & _ & Hloop & -> & -> & -> & Hu & _).
      assert (Hsame : count is_unverified (citations r)
                      = count is_unverified_or_partial (citations r)).
      { apply count_ext.
        apply (for_of_push_all (Part001.verifyItem svc)
                 (fun c => is_unverified c = is_unverified_or_partial c))
          in Hloop; [apply Hloop | ].
        intros item w0 c w0' Hc. apply Part001_item_status in Hc.
        unfold is_unverified_or_partial, is_unverified. rewrite Hc.
        now rewrite orb_false_r. }
      rewrite Hu, Hsame, BucketFacts.buckets_count.
      apply BucketFacts.count_all.
      apply (fusion_status_final svc extracted w1 (w' := w2)).
      right. now right.
  - intro H. apply GeminiService_run in H.
    destruct H as (extracted & w1 & fused & w2 & rv & w3
                   & _ & _ & _ & _ & -> & _). simpl.
    rewrite BucketFacts.buckets_count. split.
    + apply BucketFacts.count_le.
    + apply BucketFacts.count_all.
Qed.

Lemma summary_buckets_witness :
  (exists r,
      fst (ApiVerify.parseAndVerifyCitations Sample.plain "t" 0) = Ok r
      /\ buckets (summary r) = total (summary r))
  /\ (exists r,
         fst (GeminiService.parseAndVerifyCitations
                (Some (Sample.services (Parsed [Sample.smith])
                                       (Parsed [Sample.downgrade])
                                       (Parsed Sample.four))) "t" 0) = Ok r
         /\ buckets (summary r) = 0 /\ total (summary r) = 1
         /\ buckets (summary r) <= total (summary r)).
Proof.
  split.
  - eexists. split; [reflexivity | ].
    eapply (proj1 (@summary_buckets _ Sample.plain "t" 0 _ 4)).
    left. vm_compute. reflexivity.
  - eexists. split; [reflexivity | ]. split; [reflexivity | ].
    split; [reflexivity | ].
    eapply (proj2 (@summary_buckets _
                     (Sample.services (Parsed [Sample.smith])
                                      (Parsed [Sample.downgrade])
                                      (Parsed Sample.four)) "t" 0 _ 4)).
    vm_compute. reflexivity.
Defined.

(* ================================================================== *)
(** * The first failure ends the run *)
(* ================================================================== *)

Module FailureFacts.

Section Loop.

Variable W : Type.

(** The loop stops at the first item whose body throws: what follows the
    item is not looked at. *)
Lemma for_of_push_throw (A B : Type) (body : A -> M W B) pre :
  forall acc w acc' w1 item post e w2,
    for_of_push body pre acc w = (Ok acc', w1) ->
    body item w1 = (Throw e, w2) ->
    for_of_push body (pre ++ item :: post) acc w = (Throw e, w2).
Proof.
  induction pre as [ | a pre IH]; intros acc w acc' w1 item post e w2 Hpre Hb.
  - apply ret_ok in Hpre. destruct Hpre as [_ <-]. simpl.
    now apply bind_throw.
  - simpl in *. bind_inv Hpre b w0 Ha.
    rewrite (bind_step _ _ _ Ha). eapply IH; eassumption.
Qed.

End Loop.

End FailureFacts.

(** X6.  If the verification of one fragment throws, the run throws the same
    exception and nothing is returned, whatever the fragments before it
    gave and whatever follows it; the collaborators are left as that
    fragment left them, so no later fragment is looked up or verified, and
    neither review nor bibliography is asked for.  This holds in the three
    services. *)
Theorem first_failure_ends_run (W : Type) (svc : Services W) input w
        pre item post w0 e :
  extractCitations svc input w = (Parsed (pre ++ item :: post), w0) ->
  (forall acc w1 w2,
      ApiVerify.verifyLoop svc pre [] w0 = (Ok acc, w1) ->
      ApiVerify.verifyItem svc item w1 = (Throw e, w2) ->
      ApiVerify.parseAndVerifyCitations svc input w = (Throw e, w2))
  /\ (forall acc w1 w2,
         GeminiService.verifyLoop svc pre [] w0 = (Ok acc, w1) ->
         GeminiService.verifyItem svc item w1 = (Throw e, w2) ->
         GeminiService.parseAndVerifyCitations (Some svc) input w
         = (Throw e, w2))
  /\ (forall acc w1 w2,
         Part001.verifyLoop svc pre [] w0 = (Ok acc, w1) ->
         Part001.verifyItem svc item w1 = (Throw e, w2) ->
         Part001.parseAndVerifyCitations svc input w = (Throw e, w2)).
Proof.
  intro Hx.
  assert (Hx' : await_json (extractCitations svc input) w
                = (Ok (pre ++ item :: post), w0))
    by (unfold await_json; now rewrite Hx).
  split; [ | split]; intros acc w1 w2 Hpre Hitem.
  - unfold ApiVerify.parseAndVerifyCitations.
    rewrite (bind_step _ _ _ Hx'). apply bind_throw.
    eapply FailureFacts.for_of_push_throw; eassumption.
  - unfold GeminiService.parseAndVerifyCitations,
      GeminiService.log_and_rethrow.
    rewrite (bind_step _ _ _ Hx').
    assert (Hl : GeminiService.verifyLoop svc (pre ++ item :: post) [] w0
                 = (Throw e, w2))
      by (eapply FailureFacts.for_of_push_throw; eassumption).
    erewrite bind_throw by exact Hl. reflexivity.
  - unfold Part001.parseAndVerifyCitations.
    rewrite (bind_step _ _ _ Hx'). apply bind_throw.
    eapply FailureFacts.for_of_push_throw; eassumption.
Qed.

Lemma first_failure_ends_run_witness :
  let svc := Script.failing_on (item_rawText Sample.anonymous)
               [Sample.smith; Sample.anonymous; Sample.smith] in
  ApiVerify.parseAndVerifyCitations svc "t" 0 = (Throw Rejected, 4)
  /\ GeminiService.parseAndVerifyCitations (Some svc) "t" 0
     = (Throw Rejected, 4)
  /\ Part001.parseAndVerifyCitations svc "t" 0 = (Throw Rejected, 4).
Proof.
  intro svc.
  pose proof (@first_failure_ends_run _ svc "t" 0 [Sample.smith]
                Sample.anonymous [Sample.smith] 1 Rejected eq_refl)
    as (Ha & Hg & Hp).
  split; [ | split].
  - eapply Ha; vm_compute; reflexivity.
  - eapply Hg; vm_compute; reflexivity.
  - eapply Hp; vm_compute; reflexivity.
Defined.

(* ================================================================== *)
(** * The Crossref client *)
(* ================================================================== *)

Module CrossrefFacts.

Import RegExp.

Lemma matches_lit (s : string) :
  forall x y, matches (Crossref.lit s) x y ->
              snd x = list_ascii_of_string s ++ snd y.
Proof.
  unfold Crossref.lit.
  induction s as [ | c s IH]; intros x y H; simpl in H.
  - now subst y.
  - destruct H as (m & (c' & rest & Hx & Hc & ->) & Hm).
    apply IH in Hm. simpl in Hm. unfold JS.is_char in Hc.
    apply Ascii.eqb_eq in Hc. subst c'. rewrite Hx, Hm. reflexivity.
Qed.

Lemma repeats_opt (R : pos -> pos -> Prop) (x z : pos) :
  repeats R 0 (Some 1) x z -> z = x \/ R x z.
Proof.
  intro H. inversion H as [ ? ? ? Hz | | ? ? ? y ? _ Hxy _ Hrest]; subst.
  - discriminate Hz.
  - now left.
  - right. simpl in Hrest.
    inversion Hrest as [ | | ? ? ? ? ? Hz]; subst; try assumption.
    discriminate Hz.
Qed.

Lemma matches_opt (a : regex) (x z : pos) :
  matches (Crossref.opt a) x z -> z = x \/ matches a x z.
Proof. apply repeats_opt. Qed.

Lemma matches_chr (c : ascii) (x y : pos) :
  matches (Chr c) x y -> snd x = c :: snd y.
Proof.
  intros (c' & rest & Hx & Hc & ->). unfold JS.is_char in Hc.
  apply Ascii.eqb_eq in Hc. now subst c'.
Qed.

(** What the pattern of [cleanDoi] reads is one of the six prefixes. *)
Lemma matches_resolverPrefix (x y : pos) :
  matches Crossref.resolverPrefix x y ->
  exists p, In p resolver_prefixes
            /\ snd x = list_ascii_of_string p ++ snd y.
Proof.
  intros (m & Hscheme & m2 & Hdx & Hdoi).
  apply matches_opt in Hscheme. apply matches_opt in Hdx.
  apply matches_lit in Hdoi.
  assert (Hhost : exists h, (h = "dx.doi.org/" \/ h = "doi.org/")%string
                            /\ snd m = list_ascii_of_string h ++ snd y).
  { destruct Hdx as [-> | Hdx].
    - exists "doi.org/"%string. split; [now right | exact Hdoi].
    - apply matches_lit in Hdx. exists "dx.doi.org/"%string.
      split; [now left | ]. rewrite Hdx, Hdoi. reflexivity. }
  destruct Hhost as (h & Hh & Hm).
  destruct Hscheme as [-> | (m3 & Hhttp & m4 & Hs & Hsl)].
  - exists h. split; [ | exact Hm].
    destruct Hh as [-> | ->]; simpl; tauto.
  - apply matches_lit in Hhttp. apply matches_opt in Hs.
    apply matches_lit in Hsl.
    destruct Hs as [-> | Hs].
    + exists ("http://" ++ h)%string. split.
      * destruct Hh as [-> | ->]; simpl; tauto.
      * rewrite Hhttp, Hsl, Hm. reflexivity.
    + apply matches_chr in Hs.
      exists ("https://" ++ h)%string. split.
      * destruct Hh as [-> | ->]; simpl; tauto.
      * rewrite Hhttp, Hs, Hsl, Hm. reflexivity.
Qed.

Lemma matches_resolverPrefix_part001 (x y : pos) :
  matches Crossref.resolverPrefix_part001 x y ->
  exists p, In p resolver_prefixes_part001
            /\ snd x = list_ascii_of_string p ++ snd y.
Proof.
  intros (m & Hhttp & m2 & Hs & m3 & Hsl & m4 & Hdx & Hdoi).
  apply matches_lit in Hhttp. apply matches_opt in Hs.
  apply matches_lit in Hsl. apply matches_opt in Hdx.
  apply matches_lit in Hdoi.
  assert (Hhost : exists h, (h = "dx.doi.org/" \/ h = "doi.org/")%string
                            /\ snd m3 = list_ascii_of_string h ++ snd y).
  { destruct Hdx as [-> | Hdx].
    - exists "doi.org/"%string. split; [now right | exact Hdoi].
    - apply matches_lit in Hdx. exists "dx.doi.org/"%string.
      split; [now left | ]. rewrite Hdx, Hdoi. reflexivity. }
  destruct Hhost as (h & Hh & Hm).
  destruct Hs as [-> | Hs].
  - exists ("http://" ++ h)%string. split.
    + destruct Hh as [-> | ->]; simpl; tauto.
    + rewrite Hhttp, Hsl, Hm. reflexivity.
  - apply matches_chr in Hs.
    exists ("https://" ++ h)%string. split.
    + destruct Hh as [-> | ->]; simpl; tauto.
    + rewrite Hhttp, Hs, Hsl, Hm. reflexivity.
Qed.

Lemma list_ascii_app (s t : string) :
  list_ascii_of_string (s ++ t)
  = list_ascii_of_string s ++ list_ascii_of_string t.
Proof. induction s as [ | c s IH]; simpl; [reflexivity | now rewrite IH]. Qed.

Lemma prefix_app (p d : string) : prefix p (p ++ d) = true.
Proof.
  induction p as [ | c p IH]; simpl; [now destruct d | ].
  destruct (ascii_dec c c) as [_ | N]; [exact IH | now destruct N].
Qed.

(** A string none of the prefixes starts is left as it is. *)
Lemma replace_prefix_none (r : regex) (ps : list string) (s : string) :
  (forall x y, matches r x y ->
               exists p, In p ps /\ snd x = list_ascii_of_string p ++ snd y) ->
  starts_with_none ps s = true ->
  Crossref.replace_prefix r s = s.
Proof.
  intros Hr Hnone. unfold Crossref.replace_prefix.
  destruct (ends r (None, list_ascii_of_string s)) as [ | y l] eqn:E;
    [reflexivity | exfalso].
  assert (Hy : matches r (None, list_ascii_of_string s) y)
    by (apply RegExpFacts.ends_matches; rewrite E; now left).
  apply Hr in Hy. destruct Hy as (p & Hp & Hs). simpl in Hs.
  unfold starts_with_none in Hnone. rewrite forallb_forall in Hnone.
  specialize (Hnone p Hp).
  assert (Heq : s = (p ++ string_of_list_ascii (snd y))%string).
  { rewrite <- (string_of_list_ascii_of_string s), Hs.
    rewrite <- (list_ascii_of_string_of_list_ascii (snd y)) at 1.
    rewrite <- list_ascii_app. apply string_of_list_ascii_of_string. }
  rewrite Heq, prefix_app in Hnone. discriminate Hnone.
Qed.

(** A string one of the prefixes starts loses it, when the pattern reads
    the prefix there and no other prefix starts the string. *)
Lemma replace_prefix_some (r : regex) (ps : list string) (p d : string) :
  (forall x y, matches r x y ->
               exists p, In p ps /\ snd x = list_ascii_of_string p ++ snd y) ->
  (exists y, matches r (None, list_ascii_of_string (p ++ d)) y) ->
  (forall p' t, In p' ps -> (p ++ d = p' ++ t)%string -> t = d) ->
  Crossref.replace_prefix r (p ++ d) = d.
Proof.
  intros Hr [y0 Hy0] Hone. unfold Crossref.replace_prefix.
  destruct (ends r (None, list_ascii_of_string (p ++ d))) as [ | y l] eqn:E.
  - apply RegExpFacts.ends_matches in Hy0. rewrite E in Hy0. destruct Hy0.
  - assert (Hy : matches r (None, list_ascii_of_string (p ++ d)) y)
      by (apply RegExpFacts.ends_matches; rewrite E; now left).
    apply Hr in Hy. destruct Hy as (p' & Hp' & Hs). simpl in Hs.
    apply (Hone p' _ Hp').
    rewrite <- (string_of_list_ascii_of_string (p ++ d)), Hs.
    rewrite <- (list_ascii_of_string_of_list_ascii (snd y)) at 1.
    rewrite <- list_ascii_app. apply string_of_list_ascii_of_string.
Qed.

Lemma matches_lit_intro (s : string) :
  forall prev rest,
    matches (Crossref.lit s) (prev, list_ascii_of_string s ++ rest)
            (prev_after prev (list_ascii_of_string s), rest).
Proof.
  unfold Crossref.lit. induction s as [ | c s IH]; intros prev rest; simpl.
  - reflexivity.
  - exists (Some c, list_ascii_of_string s ++ rest). split.
    + exists c, (list_ascii_of_string s ++ rest).
      repeat split. unfold JS.is_char. apply Ascii.eqb_refl.
    + apply IH.
Qed.

Lemma matches_opt_skip (a : regex) (x : pos) : matches (Crossref.opt a) x x.
Proof. apply repeats_stop. Qed.

Lemma matches_opt_take (a : regex) (x y : pos) :
  matches a x y -> remaining y <> remaining x -> matches (Crossref.opt a) x y.
Proof.
  intros H N. eapply repeats_again; [reflexivity | exact H | now intros _ | ].
  apply repeats_exhausted. reflexivity.
Qed.

(** The host part of the pattern, [(dx\.)?doi\.org\/], reads either
    host. *)
Lemma matches_host (dx : bool) (prev : option ascii) (rest : list ascii) :
  matches (Seq (Crossref.opt (Crossref.lit "dx.")) (Crossref.lit "doi.org/"))
          (prev, list_ascii_of_string
                   ((if dx then "dx." else "") ++ "doi.org/") ++ rest)
          (Some "/"%char, rest).
Proof.
  destruct dx.
  - exists (Some "."%char, list_ascii_of_string "doi.org/" ++ rest). split.
    + apply matches_opt_take.
      * apply (matches_lit_intro "dx." prev
                 (list_ascii_of_string "doi.org/" ++ rest)).
      * unfold remaining. simpl. lia.
    + apply (matches_lit_intro "doi.org/" (Some "."%char) rest).
  - exists (prev, list_ascii_of_string "doi.org/" ++ rest). split.
    + apply matches_opt_skip.
    + apply (matches_lit_intro "doi.org/" prev rest).
Qed.

(** The scheme, [https?:\/\/], reads either scheme. *)
Lemma matches_scheme (s : bool) (prev : option ascii) (rest : list ascii) :
  matches (Seq (Crossref.lit "http")
               (Seq (Crossref.opt (Chr "s")) (Crossref.lit "://")))
          (prev, list_ascii_of_string
                   ("http" ++ (if s then "s" else "") ++ "://") ++ rest)
          (Some "/"%char, rest).
Proof.
  destruct s.
  - exists (Some "p"%char, list_ascii_of_string "s://" ++ rest). split.
    + apply (matches_lit_intro "http" prev
               (list_ascii_of_string "s://" ++ rest)).
    + exists (Some "s"%char, list_ascii_of_string "://" ++ rest). split.
      * apply matches_opt_take.
        -- exists "s"%char, (list_ascii_of_string "://" ++ rest).
           repeat split.
        -- unfold remaining. simpl. lia.
      * apply (matches_lit_intro "://" (Some "s"%char) rest).
  - exists (Some "p"%char, list_ascii_of_string "://" ++ rest). split.
    + apply (matches_lit_intro "http" prev
               (list_ascii_of_string "://" ++ rest)).
    + exists (Some "p"%char, list_ascii_of_string "://" ++ rest). split.
      * apply matches_opt_skip.
      * apply (matches_lit_intro "://" (Some "p"%char) rest).
Qed.

Lemma resolverPrefix_reads (p d : string) :
  In p resolver_prefixes ->
  exists y, matches Crossref.resolverPrefix
                    (None, list_ascii_of_string (p ++ d)) y.
Proof.
  intro Hp. exists (Some "/"%char, list_ascii_of_string d).
  unfold Crossref.resolverPrefix.
  set (host := Seq (Crossref.opt (Crossref.lit "dx."))
                   (Crossref.lit "doi.org/")).
  set (scheme := Seq (Crossref.lit "http")
                     (Seq (Crossref.opt (Chr "s")) (Crossref.lit "://"))).
  assert (Hwith : forall s dx : bool,
             matches (Seq (Crossref.opt scheme) host)
                     (None,
                      list_ascii_of_string
                        ("http" ++ (if s then "s" else "") ++ "://")
                      ++ list_ascii_of_string
                           ((if dx then "dx." else "") ++ "doi.org/")
                      ++ list_ascii_of_string d)
                     (Some "/"%char, list_ascii_of_string d)).
  { intros s dx.
    exists (Some "/"%char,
            list_ascii_of_string ((if dx then "dx." else "") ++ "doi.org/")
            ++ list_ascii_of_string d).
    split.
    - apply matches_opt_take; [apply matches_scheme | ].
      unfold remaining. destruct s; simpl; rewrite !length_app; lia.
    - apply matches_host. }
  assert (Hbare : forall dx : bool,
             matches (Seq (Crossref.opt scheme) host)
                     (None,
                      list_ascii_of_string
                        ((if dx then "dx." else "") ++ "doi.org/")
                      ++ list_ascii_of_string d)
                     (Some "/"%char, list_ascii_of_string d)).
  { intro dx. eexists. split; [apply matches_opt_skip | apply matches_host]. }
  simpl in Hp.
  destruct Hp as [<- | [<- | [<- | [<- | [<- | [<- | []]]]]]].
  - exact (Hwith true true).
  - exact (Hwith true false).
  - exact (Hwith false true).
  - exact (Hwith false false).
  - exact (Hbare true).
  - exact (Hbare false).
Qed.

Lemma resolverPrefix_part001_reads (p d : string) :
  In p resolver_prefixes_part001 ->
  exists y, matches Crossref.resolverPrefix_part001
                    (None, list_ascii_of_string (p ++ d)) y.
Proof.
  intro Hp. exists (Some "/"%char, list_ascii_of_string d).
  unfold Crossref.resolverPrefix_part001.
  assert (Hwith : forall s dx : bool,
             matches (Seq (Crossref.lit "http")
                          (Seq (Crossref.opt (Chr "s"))
                               (Seq (Crossref.lit "://")
                                    (Seq (Crossref.opt (Crossref.lit "dx."))
                                         (Crossref.lit "doi.org/")))))
                     (None,
                      list_ascii_of_string
                        ("http" ++ (if s then "s" else "") ++ "://")
                      ++ list_ascii_of_string
                           ((if dx then "dx." else "") ++ "doi.org/")
                      ++ list_ascii_of_string d)
                     (Some "/"%char, list_ascii_of_string d)).
  { intros s dx.
    destruct (matches_scheme s None
                (list_ascii_of_string
                   ((if dx then "dx." else "") ++ "doi.org/")
                 ++ list_ascii_of_string d))
      as (m1 & Hhttp & m2 & Hs & Hsl).
    exists m1. split; [exact Hhttp | ].
    exists m2. split; [exact Hs | ].
    eexists. split; [exact Hsl | ].
    apply matches_host. }
  simpl in Hp.
  destruct Hp as [<- | [<- | [<- | [<- | []]]]].
  - exact (Hwith true true).
  - exact (Hwith true false).
  - exact (Hwith false true).
  - exact (Hwith false false).
Qed.

(** No two of the prefixes start the same string. *)
Ltac one_prefix :=
  let p' := fresh "p" in
  let t := fresh "t" in
  let Hp' := fresh "Hp" in
  let H := fresh "H" in
  intros p' t Hp' H; simpl in Hp';
  repeat (destruct Hp' as [<- | Hp']; [simpl in H; inversion H; reflexivity | ]);
  destruct Hp'.

End CrossrefFacts.

(** X7.  [cleanDoi] of [api/verify.ts] and [src/services/geminiService.ts]
    drops one of six resolver prefixes from the front of the identifier
    (scheme and [dx.] are both optional, lower case only) and trims what is
    left; an identifier none of the six starts is trimmed and nothing
    else. *)
Theorem cleanDoi_strips_resolver (d : string) :
  (forall p, In p resolver_prefixes ->
             Crossref.cleanDoi (p ++ d) = JSText.trim d)
  /\ (starts_with_none resolver_prefixes d = true ->
      Crossref.cleanDoi d = JSText.trim d).
Proof.
  split.
  - intros p Hp. unfold Crossref.cleanDoi. f_equal.
    apply (@CrossrefFacts.replace_prefix_some
             _ _ _ _ CrossrefFacts.matches_resolverPrefix).
    + now apply CrossrefFacts.resolverPrefix_reads.
    + simpl in Hp.
      destruct Hp as [<- | [<- | [<- | [<- | [<- | [<- | []]]]]]];
        CrossrefFacts.one_prefix.
  - intro H. unfold Crossref.cleanDoi.
    now rewrite (@CrossrefFacts.replace_prefix_none
                   _ _ _ CrossrefFacts.matches_resolverPrefix H).
Qed.

Lemma cleanDoi_strips_resolver_witness :
  Crossref.cleanDoi "dx.doi.org/10.1000/xyz123 " = "10.1000/xyz123"%string
  /\ Crossref.cleanDoi " HTTPS://DOI.ORG/10.1000/xyz123"
     = "HTTPS://DOI.ORG/10.1000/xyz123"%string.
Proof.
  split.
  - apply (proj1 (cleanDoi_strips_resolver "10.1000/xyz123 ")
             "dx.doi.org/"%string).
    simpl. tauto.
  - apply (proj2 (cleanDoi_strips_resolver
                    " HTTPS://DOI.ORG/10.1000/xyz123")).
    reflexivity.
Defined.

(** X8.  [clean] of [part_001] drops a resolver prefix only when it starts
    with the scheme, and does not trim: an identifier written as
    [doi.org/...] or with white space around it is sent to the registry as
    it is. *)
Theorem cleanDoi_part001_needs_scheme (d : string) :
  (forall p, In p resolver_prefixes_part001 ->
             Crossref.cleanDoi_part001 (p ++ d) = d)
  /\ (starts_with_none resolver_prefixes_part001 d = true ->
      Crossref.cleanDoi_part001 d = d).
Proof.
  split.
  - intros p Hp. unfold Crossref.cleanDoi_part001.
    apply (@CrossrefFacts.replace_prefix_some
             _ _ _ _ CrossrefFacts.matches_resolverPrefix_part001).
    + now apply CrossrefFacts.resolverPrefix_part001_reads.
    + simpl in Hp.
      destruct Hp as [<- | [<- | [<- | [<- | []]]]];
        CrossrefFacts.one_prefix.
  - intro H. unfold Crossref.cleanDoi_part001.
    exact (@CrossrefFacts.replace_prefix_none
             _ _ _ CrossrefFacts.matches_resolverPrefix_part001 H).
Qed.

Lemma cleanDoi_part001_needs_scheme_witness :
  Crossref.cleanDoi_part001 "http://doi.org/10.1000/xyz123 "
  = "10.1000/xyz123 "%string
  /\ Crossref.cleanDoi_part001 "doi.org/10.1000/xyz123"
     = "doi.org/10.1000/xyz123"%string.
Proof.
  split.
  - apply (proj1 (cleanDoi_part001_needs_scheme "10.1000/xyz123 ")
             "http://doi.org/"%string).
    simpl. tauto.
  - apply (proj2 (cleanDoi_part001_needs_scheme "doi.org/10.1000/xyz123")).
    reflexivity.
Defined.

(* ================================================================== *)
(** * From the scan to the registry *)
(* ================================================================== *)

Module LookupFacts.

Lemma trimStart_nonspace (l : list ascii) :
  match l with
  | c :: _ => JS.is_space c = false
  | [] => True
  end ->
  JSText.trimStart l = l.
Proof. destruct l as [ | c l]; simpl; [reflexivity | now intros ->]. Qed.

(** A string with no white space at either end is its own [trim]. *)
Lemma trim_nonspace (l : list ascii) :
  Forall (fun c => JS.is_space c = false) l ->
  JSText.trim (string_of_list_ascii l) = string_of_list_ascii l.
Proof.
  intro H. unfold JSText.trim, JSText.trimEnd.
  rewrite list_ascii_of_string_of_list_ascii.
  rewrite (trimStart_nonspace l) by (destruct H; [exact I | assumption]).
  rewrite trimStart_nonspace, rev_involutive; [reflexivity | ].
  apply Forall_rev in H. destruct H; [exact I | assumption].
Qed.

(** What starts with the digit 1 starts with no resolver prefix. *)
Lemma starts_with_one (l : list ascii) :
  starts_with_none resolver_prefixes (string_of_list_ascii ("1"%char :: l))
  = true.
Proof. reflexivity. Qed.

Lemma encode_char_safe (c : ascii) :
  forallb JSText.url_safe (JSText.encode_char c) = true.
Proof.
  destruct c as [[] [] [] [] [] [] [] []]; vm_compute; reflexivity.
Qed.

Lemma decode_encode (c : ascii) (rest : list ascii) :
  JSText.decode_front (JSText.encode_char c ++ rest) = Some (c, rest).
Proof.
  destruct c as [[] [] [] [] [] [] [] []]; vm_compute; reflexivity.
Qed.

Lemma encode_inj (a : list ascii) :
  forall b,
    flat_map JSText.encode_char a = flat_map JSText.encode_char b -> a = b.
Proof.
  induction a as [ | c a IH]; intros [ | c' b] H; simpl in H.
  - reflexivity.
  - apply (f_equal JSText.decode_front) in H.
    rewrite decode_encode in H. discriminate H.
  - apply (f_equal JSText.decode_front) in H.
    rewrite decode_encode in H. discriminate H.
  - pose proof (f_equal JSText.decode_front H) as D.
    rewrite !decode_encode in D. injection D as -> D.
    f_equal. now apply IH.
Qed.

Lemma list_ascii_inj (s t : string) :
  list_ascii_of_string s = list_ascii_of_string t -> s = t.
Proof.
  intro H. rewrite <- (string_of_list_ascii_of_string s), H.
  apply string_of_list_ascii_of_string.
Qed.

Lemma append_inj (p s t : string) : (p ++ s = p ++ t)%string -> s = t.
Proof.
  induction p as [ | c p IH]; simpl; intro H; [exact H | ].
  injection H as H. now apply IH.
Qed.

End LookupFacts.

(** X9.  An identifier that the scan of the text found goes to the registry as
    it stands: it starts with no resolver prefix and has no white space to
    trim, so [cleanDoi] returns it, and the address asked is the one of the
    works of Crossref followed by the identifier, encoded. *)
Theorem scanned_identifier_sent_as_is (W : Type)
        (fetch : string -> W -> option Crossref.HttpResponse * W)
        (known : option string) (text d : string) (w : W) :
  JS.truthy known = false ->
  Doi.extractDoi known text = Some d ->
  JS.truthy (Some d) = true ->
  Crossref.cleanDoi d = d
  /\ Crossref.fetchCrossrefMetadata fetch d w
     = Crossref.catch_null (Crossref.lookup fetch d) w.
Proof.
  intros Hk Hx Hd.
  assert (Hclean : Crossref.cleanDoi d = d).
  { unfold Doi.extractDoi, Doi.extract, RegExp.match0 in Hx. rewrite Hk in Hx.
    pose proof (ScanFacts.search_doi (list_ascii_of_string text)) as Hs.
    destruct (RegExp.search Doi.doiRegex None (list_ascii_of_string text))
      as [m | ]; simpl in Hx.
    - injection Hx as <-. destruct Hs as (_ & _ & _ & Hshape & _).
      pose proof (DelimitedFacts.shape_chars Hshape) as [_ Hns].
      destruct Hshape as (ds & segs & tl & E & _).
      unfold Crossref.cleanDoi.
      rewrite (@CrossrefFacts.replace_prefix_none
                 _ _ _ CrossrefFacts.matches_resolverPrefix).
      + now apply LookupFacts.trim_nonspace.
      + rewrite E. apply LookupFacts.starts_with_one.
    - subst known. rewrite Hd in Hk. discriminate Hk. }
  split; [exact Hclean | ].
  unfold Crossref.fetchCrossrefMetadata. now rewrite Hclean.
Qed.

Lemma scanned_identifier_sent_as_is_witness :
  Doi.extractDoi None "see 10.1234/abcd.5 for the data" = Some "10.1234/abcd.5"
  /\ Crossref.cleanDoi "10.1234/abcd.5" = "10.1234/abcd.5"%string.
Proof.
  split; [reflexivity | ].
  apply (@scanned_identifier_sent_as_is
           nat (fun _ w => (None, w)) None
           "see 10.1234/abcd.5 for the data" "10.1234/abcd.5" 0);
    reflexivity.
Defined.

(** X10.  The address asked of Crossref determines the identifier: two cleaned
    identifiers that differ give two addresses.  What follows the fixed
    part of the address consists of the characters the encoding leaves
    alone and of the percent sign, so a slash, a question mark, a hash or
    a space of the identifier never reaches the address as such. *)
Theorem works_url_faithful (a b : string) :
  (Crossref.works_url a = Crossref.works_url b -> a = b)
  /\ forallb JSText.url_safe
             (list_ascii_of_string (JSText.encodeURIComponent a)) = true.
Proof.
  unfold Crossref.works_url, JSText.encodeURIComponent. split.
  - intro H. apply LookupFacts.append_inj in H.
    apply LookupFacts.list_ascii_inj.
    apply LookupFacts.encode_inj.
    rewrite <- (list_ascii_of_string_of_list_ascii
                  (flat_map JSText.encode_char (list_ascii_of_string a))).
    rewrite H. apply list_ascii_of_string_of_list_ascii.
  - rewrite list_ascii_of_string_of_list_ascii.
    induction (list_ascii_of_string a) as [ | c l IH]; [reflexivity | ].
    simpl. rewrite forallb_app, IH, LookupFacts.encode_char_safe.
    reflexivity.
Qed.

Lemma works_url_faithful_witness :
  Crossref.works_url "10.1000/xyz 1" <> Crossref.works_url "10.1000/xyz%201"
  /\ Crossref.works_url "10.1000/xyz 1"
     = "https://api.crossref.org/works/10.1000%2Fxyz%201"%string.
Proof.
  split; [ | reflexivity].
  intro H.
  apply (proj1 (works_url_faithful "10.1000/xyz 1" "10.1000/xyz%201")) in H.
  discriminate H.
Defined.

(* ================================================================== *)
(** * The client in front of the handler *)
(* ================================================================== *)

(** X13.  The client of [unnamed/part_000] in front of the handler of
    [api/verify.ts]: the text given is the text the pipeline runs on, the
    405 answer cannot arise, and the client returns the result of the
    pipeline when the pipeline returns one.  When the pipeline throws, the
    later version of the client throws "Verification failed", while the
    earlier one returns the error object of the 500 answer as if it were
    a result. *)
Theorem client_runs_pipeline (W : Type) (svc : Services W)
        (input : string) (w : W) :
  Client.verifyText (Client.in_process svc) input w
  = match ApiVerify.parseAndVerifyCitations svc input w with
    | (Ok r, w') => (inr (ApiVerify.ResultBody r), w')
    | (Throw _, w') => (inl Client.VerificationFailed, w')
    end
  /\ Client.verifyText_unchecked (Client.in_process svc) input w
     = match ApiVerify.parseAndVerifyCitations svc input w with
       | (Ok r, w') => (inr (ApiVerify.ResultBody r), w')
       | (Throw _, w') =>
           (inr (ApiVerify.ErrorBody "Verification failed"), w')
       end.
Proof.
  unfold Client.verifyText, Client.verifyText_unchecked, Client.in_process,
    Client.request, ApiVerify.handler. simpl.
  destruct (ApiVerify.parseAndVerifyCitations svc input w) as [[r | e] w'];
    split; reflexivity.
Qed.

(* ================================================================== *)
(** * The quota of the free tier *)
(* ================================================================== *)

Module AppFacts.

Import App.

Lemma step_sound (u u' : Ui) (e : Event) :
  step u e = Some u' -> quota_sound u ->
  quota_sound u'
  /\ analysesRemaining (state u')
     = (analysesRemaining (state u) - (if charged u e then 1 else 0))%Z
  /\ (userTier (state u') = PRO
      <-> userTier (state u) = PRO \/ e = ClickConfirmPayment).
Proof.
  unfold quota_sound. intros Hstep [Hpos Hrun].
  destruct u as [s p]. simpl in *.
  destruct e as [ | [r | x] | | | | v | t]; simpl in Hstep.
  - destruct p; [discriminate Hstep | ]. simpl in Hstep.
    unfold handleProcess_start in Hstep. simpl in Hstep.
    destruct (String.eqb (JSText.trim (inputText s)) "");
      [discriminate Hstep | ].
    injection Hstep as <-.
    destruct (is_free (userTier s)) eqn:F; simpl.
    + destruct (Z.leb_spec (analysesRemaining s) 0) as [L | L]; simpl.
      * repeat apply conj; try lia; try discriminate; try tauto.
        intros [H | H]; [exact H | discriminate H].
      * repeat apply conj; try lia; try tauto.
        intros [H | H]; [exact H | discriminate H].
    + repeat apply conj; try lia; try tauto.
      * intros _ H. rewrite H in F. discriminate F.
      * intros [H | H]; [exact H | discriminate H].
  - destruct p; [ | discriminate Hstep]. injection Hstep as <-. simpl.
    destruct (userTier s) eqn:T; simpl.
    + specialize (Hrun eq_refl eq_refl).
      repeat apply conj; try lia; try discriminate; try tauto.
      intros [H | H]; discriminate H.
    + repeat apply conj; try lia; try discriminate; try tauto.
  - destruct p; [ | discriminate Hstep]. injection Hstep as <-. simpl.
    repeat apply conj; try lia; try discriminate; try tauto.
    intros [H | H]; [exact H | discriminate H].
  - injection Hstep as <-. unfold on_state, handleUpgradeClick. simpl.
    destruct (isLoggedIn s); simpl;
      (repeat apply conj; try lia; try tauto;
       intros [H | H]; [exact H | discriminate H]).
  - injection Hstep as <-. simpl.
    repeat apply conj; try lia; try tauto.
    intros [H | H]; [exact H | discriminate H].
  - injection Hstep as <-. simpl.
    repeat apply conj; try lia; try tauto.
    intros _ H. discriminate H.
  - injection Hstep as <-. simpl.
    repeat apply conj; try lia; try tauto.
    intros [H | H]; [exact H | discriminate H].
  - injection Hstep as <-. simpl.
    repeat apply conj; try lia; try tauto.
    intros [H | H]; [exact H | discriminate H].
Qed.

Lemma run_sound (events : list Event) :
  forall u u',
    run u events = Some u' -> quota_sound u ->
    quota_sound u'
    /\ analysesRemaining (state u')
       = (analysesRemaining (state u) - Z.of_nat (charges u events))%Z
    /\ (userTier (state u') = PRO
        <-> userTier (state u) = PRO \/ In ClickConfirmPayment events).
Proof.
  induction events as [ | e events IH]; intros u u' Hrun Hu; simpl in *.
  - injection Hrun as <-. split; [exact Hu | ]. split; [lia | tauto].
  - destruct (step u e) as [u1 | ] eqn:S; [ | discriminate Hrun].
    destruct (@step_sound _ _ _ S Hu) as (H1 & Hrem1 & Htier1).
    destruct (IH _ _ Hrun H1) as (H' & Hrem & Htier).
    split; [exact H' | ]. split.
    + rewrite Hrem, Hrem1. destruct (charged u e); lia.
    + rewrite Htier, Htier1. split.
      * intros [[H | H] | H]; auto.
      * intros [H | [H | H]]; auto.
Qed.

End AppFacts.

(** X14.  Whatever the user does, the counter of free analyses stays between 0
    and 10: it starts at 10 and falls by one for each run that succeeded
    while the account was free, and by nothing else, so a free account is
    given ten successful runs at most.  The account is PRO exactly when a
    payment has been confirmed. *)
Theorem free_quota (events : list App.Event) (u : App.Ui) :
  App.run App.initial events = Some u ->
  (0 <= App.analysesRemaining (App.state u) <= 10)%Z
  /\ App.analysesRemaining (App.state u)
     = (10 - Z.of_nat (App.charges App.initial events))%Z
  /\ (App.userTier (App.state u) = App.PRO
      <-> In App.ClickConfirmPayment events).
Proof.
  intro H.
  assert (H0 : quota_sound App.initial)
    by (split; simpl; [lia | discriminate]).
  destruct (@AppFacts.run_sound _ _ _ H H0) as ([Hpos _] & Hrem & Htier).
  change (App.analysesRemaining (App.state App.initial)) with 10%Z in Hrem.
  simpl in Htier. split; [lia | ]. split; [exact Hrem | ].
  rewrite Htier. split; [intros [D | D]; [discriminate D | exact D] | auto].
Qed.

Lemma free_quota_witness :
  exists u,
    App.run App.initial
            [App.TypeText "Smith (2020)"; App.ClickRun;
             App.RunSettled (Throw Rejected); App.ClickRun;
             App.RunSettled
               (Ok {| citations := [];
                      summary := {| total := 0; verified := 0;
                                    hallucinated := 0; unverified := 0 |};
                      multiStyleBib := None |})] = Some u
    /\ App.analysesRemaining (App.state u) = 9%Z
    /\ (0 <= App.analysesRemaining (App.state u) <= 10)%Z.
Proof.
  eexists. split; [reflexivity | ]. split; [reflexivity | ].
  exact (proj1 (@free_quota
                  [App.TypeText "Smith (2020)"; App.ClickRun;
                   App.RunSettled (Throw Rejected); App.ClickRun;
                   App.RunSettled
                     (Ok {| citations := [];
                            summary := {| total := 0; verified := 0;
                                          hallucinated := 0;
                                          unverified := 0 |};
                            multiStyleBib := None |})] _ eq_refl)).
Defined.

(* ================================================================== *)
(** * The cards and the chart *)
(* ================================================================== *)

Module CardFacts.

Lemma confirmed_is_verified (c : Citation) :
  App.badge_eqb (App.renderStatusBadge c) App.Confirmed = is_verified c.
Proof.
  unfold App.renderStatusBadge, is_verified.
  destruct (status_is (status c) VERIFIED); [reflexivity | ].
  destruct (status_is (status c) HALLUCINATION); reflexivity.
Qed.

Lemma fabricated_is_hallucinated (c : Citation) :
  App.badge_eqb (App.renderStatusBadge c) App.LikelyFabricated
  = is_hallucinated c.
Proof.
  unfold App.renderStatusBadge, is_hallucinated, status_is.
  destruct (String.eqb_spec (status c) (status_value VERIFIED)) as [E | _].
  - rewrite E. reflexivity.
  - destruct (String.eqb (status c) (status_value HALLUCINATION)); reflexivity.
Qed.

Lemma unverifiable_is_rest (c : Citation) :
  App.badge_eqb (App.renderStatusBadge c) App.Unverifiable
  = negb (is_verified c) && negb (is_hallucinated c).
Proof.
  unfold App.renderStatusBadge, is_verified, is_hallucinated.
  destruct (status_is (status c) VERIFIED); [reflexivity | ].
  destruct (status_is (status c) HALLUCINATION); reflexivity.
Qed.

Lemma filter_length_ext (f g : Citation -> bool) (cs : list Citation) :
  (forall c, f c = g c) -> length (filter f cs) = length (filter g cs).
Proof. intro H. now rewrite (filter_ext f g H). Qed.

(** The cards that are neither confirmed nor fabricated are those the
    summary counts as unverified and those whose status is none of the
    four. *)
Lemma rest_count (cs : list Citation) :
  length (filter (fun c => negb (is_verified c) && negb (is_hallucinated c)) cs)
  = count is_unverified_or_partial cs
    + length (filter (fun c => negb (Spec.final_status (status c))) cs).
Proof.
  unfold count. induction cs as [ | c cs IH]; simpl; [reflexivity | ].
  pose proof (BucketFacts.one_bucket c) as H.
  destruct (is_verified c), (is_hallucinated c),
    (is_unverified_or_partial c), (Spec.final_status (status c));
    simpl in *; try discriminate H; lia.
Qed.

Lemma none_left (cs : list Citation) :
  length (filter (fun c => negb (Spec.final_status (status c))) cs) = 0
  <-> Forall (fun c => Spec.final_status (status c) = true) cs.
Proof.
  induction cs as [ | c cs IH]; simpl.
  - split; [constructor | reflexivity].
  - destruct (Spec.final_status (status c)) eqn:F; simpl; split; intro H.
    + constructor; [exact F | now apply IH].
    + inversion H; subst. now apply IH.
    + discriminate H.
    + inversion H; subst. congruence.
Qed.

End CardFacts.

(** X15.  The result view of [App.tsx] on a result of
    [src/services/geminiService.ts]: the cards with the badge Confirmed
    are as many as the chart shows confirmed, those with the badge Likely
    Fabricated as many as it shows fabricated, and every card has one of
    the three badges.  The cards with the badge Unverifiable are never
    fewer than the chart shows unknown, and they are more exactly when the
    review left a status that is none of the four. *)
Theorem cards_and_chart (W : Type) (svc : Services W) input w r w' :
  GeminiService.parseAndVerifyCitations (Some svc) input w = (Ok r, w') ->
  App.badges App.Confirmed (citations r) = verified (summary r)
  /\ App.badges App.LikelyFabricated (citations r) = hallucinated (summary r)
  /\ App.badges App.Confirmed (citations r)
     + App.badges App.LikelyFabricated (citations r)
     + App.badges App.Unverifiable (citations r) = total (summary r)
  /\ unverified (summary r) <= App.badges App.Unverifiable (citations r)
  /\ (unverified (summary r) = App.badges App.Unverifiable (citations r)
      <-> Forall (fun c => Spec.final_status (status c) = true)
                 (citations r)).
Proof.
  intro H. apply GeminiService_run in H.
  destruct H as (extracted & w1 & fused & w2 & rv & w3
                 & _ & _ & _ & _ & -> & _).
  unfold Spec.summary_of.
  cbn [verified hallucinated unverified total].
  set (cs := citations r).
  unfold App.badges.
  rewrite (CardFacts.filter_length_ext _ is_verified cs
             CardFacts.confirmed_is_verified).
  rewrite (CardFacts.filter_length_ext _ is_hallucinated cs
             CardFacts.fabricated_is_hallucinated).
  rewrite (CardFacts.filter_length_ext _ _ cs CardFacts.unverifiable_is_rest).
  rewrite CardFacts.rest_count.
  fold (count is_verified cs). fold (count is_hallucinated cs).
  pose proof (BucketFacts.buckets_count cs) as Hb.
  pose proof (CardFacts.none_left cs) as Hn.
  assert (Hall : count (fun c => Spec.final_status (status c)) cs
                 + length (filter (fun c => negb (Spec.final_status (status c)))
                                  cs)
                 = length cs).
  { unfold count. clear. induction cs as [ | c cs IH]; simpl; [reflexivity | ].
    destruct (Spec.final_status (status c)); simpl; lia. }
  repeat apply conj; try reflexivity; try lia.
  - intro E. apply Hn. lia.
  - intro F. apply Hn in F. lia.
Qed.

Lemma cards_and_chart_witness :
  exists r,
    fst (GeminiService.parseAndVerifyCitations
           (Some (Sample.services (Parsed [Sample.smith])
                                  (Parsed [Sample.downgrade])
                                  (Parsed Sample.four))) "t" 0) = Ok r
    /\ unverified (summary r) = 0
    /\ App.badges App.Unverifiable (citations r) = 1
    /\ App.badges App.Confirmed (citations r) = verified (summary r).
Proof.
  eexists. split; [reflexivity | ]. split; [reflexivity | ].
  split; [reflexivity | ].
  eapply (proj1 (@cards_and_chart _
                   (Sample.services (Parsed [Sample.smith])
                                    (Parsed [Sample.downgrade])
                                    (Parsed Sample.four)) "t" 0 _ 4 _)).
  Unshelve. vm_compute. reflexivity.
Defined.

(* ================================================================== *)
(** * The pages of the report *)
(* ================================================================== *)

Module ReportFacts.

Import Report.

Lemma breaks_app (a b : list Command) : breaks (a ++ b) = breaks a + breaks b.
Proof. unfold breaks. now rewrite filter_app, length_app. Qed.

(** The citations are drawn in slots 25 apart, eleven to a page; the
    entry that would start in slot 10 opens a page and takes slot 0.
    From slot [j], [n] entries break the page [(j + n - 1) / 10] times,
    and no line of theirs is drawn above 20 or below 265. *)
Lemma entries_slots (cs : list Citation) :
  forall i j,
    j <= 10 ->
    breaks (fst (entries cs i (20 + 25 * j))) = (j + length cs - 1) / 10
    /\ forallb (drawn_between 20 265) (fst (entries cs i (20 + 25 * j)))
       = true.
Proof.
  induction cs as [ | c cs IH]; intros i j Hj.
  - cbn [entries fst length forallb]. split; [ | reflexivity].
    change (breaks []) with 0. symmetry. apply Nat.div_small. lia.
  - cbn [entries length].
    destruct (Nat.ltb_spec 250 (20 + 25 * j)) as [L | L].
    + assert (j = 10) by lia. subst j.
      destruct (IH (i + 1) 1 ltac:(lia)) as [Hb Hd].
      replace (20 + 5 + 5 + 5 + 10) with (20 + 25 * 1) by reflexivity.
      destruct (entries cs (i + 1) (20 + 25 * 1)) as [more y'].
      cbn [fst] in *. split.
      * rewrite breaks_app, breaks_app, Hb.
        change (breaks [AddPage]) with 1.
        change (breaks (entry i c 20)) with 0.
        replace (10 + S (length cs) - 1) with (length cs + 1 * 10) by lia.
        rewrite Nat.div_add by lia.
        replace (1 + length cs - 1) with (length cs) by lia. lia.
      * rewrite !forallb_app, Hd. reflexivity.
    + destruct (IH (i + 1) (S j) ltac:(lia)) as [Hb Hd].
      replace (20 + 25 * j + 5 + 5 + 5 + 10) with (20 + 25 * S j) by lia.
      destruct (entries cs (i + 1) (20 + 25 * S j)) as [more y'].
      cbn [fst] in *. split.
      * rewrite breaks_app, breaks_app, Hb.
        change (breaks []) with 0.
        change (breaks (entry i c (20 + 25 * j))) with 0.
        replace (S j + length cs - 1) with (j + S (length cs) - 1) by lia.
        lia.
      * rewrite !forallb_app, Hd. cbn [forallb app andb].
        unfold entry. cbn [forallb drawn_between andb].
        repeat match goal with
               | |- context [Nat.leb ?a ?b] =>
                   let E := fresh "E" in
                   assert (E : Nat.leb a b = true) by (apply Nat.leb_le; lia);
                   rewrite E; clear E
               end.
        reflexivity.
Qed.

Section Blocks.

Variable splitTextToSize : option string -> list string.

Lemma style_blocks_breaks (b : Bibliography) (ss : list string) :
  forall y, breaks (style_blocks splitTextToSize b ss y) = 0.
Proof.
  induction ss as [ | s ss IH]; intro y; [reflexivity | ].
  cbn [style_blocks]. rewrite breaks_app, IH. reflexivity.
Qed.

End Blocks.

End ReportFacts.

(** X16.  The report of [downloadPDFReport] has one page, one more for every
    ten citations from the eighth on, and one more when the result has a
    bibliography, however long the bibliography is: the loop over the
    four styles never breaks the page.  Every line of the citation
    entries is drawn between 20 and 265, above the disclaimer at 285. *)
Theorem report_pages (splitTextToSize : option string -> list string)
        (generated now : string) (r : VerificationResult) :
  Report.pages (Report.downloadPDFReport splitTextToSize generated now (Some r))
  = 1 + (length (citations r) + 2) / 10
    + match multiStyleBib r with Some _ => 1 | None => 0 end
  /\ forallb (drawn_between 20 265)
             (fst (Report.entries (citations r) 0 (85 + 10))) = true.
Proof.
  destruct (@ReportFacts.entries_slots (citations r) 0 3 ltac:(lia))
    as [Hb Hd].
  change (20 + 25 * 3) with (85 + 10) in Hb, Hd.
  split; [ | exact Hd].
  unfold Report.pages, Report.downloadPDFReport.
  fold (breaks (Report.header generated (summary r)
                  ++ fst (Report.entries (citations r) 0 (85 + 10))
                  ++ Report.bibliography splitTextToSize (multiStyleBib r)
                  ++ [Report.SetFontSize 8; Report.SetTextColor 150;
                      Report.Text Report.disclaimer 20 285;
                      Report.Save ("VeriCite_Audit_Report_" ++ now ++ ".pdf")])).
  rewrite !ReportFacts.breaks_app, Hb.
  change (breaks (Report.header generated (summary r))) with 0.
  replace (3 + length (citations r) - 1) with (length (citations r) + 2)
    by lia.
  destruct (multiStyleBib r) as [b | ]; cbn [Report.bibliography].
  - rewrite ReportFacts.breaks_app, ReportFacts.style_blocks_breaks.
    unfold breaks. simpl. lia.
  - unfold breaks. simpl. lia.
Qed.

(* ================================================================== *)
(** * The review pass, once more *)
(* ================================================================== *)

Module ReviewFacts.

Lemma applyReview_twice (reviews : list Review) (c : Citation) :
  GeminiService.applyReview reviews (GeminiService.applyReview reviews c)
  = GeminiService.applyReview reviews c.
Proof.
  remember (GeminiService.applyReview reviews c) as c' eqn:Ec.
  unfold GeminiService.applyReview, GeminiService.reviews_citation in Ec.
  destruct (find _ reviews) as [rv | ] eqn:F.
  - destruct (String.eqb (newStatus rv) (status c)) eqn:E;
      cbn [negb] in Ec; subst c'.
    + unfold GeminiService.applyReview, GeminiService.reviews_citation.
      now rewrite F, E.
    + unfold GeminiService.applyReview, GeminiService.reviews_citation.
      cbn [id status]. rewrite F, String.eqb_refl. reflexivity.
  - subst c'.
    unfold GeminiService.applyReview, GeminiService.reviews_citation.
    now rewrite F.
Qed.

End ReviewFacts.

(** X17.  Of the proposals of the review that name a citation, the first
    in the reply is the one that counts, wherever it stands: the proposals
    before it, which name other citations, and all that follow it have no
    effect on the citation, and a reply that does not name the citation
    leaves it as it is.  And the pass settles: reviewing the reviewed
    citations against the same reply changes nothing more, so no
    explanation gets the review tag twice. *)
Theorem review_first_and_once (reviews : list Review) (cs : list Citation) :
  (forall pre rv post c,
      Spec.unreviewed pre c ->
      Some (review_id rv) = id c ->
      GeminiService.applyReview (pre ++ rv :: post) c
      = GeminiService.applyReview [rv] c)
  /\ (forall c,
         Spec.unreviewed reviews c -> GeminiService.applyReview reviews c = c)
  /\ map (GeminiService.applyReview reviews)
         (map (GeminiService.applyReview reviews) cs)
     = map (GeminiService.applyReview reviews) cs.
Proof.
  split; [ | split].
  - intros pre rv post c Hpre Hid.
    assert (Hall : Spec.first_proposal (pre ++ rv :: post) c rv)
      by (exists pre, post; repeat split; assumption).
    assert (Hone : Spec.first_proposal [rv] c rv)
      by (exists [], []; repeat split; [assumption | intros p []]).
    unfold GeminiService.applyReview.
    now rewrite (find_first_proposal Hall), (find_first_proposal Hone).
  - intros c Hun. unfold GeminiService.applyReview.
    destruct (find (GeminiService.reviews_citation c) reviews)
      as [rv | ] eqn:F; [ | reflexivity].
    destruct (find_some _ _ F) as [Hin Hid].
    apply reviews_citation_id in Hid. elim (Hun rv Hin Hid).
  - rewrite map_map. apply map_ext. intro c.
    apply ReviewFacts.applyReview_twice.
Qed.

Lemma review_first_and_once_witness :
  GeminiService.applyReview [Script.elsewhere; Sample.downgrade; Sample.agree]
                            (Script.fused PARTIAL_MATCH)
  = GeminiService.applyReview [Sample.downgrade] (Script.fused PARTIAL_MATCH)
  /\ status (GeminiService.applyReview
               [Script.elsewhere; Sample.downgrade; Sample.agree]
               (Script.fused PARTIAL_MATCH))
     = "UNVERIFIABLE"%string
  /\ GeminiService.applyReview [Script.elsewhere] (Script.fused PARTIAL_MATCH)
     = Script.fused PARTIAL_MATCH.
Proof.
  split; [ | split; [reflexivity | ]].
  - apply (proj1 (review_first_and_once [] []) [Script.elsewhere]
             Sample.downgrade [Sample.agree] (Script.fused PARTIAL_MATCH)).
    + intros rv [<- | []]. discriminate.
    + reflexivity.
  - apply (proj1 (proj2 (review_first_and_once [Script.elsewhere] []))).
    intros rv [<- | []]. discriminate.
Defined.
